(** * Connect four with bomb and teleport pieces: a shallow embedding of
    [connect_four.py] and the properties of its board, pieces, gravity pass,
    win checks, turn loop, prompts and displays. *)

From Stdlib Require Import ZArith Ascii String DecimalString List Lia Bool.
From stdpp Require Import base list gmap strings sorting.
Import ListNotations.

Local Open Scope string_scope.
Local Open Scope Z_scope.

(** String concatenation computes in the proofs on displays. *)
#[local] Arguments String.append !s1 s2 : simpl nomatch.

(** ** Python values and errors *)

(** A computation of the source either returns, raises [IndexError] (a list
    subscript out of range), or, in the model only, exhausts the bound put on
    a [while] loop. *)
Inductive result (A : Type) : Type :=
| Ok (a : A)
| IndexError
| OutOfFuel.
Arguments Ok {A} a.
Arguments IndexError {A}.
Arguments OutOfFuel {A}.

Definition bind {A B} (m : result A) (k : A -> result B) : result B :=
  match m with
  | Ok a => k a
  | IndexError => IndexError
  | OutOfFuel => OutOfFuel
  end.

Notation "x <- m ; k" := (bind m (fun x => k))
  (at level 20, m at level 100, k at level 200, only parsing).
Notation "' pat <- m ; k" := (bind m (fun x => match x with pat => k end))
  (at level 20, pat pattern, m at level 100, k at level 200, only parsing).

(** [for x in l: s = body(s, x)] *)
Fixpoint for_each {A S} (l : list A) (body : S -> A -> result S) (s : S)
  : result S :=
  match l with
  | [] => Ok s
  | x :: l' => s' <- body s x ; for_each l' body s'
  end.

(** [range(a, b)] and [range(hi, -1, -1)]. *)
Definition py_range (a b : Z) : list Z :=
  map (fun k => a + Z.of_nat k) (seq 0 (Z.to_nat (b - a))).

Definition py_range_down (hi : Z) : list Z := rev (py_range 0 (hi + 1)).

(** Python subscripts: [l[i]] with [0 <= i < len(l)] is the i-th element,
    with [-len(l) <= i < 0] it counts from the end, anything else raises. *)
Definition py_index (len : nat) (i : Z) : option nat :=
  if (0 <=? i) && (i <? Z.of_nat len) then Some (Z.to_nat i)
  else if (- Z.of_nat len <=? i) && (i <? 0) then Some (Z.to_nat (Z.of_nat len + i))
  else None.

Definition list_getitem {A} (l : list A) (i : Z) : result A :=
  match py_index (length l) i with
  | Some n => match l !! n with Some x => Ok x | None => IndexError end
  | None => IndexError
  end.

Definition list_setitem {A} (l : list A) (i : Z) (x : A) : result (list A) :=
  match py_index (length l) i with
  | Some n => Ok (<[n:=x]> l)
  | None => IndexError
  end.

(** ** Board *)

(** The empty slot of the grid is the string of one space. *)
Definition blank : string := " ".

Record Board : Type := mkBoard {
  rows : Z;
  columns : Z;
  grid : list (list string)
}.

(** [Board.__init__]: [rows] rows of [columns] blanks, each row a list of its
    own. *)
Definition Board_init (rows columns : Z) : Board :=
  mkBoard rows columns
    (map (fun _ => map (fun _ => blank) (py_range 0 columns)) (py_range 0 rows)).

(** [board.grid[row][column]] *)
Definition grid_get (b : Board) (row column : Z) : result string :=
  r <- list_getitem (grid b) row ; list_getitem r column.

(** [board.grid[row][column] = v] *)
Definition grid_set (b : Board) (row column : Z) (v : string) : result Board :=
  r <- list_getitem (grid b) row ;
  r' <- list_setitem r column v ;
  g' <- list_setitem (grid b) row r' ;
  Ok (mkBoard (rows b) (columns b) g').

(** ** Pieces *)

(** [Piece(symbol)], [BombPiece()] and [TeleportPiece()]. *)
Inductive Piece : Type :=
| StandardPiece (symbol : string)
| BombPiece
| TeleportPiece.

Definition piece_symbol (p : Piece) : string :=
  match p with
  | StandardPiece s => s
  | BombPiece => "B"
  | TeleportPiece => "T"
  end.

(** The loop of [Piece.insert]: the first blank slot from the bottom takes
    the symbol. *)
Fixpoint insert_scan (b : Board) (symbol : string) (column_i0 : Z)
  (rs : list Z) : result (Board * bool) :=
  match rs with
  | [] => Ok (b, false)
  | row :: rs' =>
      x <- grid_get b row column_i0 ;
      if String.eqb x blank then
        b' <- grid_set b row column_i0 symbol ; Ok (b', true)
      else insert_scan b symbol column_i0 rs'
  end.

(** [Piece.insert] *)
Definition Piece_insert (symbol : string) (b : Board) (column : Z)
  : result (Board * bool) :=
  let column_i0 := column - 1 in
  if negb ((0 <=? column_i0) && (column_i0 <? columns b)) then Ok (b, false)
  else insert_scan b symbol column_i0 (py_range_down (rows b - 1)).

(** ** Gravity *)

Definition occupied (x : string) : bool := negb (String.eqb x blank).

(** The cells of column [c], top row first. *)
Definition column_cells (g : list (list string)) (c : nat) : list string :=
  map (fun r => default blank (r !! c)) g.

Fixpoint count_blank (cells : list string) : nat :=
  match cells with
  | [] => 0
  | x :: below => ((if occupied x then 0 else 1) + count_blank below)%nat
  end.

(** How far the pieces of one column still have to fall: for each occupied
    cell, the number of blank cells beneath it. *)
Fixpoint column_height (cells : list string) : nat :=
  match cells with
  | [] => 0
  | x :: below =>
      ((if occupied x then count_blank below else 0) + column_height below)%nat
  end.

(** The total height above support of a board, over all its columns. *)
Definition height_above_support (b : Board) : nat :=
  sum_list (map (fun c => column_height (column_cells (grid b) c))
                (seq 0 (Z.to_nat (columns b)))).

(** The body of the two [for] loops of [gravity_decorator]: a piece over a
    blank slot moves down one row. *)
Definition fall (column : Z) (st : Board * bool) (row : Z)
  : result (Board * bool) :=
  let '(b, moved) := st in
  x <- grid_get b row column ;
  if negb (String.eqb x blank) then
    y <- grid_get b (row + 1) column ;
    if String.eqb y blank then
      v <- grid_get b row column ;
      b1 <- grid_set b (row + 1) column v ;
      b2 <- grid_set b1 row column blank ;
      Ok (b2, true)
    else Ok (b, moved)
  else Ok (b, moved).

(** One pass of the [while] body: [moved] starts [False], every column from
    the left, every row from the second last to the top. *)
Definition sweep (b : Board) : result (Board * bool) :=
  for_each (py_range 0 (columns b))
    (fun st column => for_each (py_range_down (rows b - 2)) (fall column) st)
    (b, false).

(** [while moved == True]: sweeps until one moves nothing. The source puts
    no bound on the loop; the model stops with [OutOfFuel] after [fuel]
    sweeps. *)
Fixpoint gravity_loop (fuel : nat) (b : Board) : result Board :=
  match fuel with
  | O => OutOfFuel
  | S fuel' =>
      '(b', moved) <- sweep b ;
      if moved then gravity_loop fuel' b' else Ok b'
  end.

(** Every sweep but the last moves a piece, and a move lowers the height
    above support by one ([move_height]): this many sweeps are always
    enough ([gravity_settles]). *)
Definition gravity_fuel (b : Board) : nat := S (height_above_support b).

Definition gravity (b : Board) : result Board :=
  gravity_loop (gravity_fuel b) b.

(** [gravity_decorator]: the wrapped insertion, then gravity on the board
    whatever the insertion returned. *)
Definition gravity_decorator
  (insert_method : Board -> Z -> result (Board * bool))
  (b : Board) (column : Z) : result (Board * bool) :=
  '(b1, insertion) <- insert_method b column ;
  b2 <- gravity b1 ;
  Ok (b2, insertion).

(** ** Bomb and teleport *)

(** The row searches of [BombPiece.insert], [TeleportPiece.insert] and
    [Game.begin]: the first row of [rs] whose slot in the column holds the
    symbol, or the initial [inserted_row] when none does. *)
Fixpoint find_symbol (b : Board) (symbol : string) (column_i0 : Z)
  (rs : list Z) (inserted_row : Z) : result Z :=
  match rs with
  | [] => Ok inserted_row
  | row :: rs' =>
      x <- grid_get b row column_i0 ;
      if String.eqb x symbol then Ok row
      else find_symbol b symbol column_i0 rs' inserted_row
  end.

Definition in_grid (b : Board) (row column : Z) : bool :=
  (0 <=? row) && (row <? rows b) && ((0 <=? column) && (column <? columns b)).

(** The body of the clearing loops of [BombPiece.insert]. *)
Definition clear_target (inserted_row column_i0 row : Z) (b : Board)
  (column : Z) : result Board :=
  let target_row := inserted_row + row in
  let target_column := column_i0 + column in
  if in_grid b target_row target_column
  then grid_set b target_row target_column blank
  else Ok b.

Definition detonate (b : Board) (inserted_row column_i0 : Z) : result Board :=
  for_each (py_range (-1) 2)
    (fun b' row =>
       for_each (py_range (-1) 2) (clear_target inserted_row column_i0 row) b')
    b.

(** [BombPiece.insert] before decoration. *)
Definition BombPiece_insert_undecorated (b : Board) (column : Z)
  : result (Board * bool) :=
  '(b1, inserted) <- Piece_insert "B" b column ;
  if negb inserted then Ok (b1, false)
  else
    let column_i0 := column - 1 in
    inserted_row <-
      find_symbol b1 "B" column_i0 (py_range_down (rows b1 - 1)) (-1) ;
    b2 <- detonate b1 inserted_row column_i0 ;
    Ok (b2, true).

Definition BombPiece_insert : Board -> Z -> result (Board * bool) :=
  gravity_decorator BombPiece_insert_undecorated.

(** The mirrored position of [TeleportPiece.insert]. The source computes
    [int(2 * ((rows - 1) / 2) - inserted_row)] in floating point; halving and
    doubling an integer below 2^53 is exact, so the value is the integer
    [(rows - 1) - inserted_row]. *)
Definition mirrored (size index : Z) : Z := (size - 1) - index.

(** [TeleportPiece.insert] before decoration. *)
Definition TeleportPiece_insert_undecorated (b : Board) (column : Z)
  : result (Board * bool) :=
  '(b1, inserted) <- Piece_insert "T" b column ;
  if negb inserted then Ok (b1, false)
  else
    let column_i0 := column - 1 in
    inserted_row <-
      find_symbol b1 "T" column_i0 (py_range_down (rows b1 - 1)) (-1) ;
    b2 <- grid_set b1 inserted_row column_i0 blank ;
    let mirrored_row := mirrored (rows b2) inserted_row in
    let mirrored_column := mirrored (columns b2) column_i0 in
    '(b3, symbol_to_teleport) <-
      (if in_grid b2 mirrored_row mirrored_column then
         t <- grid_get b2 mirrored_row mirrored_column ;
         if negb (String.eqb t blank) then
           b' <- grid_set b2 mirrored_row mirrored_column blank ;
           Ok (b', Some t)
         else Ok (b2, None)
       else Ok (b2, None)) ;
    match symbol_to_teleport with
    | Some s =>
        '(b4, _) <- insert_scan b3 s column_i0 (py_range_down (rows b3 - 1)) ;
        Ok (b4, true)
    | None => Ok (b3, true)
    end.

Definition TeleportPiece_insert : Board -> Z -> result (Board * bool) :=
  gravity_decorator TeleportPiece_insert_undecorated.

(** [piece.insert(board, column)], dispatched on the class of the piece. *)
Definition insert (p : Piece) : Board -> Z -> result (Board * bool) :=
  match p with
  | StandardPiece s => Piece_insert s
  | BombPiece => BombPiece_insert
  | TeleportPiece => TeleportPiece_insert
  end.

(** The board after a list of insertions, failed ones included. *)
Fixpoint insert_all (b : Board) (moves : list (Piece * Z)) : result Board :=
  match moves with
  | [] => Ok b
  | (p, column) :: moves' =>
      '(b', _) <- insert p b column ; insert_all b' moves'
  end.

(** ** Players *)

Record Player : Type := mkPlayer {
  name : string;
  symbol : string;
  pieces : list Piece
}.

(** The piece one iteration of [Player.add_piece] creates. *)
Definition new_piece (symbol : string) : Piece :=
  if String.eqb symbol "B" then BombPiece
  else if String.eqb symbol "T" then TeleportPiece
  else StandardPiece symbol.

(** [self.pieces.append(piece)] *)
Definition append_piece (p : Player) (q : Piece) : Player :=
  mkPlayer (name p) (symbol p) (pieces p ++ [q])%list.

(** [Player.add_piece] *)
Definition add_piece (p : Player) (symbol : string) (quantity : Z) : Player :=
  fold_left (fun p' _ => append_piece p' (new_piece symbol))
    (py_range 0 quantity) p.

(** The search of [Player.choose_piece]: the first piece with the chosen
    symbol is popped from the list. *)
Fixpoint pop_symbol (chosen : string) (ps : list Piece)
  : option (Piece * list Piece) :=
  match ps with
  | [] => None
  | q :: ps' =>
      if String.eqb (piece_symbol q) chosen then Some (q, ps')
      else match pop_symbol chosen ps' with
           | Some (removed_piece, rest) => Some (removed_piece, q :: rest)
           | None => None
           end
  end.

(** [Player.choose_piece]. Reading and splitting the line is left to the
    caller: [selection] is [None] for a line that is not a symbol and an
    integer, and the two tokens otherwise. The result is the player after the
    call and the returned list, [None] for Python's [None]. *)
Definition choose_piece (p : Player) (selection : option (string * Z))
  : Player * option (Piece * Z) :=
  match selection with
  | None => (p, None)
  | Some (chosen, column) =>
      match pop_symbol chosen (pieces p) with
      | Some (removed_piece, rest) =>
          (mkPlayer (name p) (symbol p) rest, Some (removed_piece, column))
      | None => (p, None)
      end
  end.

(** ** Game *)

(** [self.current_player] is one of the two objects of [self.players]. *)
Inductive seat : Type := First | Second.

Record Game : Type := mkGame {
  board : Board;
  player1 : Player;
  player2 : Player;
  current_player : seat
}.

Definition other (s : seat) : seat :=
  match s with First => Second | Second => First end.

Definition player_at (g : Game) (s : seat) : Player :=
  match s with First => player1 g | Second => player2 g end.

Definition with_player (g : Game) (s : seat) (p : Player) : Game :=
  match s with
  | First => mkGame (board g) p (player2 g) (current_player g)
  | Second => mkGame (board g) (player1 g) p (current_player g)
  end.

Definition with_board (g : Game) (b : Board) : Game :=
  mkGame b (player1 g) (player2 g) (current_player g).

Definition with_current (g : Game) (s : seat) : Game :=
  mkGame (board g) (player1 g) (player2 g) s.

(** [Game.__init__] and [Game.setup], from the two accepted input lines
    already split into name and symbol. *)
Definition setup (rows columns : Z) (splitp1 splitp2 : string * string)
  : Game :=
  let player1 := mkPlayer (fst splitp1) (snd splitp1) [] in
  let player2 := mkPlayer (fst splitp2) (snd splitp2) [] in
  let total := rows * columns in
  let teleport_total := total / 10 in
  let bomb_total := total / 20 in
  let quantityp2 := total / 2 in
  let quantityp1 := total / 2 in
  let quantityp1 :=
    if negb (total mod 2 =? 0) then quantityp1 + 1 else quantityp1 in
  let player1 := add_piece player1 (snd splitp1) quantityp1 in
  let player1 := add_piece player1 "T" teleport_total in
  let player1 := add_piece player1 "B" bomb_total in
  let player2 := add_piece player2 (snd splitp2) quantityp2 in
  let player2 := add_piece player2 "T" teleport_total in
  let player2 := add_piece player2 "B" bomb_total in
  mkGame (Board_init rows columns) player1 player2 First.

(** ** Win checks *)

(** The win checks of [Game.begin] only read the grid. The model records the
    subscripts of every read, in order, next to the result. *)
Definition traced (A : Type) : Type := (list (Z * Z) * result A)%type.

Definition tret {A} (a : A) : traced A := ([], Ok a).

Definition tbind {A B} (m : traced A) (k : A -> traced B) : traced B :=
  match m with
  | (t, Ok a) => let '(t', r) := k a in ((t ++ t')%list, r)
  | (t, IndexError) => (t, IndexError)
  | (t, OutOfFuel) => (t, OutOfFuel)
  end.

Notation "x <~ m ; k" := (tbind m (fun x => k))
  (at level 20, m at level 100, k at level 200, only parsing).
Notation "' pat <~ m ; k" := (tbind m (fun x => match x with pat => k end))
  (at level 20, pat pattern, m at level 100, k at level 200, only parsing).

Definition untraced {A} (m : result A) : traced A := ([], m).

(** [self.board.grid[row][column]], recorded. *)
Definition grid_read (b : Board) (row column : Z) : traced string :=
  ([(row, column)], grid_get b row column).

(** The search for the inserted row in [Game.begin], top row first. *)
Fixpoint find_inserted_row (b : Board) (symbol : string) (column_i0 : Z)
  (rs : list Z) (inserted_row : Z) : traced Z :=
  match rs with
  | [] => tret inserted_row
  | row :: rs' =>
      x <~ grid_read b row column_i0 ;
      if String.eqb x symbol then tret row
      else find_inserted_row b symbol column_i0 rs' inserted_row
  end.

(** Every scanning loop of the win checks tests, before it reads a slot, the
    bound on the side it walks towards and only that one: [i >= 0] where the
    index decreases, [i < size] where it increases, nothing where it stays. *)
Definition within (d i size : Z) : bool :=
  if d <? 0 then 0 <=? i else if 0 <? d then i <? size else true.

Definition ahead (b : Board) (dr dc row column : Z) : bool :=
  within dr row (rows b) && within dc column (columns b).

(** One [while] loop of the current player's check: from ([row], [column])
    in steps of ([dr], [dc]) while the slot holds the symbol. *)
Fixpoint extend (fuel : nat) (b : Board) (symbol : string) (dr dc : Z)
  (row column counter : Z) : traced Z :=
  match fuel with
  | O => ([], OutOfFuel)
  | S fuel' =>
      if ahead b dr dc row column then
        x <~ grid_read b row column ;
        if String.eqb x symbol
        then extend fuel' b symbol dr dc (row + dr) (column + dc) (counter + 1)
        else tret counter
      else tret counter
  end.

(** No loop of the check runs for more iterations than the board has rows
    and columns ([extend_within]). *)
Definition extend_fuel (b : Board) : nat := S (Z.to_nat (rows b + columns b)).

(** The current player's check, anchored at the inserted row and column.
    Its eight loops in the order of the source: left and right along the
    row, up-left and down-right along the "\" diagonal, up-right and
    down-left along the "/" diagonal, up and down along the column. The
    second loop of each pair goes on from the counter of the first. *)
Definition current_player_check (b : Board) (symbol : string)
  (inserted_row column_i0 : Z) : traced bool :=
  let loop := extend (extend_fuel b) b symbol in
  counter_h <~ loop 0 (-1) inserted_row (column_i0 + -1) 1 ;
  counter_h <~ loop 0 1 inserted_row (column_i0 + 1) counter_h ;
  let current_player_wins := counter_h >=? 4 in
  counter_d_backslash <~
    loop (-1) (-1) (inserted_row - 1) (column_i0 - 1) 1 ;
  counter_d_backslash <~
    loop 1 1 (inserted_row + 1) (column_i0 + 1) counter_d_backslash ;
  counter_d_slash <~ loop (-1) 1 (inserted_row - 1) (column_i0 + 1) 1 ;
  counter_d_slash <~
    loop 1 (-1) (inserted_row + 1) (column_i0 - 1) counter_d_slash ;
  let current_player_wins :=
    current_player_wins || (counter_d_backslash >=? 4) in
  let current_player_wins :=
    current_player_wins || (counter_d_slash >=? 4) in
  counter_v <~ loop (-1) 0 (inserted_row - 1) column_i0 1 ;
  counter_v <~ loop 1 0 (inserted_row + 1) column_i0 counter_v ;
  tret (current_player_wins || (counter_v >=? 4)).

(** One [for x in range(1, 4)] loop of the other player's check: the slots
    at [x] steps of ([dr], [dc]) from ([row], [column]), until one is off the
    board or holds something else. *)
Fixpoint run_from (b : Board) (symbol : string) (dr dc row column : Z)
  (xs : list Z) (count : Z) : traced Z :=
  match xs with
  | [] => tret count
  | x :: xs' =>
      if ahead b dr dc (row + x * dr) (column + x * dc) then
        v <~ grid_read b (row + x * dr) (column + x * dc) ;
        if String.eqb v symbol
        then run_from b symbol dr dc row column xs' (count + 1)
        else tret count
      else tret count
  end.

(** The body of the other player's check at one slot; [true] when it sets
    [otherplayer_wins] and breaks. *)
Definition check_slot (b : Board) (otherplayer_symbol : string)
  (row column : Z) : traced bool :=
  v <~ grid_read b row column ;
  if String.eqb v otherplayer_symbol then
    let run := fun dr dc =>
      run_from b otherplayer_symbol dr dc row column (py_range 1 4) 1 in
    horizontal_count <~ run 0 1 ;
    if horizontal_count >=? 4 then tret true
    else
      vertical_count <~ run 1 0 ;
      if vertical_count >=? 4 then tret true
      else
        bottom_right <~ run 1 1 ;
        if bottom_right >=? 4 then tret true
        else
          bottom_left <~ run 1 (-1) ;
          tret (bottom_left >=? 4)
  else tret false.

Fixpoint check_row (b : Board) (otherplayer_symbol : string) (row : Z)
  (cs : list Z) : traced bool :=
  match cs with
  | [] => tret false
  | column :: cs' =>
      w <~ check_slot b otherplayer_symbol row column ;
      if w then tret true else check_row b otherplayer_symbol row cs'
  end.

Fixpoint check_rows (b : Board) (otherplayer_symbol : string) (rs : list Z)
  : traced bool :=
  match rs with
  | [] => tret false
  | row :: rs' =>
      w <~ check_row b otherplayer_symbol row (py_range 0 (columns b)) ;
      if w then tret true else check_rows b otherplayer_symbol rs'
  end.

(** The other player's check: every slot of the board, row by row. *)
Definition otherplayer_check (b : Board) (otherplayer_symbol : string)
  : traced bool :=
  check_rows b otherplayer_symbol (py_range 0 (rows b)).

(** ** One turn *)

(** What an iteration of the loop of [Game.begin] announces: nothing (the
    game goes on), "<name> wins!", or "It was a draw!". *)
Inductive Outcome : Type :=
| InProgress
| Win (winner : string)
| Draw.

Definition board_is_full (b : Board) : bool :=
  forallb (fun row => forallb (fun slot => negb (String.eqb slot blank)) row)
    (grid b).

(** The end of an iteration, from the two win flags on. *)
Definition conclude (g : Game) (current_player_wins otherplayer_wins : bool)
  : Game * Outcome :=
  let current := player_at g (current_player g) in
  if current_player_wins && otherplayer_wins then (g, Draw)
  else if current_player_wins then (g, Win (name current))
  else if otherplayer_wins then (g, Win (name current))
  else
    let no_more_pieces :=
      (length (pieces (player1 g)) =? 0)%nat
      && (length (pieces (player2 g)) =? 0)%nat in
    if board_is_full (board g) || no_more_pieces then (g, Draw)
    else (with_current g (other (current_player g)), InProgress).

(** One iteration of the [while playing] loop of [Game.begin]. [selection]
    is the line [choose_piece] reads, if the iteration gets to read one. *)
Definition turn (g : Game) (selection : option (string * Z))
  : traced (Game * Outcome) :=
  let otherplayer := other (current_player g) in
  let otherplayer_symbol := symbol (player_at g otherplayer) in
  if (length (pieces (player_at g (current_player g))) =? 0)%nat then
    tret (with_current g otherplayer, InProgress)
  else
    let '(chooser, userlist) :=
      choose_piece (player_at g (current_player g)) selection in
    let g := with_player g (current_player g) chooser in
    match userlist with
    | None => tret (g, InProgress)
    | Some (piece, column) =>
        let column_i0 := column - 1 in
        '(b, insert_success) <~ untraced (insert piece (board g) column) ;
        let g := with_board g b in
        if negb insert_success then tret (g, InProgress)
        else
          inserted_row <~
            find_inserted_row b (piece_symbol piece) column_i0
              (py_range 0 (rows b)) (-1) ;
          current_player_wins <~
            current_player_check b (piece_symbol piece) inserted_row
              column_i0 ;
          otherplayer_wins <~ otherplayer_check b otherplayer_symbol ;
          tret (conclude g current_player_wins otherplayer_wins)
    end.

(** The turns of a game for a list of input lines, stopping at the first
    announcement. *)
Fixpoint turns (g : Game) (lines : list (string * Z))
  : traced (Game * Outcome) :=
  match lines with
  | [] => tret (g, InProgress)
  | line :: lines' =>
      '(g', outcome) <~ turn g (Some line) ;
      match outcome with
      | InProgress => turns g' lines'
      | _ => tret (g', outcome)
      end
  end.

(** ** Vocabulary of the properties *)

(** The grid has [rows] rows of [columns] slots, as [Board.__init__] builds
    it. *)
Definition well_formed (b : Board) : Prop :=
  length (grid b) = Z.to_nat (rows b)
  /\ Forall (fun r => length r = Z.to_nat (columns b)) (grid b).

(** The slot at a position of the board, and the board with one slot
    replaced; both for positions on the board. *)
Definition cell (b : Board) (row column : Z) : string :=
  default blank (r ← grid b !! Z.to_nat row; r !! Z.to_nat column).

Definition put (b : Board) (row column : Z) (v : string) : Board :=
  mkBoard (rows b) (columns b)
    (alter (fun r => <[Z.to_nat column := v]> r) (Z.to_nat row) (grid b)).

(** An occupied slot with a blank slot directly beneath it. *)
Definition floating (b : Board) (row column : Z) : bool :=
  occupied (cell b row column) && negb (occupied (cell b (row + 1) column)).

(** No piece of the board floats. *)
Definition no_floating (b : Board) : Prop :=
  forall row column,
    0 <= row -> row + 1 < rows b -> 0 <= column < columns b ->
    floating b row column = false.

Definition count_occupied (cells : list string) : nat :=
  length (List.filter occupied cells).

(** The number of occupied slots of the board. *)
Definition total_occupied (b : Board) : nat :=
  sum_list (map count_occupied (grid b)).

(** The same fall measured from the bottom of the board: for each occupied
    slot, the number of rows beneath it. *)
Fixpoint rows_above_floor (g : list (list string)) : nat :=
  match g with
  | [] => 0
  | r :: below =>
      (count_occupied r * length below + rows_above_floor below)%nat
  end.

Definition height_above_floor (b : Board) : nat := rows_above_floor (grid b).

(** The lowest blank row of a column, if it has one. *)
Definition lowest_blank (b : Board) (column_i0 : Z) : option Z :=
  List.find (fun row => String.eqb (cell b row column_i0) blank)
    (py_range_down (rows b - 1)).

(** Chebyshev distance at most one. *)
Definition adjacent (row column row' column' : Z) : bool :=
  (Z.abs (row' - row) <=? 1) && (Z.abs (column' - column) <=? 1).

(** An occupied slot counts for one. *)
Definition weight (x : string) : nat := if occupied x then 1%nat else 0%nat.

(** The board after the piece at a position moved down one row. *)
Definition move (b : Board) (row column : Z) : Board :=
  put (put b (row + 1) column (cell b row column)) row column blank.

(** What a part of a sweep does to the board [b] and the flag [moved]: the
    shape and the number of pieces stay, and either nothing changed or the
    flag is set and the height above support went down. *)
Definition settles_to (b : Board) (moved : bool) (b' : Board) (moved' : bool)
  : Prop :=
  well_formed b' /\ rows b' = rows b /\ columns b' = columns b
  /\ total_occupied b' = total_occupied b
  /\ ((b' = b /\ moved' = moved)
      \/ (moved' = true
          /\ (height_above_support b' < height_above_support b)%nat)).

(** What [Piece.insert] does to a column on the board: the symbol goes to
    the lowest blank row, if there is one. *)
Definition place (b : Board) (symbol : string) (column_i0 : Z) : Board * bool :=
  match lowest_blank b column_i0 with
  | Some row => (put b row column_i0 symbol, true)
  | None => (b, false)
  end.

(** The row a search from the bottom for a symbol finds in a column. *)
Definition lowest_symbol (b : Board) (symbol : string) (column_i0 : Z) : Z :=
  match List.find (fun row => String.eqb (cell b row column_i0) symbol)
          (py_range_down (rows b - 1)) with
  | Some row => row
  | None => -1
  end.

(** What [TeleportPiece.insert] does once its own symbol is removed: the
    symbol at the mirrored position, if there is one, leaves its slot and is
    inserted in the column of the teleport. *)
Definition swap_from (b : Board) (inserted_row column_i0 : Z) : Board :=
  let mirrored_row := mirrored (rows b) inserted_row in
  let mirrored_column := mirrored (columns b) column_i0 in
  if occupied (cell b mirrored_row mirrored_column) then
    fst (place (put b mirrored_row mirrored_column blank)
           (cell b mirrored_row mirrored_column) column_i0)
  else b.

(** A traced computation returns a value that satisfies [Q], after reads
    whose subscripts are all at least [lo_row] and [lo_column] and below the
    size of the board. *)
Definition reads_within (lo_row lo_column : Z) (b : Board) {A : Type}
  (Q : A -> Prop) (m : traced A) : Prop :=
  exists t a,
    m = (t, Ok a)
    /\ Forall (fun p => (lo_row <= fst p < rows b)
                        /\ (lo_column <= snd p < columns b)) t
    /\ Q a.

(** The side of an index that the guard of a scanning loop does not test:
    it is in range at the start and the loop walks away from it. *)
Definition safe (lo d i size : Z) : Prop :=
  (d < 0 -> i < size) /\ (0 < d -> lo <= i) /\ (d = 0 -> lo <= i < size).

(** The iterations a scanning loop has left before it walks off the board. *)
Definition remaining (b : Board) (dr dc row column : Z) : Z :=
  if dr <? 0 then row + 1
  else if 0 <? dr then rows b - row
  else if dc <? 0 then column + 1
  else columns b - column.

(** ** Sample games and boards *)

(** A game on the usual board of six rows and seven columns. *)
Definition sample_game : Game := setup 6 7 ("ann", "X") ("bob", "O").

(** Lines after which ann's teleport, played last, moves one of bob's
    pieces onto three others of his. *)
Definition cross_turn_lines : list (string * Z) :=
  [("X", 7); ("O", 1); ("X", 7); ("O", 1); ("X", 4); ("O", 1); ("X", 5);
   ("O", 7); ("T", 1)].

(** Lines after which bob's bomb has lined up four of his own pieces
    without an announcement, and ann is about to complete a column. *)
Definition draw_lines : list (string * Z) :=
  [("X", 4); ("O", 1); ("X", 4); ("O", 2); ("X", 7); ("O", 3); ("X", 7);
   ("O", 4); ("X", 7); ("B", 5)].

Definition draw_game : Game :=
  match snd (turns sample_game draw_lines) with
  | Ok (g, _) => g
  | _ => sample_game
  end.


(** The board at the end of [cross_turn_lines]. *)
Definition cross_turn_board : Board :=
  mkBoard 6 7
    [[" "; " "; " "; " "; " "; " "; " "];
     [" "; " "; " "; " "; " "; " "; " "];
     ["O"; " "; " "; " "; " "; " "; " "];
     ["O"; " "; " "; " "; " "; " "; " "];
     ["O"; " "; " "; " "; " "; " "; "X"];
     ["O"; " "; " "; "X"; "X"; " "; "X"]].

(** A game on two rows and two columns, after ann and bob both played the
    first column. *)
Definition full_column_game : Game :=
  mkGame (mkBoard 2 2 [["O"; " "]; ["X"; " "]])
    (mkPlayer "ann" "X" [StandardPiece "X"])
    (mkPlayer "bob" "O" [StandardPiece "O"]) First.

(** A board with a piece in the air. *)
Definition floating_board : Board :=
  mkBoard 3 2 [["X"; " "]; [" "; "O"]; [" "; " "]].

(** Boards on which a standard piece with the symbol of the bomb, or of the
    teleport, was inserted before others. *)
Definition marked_bomb_moves : list (Piece * Z) :=
  [(StandardPiece "B", 2); (StandardPiece "X", 1); (StandardPiece "O", 1);
   (StandardPiece "X", 1)].

Definition marked_bomb_board : Board :=
  mkBoard 4 3
    [[" "; " "; " "]; ["X"; " "; " "]; ["O"; " "; " "]; ["X"; "B"; " "]].

Definition marked_teleport_moves : list (Piece * Z) :=
  [(StandardPiece "T", 1); (StandardPiece "X", 3); (StandardPiece "O", 3);
   (StandardPiece "X", 3)].

Definition marked_teleport_board : Board :=
  mkBoard 4 3
    [[" "; " "; " "]; [" "; " "; "X"]; [" "; " "; "O"]; ["T"; " "; "X"]].

(** One board is obtained from another by pieces moving down one slot at a
    time, each into the blank slot beneath it. *)
Inductive falls : Board -> Board -> Prop :=
| falls_refl (b : Board) : falls b b
| falls_move (b b' : Board) (row column : Z) :
    well_formed b -> 0 <= row -> row + 1 < rows b ->
    0 <= column < columns b -> floating b row column = true ->
    falls (move b row column) b' -> falls b b'.

(** A column after its pieces fell: as many blanks as it had, then its
    pieces in the order they had. *)
Definition settled_column (cells : list string) : list string :=
  (repeat blank (count_blank cells) ++ List.filter occupied cells)%list.

(** ** The whole loop of a game *)

(** The [while playing] loop of [Game.begin], for the lines typed at the
    prompts of [choose_piece] ([None] for a line that is not a symbol and an
    integer). An iteration that finds the current player without pieces
    reads no line. The source puts no bound on the loop: the model stops
    with [OutOfFuel] after [fuel] iterations. It returns [InProgress] when
    the loop is at a prompt and no line is left. *)
Fixpoint play (fuel : nat) (g : Game) (lines : list (option (string * Z)))
  : traced (Game * Outcome) :=
  match fuel with
  | O => ([], OutOfFuel)
  | S fuel' =>
      if (length (pieces (player_at g (current_player g))) =? 0)%nat then
        '(g', _) <~ turn g None ; play fuel' g' lines
      else
        match lines with
        | [] => tret (g, InProgress)
        | line :: lines' =>
            '(g', outcome) <~ turn g line ;
            match outcome with
            | InProgress => play fuel' g' lines'
            | _ => tret (g', outcome)
            end
        end
  end.

(** Every slot of the board satisfies [P]. *)
Definition all_cells (P : string -> Prop) (b : Board) : Prop :=
  forall i j, in_grid b i j = true -> P (cell b i j).

(** Neither the symbol of the bomb nor that of the teleport. *)
Definition plain (x : string) : Prop := x <> "B" /\ x <> "T".

(** A piece as [Player.add_piece] makes them: a standard piece never has the
    symbol of the bomb or of the teleport. *)
Definition proper (q : Piece) : Prop := q = new_piece (piece_symbol q).

(** A game as play keeps it: a well formed board without floating pieces
    and without "B" or "T", and collections of pieces made by [add_piece]. *)
Definition sound (g : Game) : Prop :=
  well_formed (board g) /\ no_floating (board g)
  /\ all_cells plain (board g)
  /\ Forall proper (pieces (player1 g))
  /\ Forall proper (pieces (player2 g)).

(** What every turn keeps: the size of the board, the names and symbols of
    the players and the collection of the player who does not move; the
    mover loses at most the piece that was chosen. *)
Definition keeps_frame (g g' : Game) : Prop :=
  rows (board g') = rows (board g) /\ columns (board g') = columns (board g)
  /\ name (player1 g') = name (player1 g)
  /\ name (player2 g') = name (player2 g)
  /\ symbol (player1 g') = symbol (player1 g)
  /\ symbol (player2 g') = symbol (player2 g)
  /\ pieces (player_at g' (other (current_player g)))
     = pieces (player_at g (other (current_player g)))
  /\ (length (pieces (player_at g' (current_player g)))
      <= length (pieces (player_at g (current_player g)))
      <= S (length (pieces (player_at g' (current_player g)))))%nat.

(** ** Lines of four *)

(** The slot is on the board and holds the symbol. *)
Definition holds (b : Board) (s : string) (row column : Z) : Prop :=
  in_grid b row column = true /\ cell b row column = s.

(** The four directions of a line: along a row, down a column, down the
    "\" diagonal and down the "/" diagonal. *)
Definition directions : list (Z * Z) := [(0, 1); (1, 0); (1, 1); (1, -1)].

(** Four slots in a line from ([row], [column]) on, all with the symbol. *)
Definition line_of_four (b : Board) (s : string) (row column dr dc : Z)
  : Prop :=
  forall k, 0 <= k < 4 -> holds b s (row + k * dr) (column + k * dc).

Definition has_line (b : Board) (s : string) : Prop :=
  exists row column dr dc,
    In (dr, dc) directions /\ line_of_four b s row column dr dc.

(** A line of four of which ([row], [column]) is one of the slots. *)
Definition line_through (b : Board) (s : string) (row column : Z) : Prop :=
  exists r0 c0 dr dc k,
    In (dr, dc) directions /\ line_of_four b s r0 c0 dr dc
    /\ 0 <= k < 4 /\ row = r0 + k * dr /\ column = c0 + k * dc.

(** ** The prompts of [Game.setup] *)







(** ** [Board.__str__] *)

(** The line feed of Python's ["\n"]. *)
Definition newline : string := String (ascii_of_nat 10) EmptyString.

(** [str(n)] of an integer. *)
Definition str_int (n : Z) : string := NilZero.string_of_int (Z.to_int n).

Fixpoint spaces (n : nat) : string :=
  match n with
  | O => EmptyString
  | S n' => String " " (spaces n')
  end.

(** [s.center(width)] with the default fill character. CPython pads with
    [marg = width - len(s)] spaces, [marg / 2 + (marg & width & 1)] of them
    on the left. *)
Definition center (s : string) (width : nat) : string :=
  if (width <=? String.length s)%nat then s
  else
    let marg := (width - String.length s)%nat in
    let left :=
      (marg / 2 + (if Nat.odd marg && Nat.odd width then 1 else 0))%nat in
    spaces left ++ s ++ spaces (marg - left).

(** The characters below 256 that [str.isspace] accepts. *)
Definition is_space (c : ascii) : bool :=
  let n := nat_of_ascii c in
  ((9 <=? n) && (n <=? 13) || (28 <=? n) && (n <=? 32)
   || (n =? 133) || (n =? 160))%nat.

(** [s.rstrip()]. *)
Fixpoint rstrip (s : string) : string :=
  match s with
  | EmptyString => EmptyString
  | String c rest =>
      match rstrip rest with
      | EmptyString => if is_space c then EmptyString else String c EmptyString
      | stripped => String c stripped
      end
  end.

(** The loop that numbers the columns, from the string built so far. *)
Fixpoint number_columns (column_nums : list Z) (width : Z)
  (numbered_column : string) : string :=
  match column_nums with
  | [] => numbered_column
  | column_num :: rest =>
      let centered_string := center (str_int column_num) 3 in
      let numbered_column := numbered_column ++ centered_string in
      let numbered_column :=
        if column_num <? width then numbered_column ++ " "
        else numbered_column in
      number_columns rest width numbered_column
  end.

Definition numbered_column (b : Board) : string :=
  rstrip (number_columns (py_range 1 (columns b + 1)) (columns b) " ")
  ++ newline.

Definition horizontal_border (b : Board) : string :=
  fold_left (fun border _ => border ++ "---+") (py_range 0 (columns b)) "+"
  ++ newline.

Definition middle_line (row : list string) : string :=
  fold_left (fun line space => line ++ " " ++ space ++ " |") row "|"
  ++ newline.

Definition display (b : Board) : string :=
  fold_left
    (fun shown row => (shown ++ horizontal_border b) ++ middle_line row)
    (grid b) EmptyString
  ++ horizontal_border b.

(** [Board.__str__]. *)
Definition Board_str (b : Board) : string := numbered_column b ++ display b.

(** The strings of a list, one after the other. *)
Definition cat (parts : list string) : string :=
  fold_right String.append EmptyString parts.

(** The width of a line of the display, its line feed included. *)
Definition line_width (b : Board) : nat := (4 * Z.to_nat (columns b) + 2)%nat.

(** ** [Player.__str__] *)

(** One iteration of the counting loop on the dictionary [counter]. *)
Definition count_piece (counter : gmap string Z) (piece : Piece)
  : gmap string Z :=
  let symbol := piece_symbol piece in
  match counter !! symbol with
  | Some n => <[symbol := n + 1]> counter
  | None => <[symbol := 1]> counter
  end.

Definition count_pieces (ps : list Piece) : gmap string Z :=
  fold_left count_piece ps ∅.

(** The order of Python on strings: character by character. *)
Definition string_le (a b : string) : Prop := String.leb a b = true.

Definition string_le_dec (a b : string) : Decision (string_le a b) :=
  decide (String.leb a b = true).

(** [sorted(counter.keys())]. *)
Definition sorted_keys (counter : gmap string Z) : list string :=
  @merge_sort string string_le string_le_dec (map fst (map_to_list counter)).

(** [Player.__str__]. *)
Definition Player_str (p : Player) : string :=
  let counter := count_pieces (pieces p) in
  let strings :=
    map (fun key => key ++ ": " ++ str_int (counter !!! key))
      (sorted_keys counter) in
  name p ++ "'s pieces -> " ++ String.concat ", " strings.

(** The number of pieces with a symbol. *)
Definition held (s : string) (ps : list Piece) : Z :=
  Z.of_nat (length (List.filter (fun q => String.eqb (piece_symbol q) s) ps)).

(** ** Subscripts on a well formed board *)

Lemma py_index_in (len : nat) (i : Z) :
  0 <= i < Z.of_nat len -> py_index len i = Some (Z.to_nat i).
Proof.
  intros H. unfold py_index.
  destruct (0 <=? i) eqn:E1; [|lia].
  destruct (i <? Z.of_nat len) eqn:E2; [|lia]. reflexivity.
Qed.

Lemma list_getitem_in {A} (l : list A) (i : Z) (x : A) :
  0 <= i -> l !! Z.to_nat i = Some x -> list_getitem l i = Ok x.
Proof.
  intros H0 H. unfold list_getitem.
  rewrite py_index_in.
  - rewrite H. reflexivity.
  - apply lookup_lt_Some in H. lia.
Qed.

Lemma list_setitem_in {A} (l : list A) (i : Z) (x : A) :
  0 <= i < Z.of_nat (length l) ->
  list_setitem l i x = Ok (<[Z.to_nat i := x]> l).
Proof.
  intros H. unfold list_setitem. rewrite py_index_in by lia. reflexivity.
Qed.

Lemma in_grid_bounds (b : Board) (row column : Z) :
  in_grid b row column = true <->
  (0 <= row < rows b) /\ (0 <= column < columns b).
Proof. unfold in_grid. lia. Qed.

(** The row and the slot a position on the board names. *)
Lemma on_board_lookup (b : Board) (row column : Z) :
  well_formed b -> in_grid b row column = true ->
  exists r, grid b !! Z.to_nat row = Some r
            /\ length r = Z.to_nat (columns b)
            /\ r !! Z.to_nat column = Some (cell b row column).
Proof.
  intros [Hlen Hrows] Hin. apply in_grid_bounds in Hin.
  destruct (lookup_lt_is_Some_2 (grid b) (Z.to_nat row)) as [r Hr]; [lia|].
  assert (Hr' : length r = Z.to_nat (columns b)).
  { rewrite Forall_lookup in Hrows. exact (Hrows _ _ Hr). }
  destruct (lookup_lt_is_Some_2 r (Z.to_nat column)) as [x Hx]; [lia|].
  exists r. split; [exact Hr|]. split; [exact Hr'|].
  unfold cell. rewrite Hr. simpl. rewrite Hx. reflexivity.
Qed.

Lemma grid_get_ok (b : Board) (row column : Z) :
  well_formed b -> in_grid b row column = true ->
  grid_get b row column = Ok (cell b row column).
Proof.
  intros Hwf Hin. destruct (on_board_lookup b row column Hwf Hin) as (r & Hr & _ & Hx).
  apply in_grid_bounds in Hin. unfold grid_get.
  rewrite (list_getitem_in _ _ r) by (lia || exact Hr). simpl.
  apply list_getitem_in; [lia | exact Hx].
Qed.

Lemma grid_set_ok (b : Board) (row column : Z) (v : string) :
  well_formed b -> in_grid b row column = true ->
  grid_set b row column v = Ok (put b row column v).
Proof.
  intros Hwf Hin. destruct (on_board_lookup b row column Hwf Hin) as (r & Hr & Hlen & _).
  apply in_grid_bounds in Hin. unfold grid_set.
  rewrite (list_getitem_in _ _ r) by (lia || exact Hr). simpl.
  rewrite list_setitem_in by lia. simpl.
  rewrite list_setitem_in by (destruct Hwf; lia). simpl.
  unfold put. do 2 f_equal.
  apply list_eq. intros i. rewrite list_lookup_insert, list_lookup_alter.
  destruct (decide (Z.to_nat row = i)) as [<-|]; simpl.
  - rewrite Hr. simpl. rewrite decide_True; [reflexivity|].
    split; [reflexivity|]. apply lookup_lt_Some in Hr. exact Hr.
  - rewrite decide_False; [reflexivity|]. intros [? _]. congruence.
Qed.

Lemma put_well_formed (b : Board) (row column : Z) (v : string) :
  well_formed b -> well_formed (put b row column v).
Proof.
  intros [Hlen Hrows]. split; simpl.
  - rewrite length_alter. exact Hlen.
  - rewrite Forall_lookup in *. intros i r Hr.
    rewrite list_lookup_alter in Hr.
    destruct (decide (Z.to_nat row = i)) as [<-|].
    + destruct (grid b !! Z.to_nat row) as [r0|] eqn:E; simpl in Hr; [|discriminate].
      injection Hr as <-. rewrite length_insert. exact (Hrows _ _ E).
    + exact (Hrows _ _ Hr).
Qed.

Lemma put_rows (b : Board) (row column : Z) (v : string) :
  rows (put b row column v) = rows b.
Proof. reflexivity. Qed.

Lemma put_columns (b : Board) (row column : Z) (v : string) :
  columns (put b row column v) = columns b.
Proof. reflexivity. Qed.

Lemma in_grid_put (b : Board) (row column : Z) (v : string) (row' column' : Z) :
  in_grid (put b row column v) row' column' = in_grid b row' column'.
Proof. reflexivity. Qed.

(** Reading a slot of the board after one slot was replaced. *)
Lemma cell_put (b : Board) (row column : Z) (v : string) (row' column' : Z) :
  well_formed b -> in_grid b row column = true -> 0 <= row' -> 0 <= column' ->
  cell (put b row column v) row' column'
  = if (row' =? row) && (column' =? column) then v else cell b row' column'.
Proof.
  intros Hwf Hin Hr' Hc'.
  destruct (on_board_lookup b row column Hwf Hin) as (r & Hr & Hlen & _).
  apply in_grid_bounds in Hin. unfold cell, put. simpl.
  rewrite list_lookup_alter.
  destruct (Z.eqb_spec row' row) as [->|Hne]; simpl.
  - rewrite decide_True by reflexivity. rewrite Hr. simpl.
    rewrite list_lookup_insert.
    destruct (Z.eqb_spec column' column) as [->|Hne].
    + rewrite decide_True; [reflexivity|]. split; [reflexivity|lia].
    + rewrite decide_False; [reflexivity|]. intros [? _]. lia.
  - rewrite decide_False by lia. reflexivity.
Qed.

Lemma cell_put_same (b : Board) (row column : Z) (v : string) :
  well_formed b -> in_grid b row column = true ->
  cell (put b row column v) row column = v.
Proof.
  intros Hwf Hin. pose proof Hin as Hb. apply in_grid_bounds in Hb.
  rewrite cell_put by (assumption || lia).
  rewrite !Z.eqb_refl. reflexivity.
Qed.

Lemma cell_put_other (b : Board) (row column : Z) (v : string) (row' column' : Z) :
  well_formed b -> in_grid b row column = true -> 0 <= row' -> 0 <= column' ->
  row' <> row \/ column' <> column ->
  cell (put b row column v) row' column' = cell b row' column'.
Proof.
  intros Hwf Hin Hr Hc Hne. rewrite cell_put by assumption.
  destruct (Z.eqb_spec row' row), (Z.eqb_spec column' column); simpl; try reflexivity.
  lia.
Qed.
(** ** Counting over columns and rows *)

Lemma column_cells_lookup (g : list (list string)) (c i : nat) :
  column_cells g c !! i = (fun r => default blank (r !! c)) <$> g !! i.
Proof. unfold column_cells. apply list_lookup_fmap. Qed.

Lemma column_cells_length (g : list (list string)) (c : nat) :
  length (column_cells g c) = length g.
Proof. unfold column_cells. apply length_map. Qed.

Lemma column_cells_cell (b : Board) (row column : Z) :
  well_formed b -> in_grid b row column = true ->
  column_cells (grid b) (Z.to_nat column) !! Z.to_nat row
  = Some (cell b row column).
Proof.
  intros Hwf Hin. destruct (on_board_lookup b row column Hwf Hin) as (r & Hr & _ & Hx).
  rewrite column_cells_lookup, Hr. simpl. rewrite Hx. reflexivity.
Qed.

(** Replacing a slot changes one column, at one place. *)
Lemma column_cells_put (b : Board) (row column : Z) (v : string) (c : nat) :
  well_formed b -> in_grid b row column = true ->
  column_cells (grid (put b row column v)) c
  = if decide (c = Z.to_nat column)
    then <[Z.to_nat row := v]> (column_cells (grid b) c)
    else column_cells (grid b) c.
Proof.
  intros Hwf Hin.
  destruct (on_board_lookup b row column Hwf Hin) as (r & Hr & Hlen & _).
  apply in_grid_bounds in Hin.
  apply list_eq. intros i. rewrite column_cells_lookup. simpl.
  rewrite list_lookup_alter.
  destruct (decide (c = Z.to_nat column)) as [->|Hc].
  - rewrite list_lookup_insert, column_cells_lookup.
    destruct (decide (Z.to_nat row = i)) as [<-|Hi].
    + rewrite Hr. simpl. rewrite list_lookup_insert_eq by lia.
      rewrite decide_True; [reflexivity|].
      split; [reflexivity|]. rewrite column_cells_length.
      destruct Hwf. lia.
    + rewrite decide_False; [reflexivity|]. intros [? _]. congruence.
  - rewrite column_cells_lookup.
    destruct (decide (Z.to_nat row = i)) as [<-|Hi]; [|reflexivity].
    rewrite Hr. simpl. rewrite list_lookup_insert_ne by congruence. reflexivity.
Qed.

Lemma count_blank_move (cells : list string) (r : nat) (x y : string) :
  cells !! r = Some x -> cells !! S r = Some y ->
  occupied x = true -> occupied y = false ->
  count_blank (<[r := blank]> (<[S r := x]> cells)) = count_blank cells.
Proof.
  revert r. induction cells as [|z cells IH]; intros r Hx Hy Ox Oy;
    [discriminate|].
  destruct r as [|r]; simpl in *.
  - injection Hx as ->. destruct cells as [|y' cells]; [discriminate|].
    simpl in *. injection Hy as ->. rewrite Ox, Oy. reflexivity.
  - rewrite (IH r Hx Hy Ox Oy). reflexivity.
Qed.

(** A piece that moves down one slot, into a blank, lowers the height of its
    column by one. *)
Lemma column_height_move (cells : list string) (r : nat) (x y : string) :
  cells !! r = Some x -> cells !! S r = Some y ->
  occupied x = true -> occupied y = false ->
  S (column_height (<[r := blank]> (<[S r := x]> cells))) = column_height cells.
Proof.
  revert r. induction cells as [|z cells IH]; intros r Hx Hy Ox Oy;
    [discriminate|].
  destruct r as [|r].
  - simpl in Hx. injection Hx as ->. destruct cells as [|y' cells]; [discriminate|].
    simpl in Hy. injection Hy as ->. simpl. rewrite Ox, Oy. simpl. lia.
  - simpl in Hx, Hy.
    change (<[S r := blank]> (<[S (S r) := x]> (z :: cells)))
      with (z :: <[r := blank]> (<[S r := x]> cells)).
    simpl. rewrite (count_blank_move cells r x y Hx Hy Ox Oy).
    rewrite <- (IH r Hx Hy Ox Oy). lia.
Qed.

Lemma sum_list_seq_change (f g : nat -> nat) (c n : nat) :
  (c < n)%nat -> (forall i, i <> c -> g i = f i) ->
  (sum_list (map g (seq 0 n)) + f c = sum_list (map f (seq 0 n)) + g c)%nat.
Proof.
  intros Hc Hfg. induction n as [|n IH]; [lia|].
  rewrite seq_S, !map_app, !sum_list_with_app. simpl.
  destruct (decide (c = n)) as [->|Hne].
  - assert (E : map g (seq 0 n) = map f (seq 0 n)).
    { apply map_ext_in. intros i Hi. apply in_seq in Hi. apply Hfg. lia. }
    rewrite E. lia.
  - rewrite (Hfg n) by congruence.
    assert (c < n)%nat by lia. specialize (IH H). lia.
Qed.

Lemma sum_list_alter (h : list string -> nat) (f : list string -> list string)
  (g : list (list string)) (n : nat) (r : list string) :
  g !! n = Some r ->
  (sum_list (map h (alter f n g)) + h r = sum_list (map h g) + h (f r))%nat.
Proof.
  revert n. induction g as [|r0 g IH]; intros n Hr; [discriminate|].
  destruct n as [|n]; simpl in *; unfold id in *.
  - injection Hr as ->. lia.
  - specialize (IH n Hr).
    change (list_alter f n g) with (alter f n g). lia.
Qed.

Lemma count_occupied_insert (r : list string) (c : nat) (old v : string) :
  r !! c = Some old ->
  (count_occupied (<[c := v]> r) + weight old
   = count_occupied r + weight v)%nat.
Proof.
  unfold count_occupied, weight.
  revert c. induction r as [|z r IH]; intros c Hc; [discriminate|].
  destruct c as [|c]; simpl in *.
  - injection Hc as ->. destruct (occupied old), (occupied v); simpl; lia.
  - specialize (IH c Hc). destruct (occupied z); simpl; lia.
Qed.

(** Replacing a slot changes the number of occupied slots by the difference
    between the new and the old content. *)
Lemma total_occupied_put (b : Board) (row column : Z) (v : string) :
  well_formed b -> in_grid b row column = true ->
  (total_occupied (put b row column v) + weight (cell b row column)
   = total_occupied b + weight v)%nat.
Proof.
  intros Hwf Hin. destruct (on_board_lookup b row column Hwf Hin) as (r & Hr & _ & Hx).
  unfold total_occupied, put. simpl.
  pose proof (sum_list_alter count_occupied
                (fun r => <[Z.to_nat column := v]> r) _ _ _ Hr) as H1.
  pose proof (count_occupied_insert r (Z.to_nat column) _ v Hx) as H2.
  simpl in H1. lia.
Qed.
(** ** One step of gravity *)

Lemma occupied_blank : occupied blank = false.
Proof. reflexivity. Qed.

Lemma occupied_eqb (x : string) : String.eqb x blank = negb (occupied x).
Proof. unfold occupied. rewrite negb_involutive. reflexivity. Qed.

Lemma floating_true (b : Board) (row column : Z) :
  floating b row column = true <->
  occupied (cell b row column) = true
  /\ occupied (cell b (row + 1) column) = false.
Proof.
  unfold floating. rewrite andb_true_iff, negb_true_iff. reflexivity.
Qed.

Lemma fall_spec (b : Board) (moved : bool) (row column : Z) :
  well_formed b -> 0 <= row -> row + 1 < rows b -> 0 <= column < columns b ->
  fall column (b, moved) row
  = Ok (if floating b row column then (move b row column, true)
        else (b, moved)).
Proof.
  intros Hwf Hr0 Hr1 Hc.
  assert (Hin : in_grid b row column = true) by (apply in_grid_bounds; lia).
  assert (Hin' : in_grid b (row + 1) column = true) by (apply in_grid_bounds; lia).
  unfold fall, floating. rewrite grid_get_ok by assumption. simpl.
  rewrite occupied_eqb, negb_involutive.
  destruct (occupied (cell b row column)); simpl; [|reflexivity].
  rewrite grid_get_ok by assumption. simpl. rewrite occupied_eqb.
  destruct (occupied (cell b (row + 1) column)); simpl; [reflexivity|].
  rewrite grid_set_ok by assumption. simpl.
  rewrite grid_set_ok by (try apply put_well_formed; assumption).
  reflexivity.
Qed.

Lemma move_well_formed (b : Board) (row column : Z) :
  well_formed b -> well_formed (move b row column).
Proof. intros H. unfold move. do 2 apply put_well_formed. exact H. Qed.

(** A move lowers the height above support of the board by exactly one. *)
Lemma move_height (b : Board) (row column : Z) :
  well_formed b -> 0 <= row -> row + 1 < rows b -> 0 <= column < columns b ->
  floating b row column = true ->
  S (height_above_support (move b row column)) = height_above_support b.
Proof.
  intros Hwf Hr0 Hr1 Hc Hfl. apply floating_true in Hfl as [Ox Oy].
  assert (Hin : in_grid b row column = true) by (apply in_grid_bounds; lia).
  assert (Hin' : in_grid b (row + 1) column = true) by (apply in_grid_bounds; lia).
  pose proof (put_well_formed b (row + 1) column (cell b row column) Hwf) as Hwf1.
  unfold height_above_support.
  change (columns (move b row column)) with (columns b).
  pose proof (sum_list_seq_change
    (fun c => column_height (column_cells (grid b) c))
    (fun c => column_height (column_cells (grid (move b row column)) c))
    (Z.to_nat column) (Z.to_nat (columns b))) as Hsum.
  cbv beta in Hsum.
  assert (Hcol : forall c,
    column_cells (grid (move b row column)) c
    = if decide (c = Z.to_nat column)
      then <[Z.to_nat row := blank]>
             (<[S (Z.to_nat row) := cell b row column]> (column_cells (grid b) c))
      else column_cells (grid b) c).
  { intros c. unfold move.
    rewrite column_cells_put by assumption.
    rewrite column_cells_put by assumption.
    replace (Z.to_nat (row + 1)) with (S (Z.to_nat row)) by lia.
    destruct (decide (c = Z.to_nat column)); reflexivity. }
  assert (Hlt : (Z.to_nat column < Z.to_nat (columns b))%nat) by lia.
  specialize (Hsum Hlt).
  rewrite (Hcol (Z.to_nat column)), decide_True in Hsum by reflexivity.
  pose proof (column_cells_cell b row column Hwf Hin) as Hx.
  pose proof (column_cells_cell b (row + 1) column Hwf Hin') as Hy.
  replace (Z.to_nat (row + 1)) with (S (Z.to_nat row)) in Hy by lia.
  pose proof (column_height_move _ _ _ _ Hx Hy Ox Oy) as Hmove.
  assert (Hother : forall i, i <> Z.to_nat column ->
    column_height (column_cells (grid (move b row column)) i)
    = column_height (column_cells (grid b) i)).
  { intros i Hi. rewrite (Hcol i), decide_False by exact Hi. reflexivity. }
  specialize (Hsum Hother). lia.
Qed.

(** A move keeps the number of occupied slots. *)
Lemma move_total_occupied (b : Board) (row column : Z) :
  well_formed b -> 0 <= row -> row + 1 < rows b -> 0 <= column < columns b ->
  floating b row column = true ->
  total_occupied (move b row column) = total_occupied b.
Proof.
  intros Hwf Hr0 Hr1 Hc Hfl. apply floating_true in Hfl as [Ox Oy].
  assert (Hin : in_grid b row column = true) by (apply in_grid_bounds; lia).
  assert (Hin' : in_grid b (row + 1) column = true) by (apply in_grid_bounds; lia).
  pose proof (put_well_formed b (row + 1) column (cell b row column) Hwf) as Hwf1.
  pose proof (total_occupied_put b (row + 1) column (cell b row column) Hwf Hin') as H1.
  pose proof (total_occupied_put _ row column blank Hwf1 Hin) as H2.
  rewrite cell_put_other in H2 by (assumption || lia).
  unfold move. unfold weight in *. rewrite Ox, Oy in *. rewrite occupied_blank in H2.
  lia.
Qed.
(** ** Sweeps *)

Lemma in_py_range (a b x : Z) : In x (py_range a b) <-> a <= x < b.
Proof.
  unfold py_range. rewrite in_map_iff. split.
  - intros (k & <- & Hk). apply in_seq in Hk. lia.
  - intros H. exists (Z.to_nat (x - a)). split; [lia|]. apply in_seq. lia.
Qed.

Lemma in_py_range_down (hi x : Z) : In x (py_range_down hi) <-> 0 <= x <= hi.
Proof.
  unfold py_range_down. rewrite <- in_rev, in_py_range. lia.
Qed.

Lemma for_each_cons {A S} (x : A) (l : list A) (body : S -> A -> result S)
  (s : S) :
  for_each (x :: l) body s = bind (body s x) (for_each l body).
Proof. reflexivity. Qed.

Lemma settles_to_refl (b : Board) (moved : bool) :
  well_formed b -> settles_to b moved b moved.
Proof. intros H. unfold settles_to. tauto. Qed.

Lemma settles_to_trans (b1 b2 b3 : Board) (m1 m2 m3 : bool) :
  settles_to b1 m1 b2 m2 -> settles_to b2 m2 b3 m3 -> settles_to b1 m1 b3 m3.
Proof.
  intros (W2 & R2 & C2 & T2 & H2) (W3 & R3 & C3 & T3 & H3).
  unfold settles_to.
  split; [exact W3|]. split; [congruence|]. split; [congruence|].
  split; [congruence|].
  destruct H2 as [[E2 M2]|[M2 L2]], H3 as [[E3 M3]|[M3 L3]]; subst.
  - left. split; reflexivity.
  - right. split; [reflexivity|exact L3].
  - right. split; [reflexivity|exact L2].
  - right. split; [reflexivity|lia].
Qed.

Lemma fall_settles (b : Board) (moved : bool) (row column : Z) :
  well_formed b -> 0 <= row -> row + 1 < rows b -> 0 <= column < columns b ->
  exists b' moved',
    fall column (b, moved) row = Ok (b', moved')
    /\ settles_to b moved b' moved'
    /\ (moved' = false -> moved = false /\ b' = b /\ floating b row column = false).
Proof.
  intros Hwf Hr0 Hr1 Hc. rewrite fall_spec by assumption.
  destruct (floating b row column) eqn:Hfl.
  - exists (move b row column), true. split; [reflexivity|]. split; [|discriminate].
    unfold settles_to. split; [apply move_well_formed; exact Hwf|].
    split; [reflexivity|]. split; [reflexivity|].
    split; [apply move_total_occupied; assumption|].
    right. split; [reflexivity|].
    pose proof (move_height b row column Hwf Hr0 Hr1 Hc Hfl). lia.
  - exists b, moved. split; [reflexivity|].
    split; [apply settles_to_refl; exact Hwf|]. auto.
Qed.

Lemma settles_to_unmoved (b b' : Board) (m : bool) :
  settles_to b m b' false -> b' = b /\ m = false.
Proof.
  intros (_ & _ & _ & _ & [[-> ->]|[? _]]); [auto|discriminate].
Qed.

(** The inner loop of a sweep, over rows that have a row beneath them. *)
Lemma fall_rows_settles (rs : list Z) (column : Z) :
  forall (b : Board) (moved : bool),
    well_formed b -> 0 <= column < columns b ->
    (forall row, In row rs -> 0 <= row /\ row + 1 < rows b) ->
    exists b' moved',
      for_each rs (fall column) (b, moved) = Ok (b', moved')
      /\ settles_to b moved b' moved'
      /\ (moved' = false ->
          forall row, In row rs -> floating b row column = false).
Proof.
  induction rs as [|row rs IH]; intros b moved Hwf Hc Hrs.
  - exists b, moved. split; [reflexivity|].
    split; [apply settles_to_refl; exact Hwf|]. intros _ ? [].
  - destruct (Hrs row (or_introl eq_refl)) as [Hr0 Hr1].
    destruct (fall_settles b moved row column Hwf Hr0 Hr1 Hc)
      as (b1 & m1 & Hfall & Hs1 & Hun1).
    pose proof Hs1 as (Hwf1 & HR1 & HC1 & _).
    destruct (IH b1 m1 Hwf1) as (b2 & m2 & Hloop & Hs2 & Hun2).
    { lia. }
    { intros r Hr. rewrite HR1. apply Hrs. right. exact Hr. }
    exists b2, m2. rewrite for_each_cons, Hfall. cbn [bind].
    split; [exact Hloop|]. split; [exact (settles_to_trans _ _ _ _ _ _ Hs1 Hs2)|].
    intros -> r [<-|Hr].
    + apply settles_to_unmoved in Hs2 as [_ ->]. apply Hun1. reflexivity.
    + pose proof Hs2 as Hs2'. apply settles_to_unmoved in Hs2' as [_ ->].
      destruct (Hun1 eq_refl) as (_ & <- & _). apply Hun2; [reflexivity|exact Hr].
Qed.

(** The outer loop of a sweep, over columns of the board. *)
Lemma fall_columns_settles (b0 : Board) (cs : list Z) :
  forall (b : Board) (moved : bool),
    well_formed b -> rows b = rows b0 ->
    (forall column, In column cs -> 0 <= column < columns b) ->
    exists b' moved',
      for_each cs
        (fun st column => for_each (py_range_down (rows b0 - 2)) (fall column) st)
        (b, moved) = Ok (b', moved')
      /\ settles_to b moved b' moved'
      /\ (moved' = false ->
          forall row column, In column cs -> 0 <= row -> row + 1 < rows b ->
                             floating b row column = false).
Proof.
  induction cs as [|column cs IH]; intros b moved Hwf HR Hcs.
  - exists b, moved. split; [reflexivity|].
    split; [apply settles_to_refl; exact Hwf|]. intros _ ? ? [].
  - pose proof (Hcs column (or_introl eq_refl)) as Hc.
    destruct (fall_rows_settles (py_range_down (rows b0 - 2)) column b moved Hwf Hc)
      as (b1 & m1 & Hrows & Hs1 & Hun1).
    { intros row Hrow. apply in_py_range_down in Hrow. lia. }
    pose proof Hs1 as (Hwf1 & HR1 & HC1 & _).
    destruct (IH b1 m1 Hwf1) as (b2 & m2 & Hloop & Hs2 & Hun2).
    { congruence. }
    { intros c Hc'. rewrite HC1. apply Hcs. right. exact Hc'. }
    exists b2, m2. rewrite for_each_cons, Hrows. cbn [bind].
    split; [exact Hloop|]. split; [exact (settles_to_trans _ _ _ _ _ _ Hs1 Hs2)|].
    intros -> row c Hin Hr0 Hr1.
    pose proof Hs2 as Hs2'. apply settles_to_unmoved in Hs2' as [_ ->].
    pose proof Hs1 as Hs1'. apply settles_to_unmoved in Hs1' as [-> _].
    destruct Hin as [<-|Hin].
    + apply Hun1; [reflexivity|]. apply in_py_range_down. lia.
    + apply Hun2; [reflexivity|exact Hin|lia|lia].
Qed.

(** A sweep on a well formed board returns, and when it moved nothing no
    piece of the board floats. *)
Lemma sweep_settles (b : Board) :
  well_formed b ->
  exists b' moved,
    sweep b = Ok (b', moved)
    /\ settles_to b false b' moved
    /\ (moved = false -> no_floating b).
Proof.
  intros Hwf. unfold sweep.
  destruct (fall_columns_settles b (py_range 0 (columns b)) b false Hwf eq_refl)
    as (b' & m & Hloop & Hs & Hun).
  { intros c Hc. apply in_py_range in Hc. lia. }
  exists b', m. split; [exact Hloop|]. split; [exact Hs|].
  intros -> row column Hr0 Hr1 Hc. apply Hun; try assumption; try reflexivity.
  apply in_py_range. lia.
Qed.

(** On a board without floating pieces a sweep moves nothing. *)
Lemma sweep_settled (b : Board) :
  well_formed b -> no_floating b -> sweep b = Ok (b, false).
Proof.
  intros Hwf Hnf. unfold sweep.
  assert (Hrows : forall rs column,
    0 <= column < columns b ->
    (forall row, In row rs -> 0 <= row /\ row + 1 < rows b) ->
    for_each rs (fall column) (b, false) = Ok (b, false)).
  { induction rs as [|row rs IH]; intros column Hc Hrs; [reflexivity|].
    destruct (Hrs row (or_introl eq_refl)) as [Hr0 Hr1].
    rewrite for_each_cons, fall_spec by assumption.
    rewrite (Hnf row column) by assumption.
    cbn [bind]. apply IH; [exact Hc|]. intros r Hr. apply Hrs. right. exact Hr. }
  assert (Hcols : forall cs,
    (forall column, In column cs -> 0 <= column < columns b) ->
    for_each cs
      (fun st column => for_each (py_range_down (rows b - 2)) (fall column) st)
      (b, false) = Ok (b, false)).
  { induction cs as [|column cs IH]; intros Hcs; [reflexivity|].
    rewrite for_each_cons, Hrows.
    - cbn [bind]. apply IH. intros c Hc. apply Hcs. right. exact Hc.
    - apply Hcs. left. reflexivity.
    - intros row Hrow. apply in_py_range_down in Hrow. lia. }
  apply Hcols. intros c Hc. apply in_py_range in Hc. lia.
Qed.

(** ** The gravity loop *)

Lemma gravity_loop_settles (fuel : nat) :
  forall b : Board,
    well_formed b -> (height_above_support b < fuel)%nat ->
    exists b',
      gravity_loop fuel b = Ok b'
      /\ well_formed b' /\ rows b' = rows b /\ columns b' = columns b
      /\ total_occupied b' = total_occupied b
      /\ no_floating b'.
Proof.
  induction fuel as [|fuel IH]; intros b Hwf Hfuel; [lia|].
  destruct (sweep_settles b Hwf) as (b1 & m & Hsweep & Hs & Hun).
  cbn [gravity_loop]. rewrite Hsweep. cbn [bind].
  destruct Hs as (Hwf1 & HR & HC & HT & Hcase).
  destruct m.
  - destruct Hcase as [[_ ?]|[_ Hlt]]; [discriminate|].
    destruct (IH b1 Hwf1) as (b2 & Hloop & Hwf2 & HR2 & HC2 & HT2 & Hnf); [lia|].
    exists b2. split; [exact Hloop|]. split; [exact Hwf2|].
    split; [congruence|]. split; [congruence|]. split; [congruence|exact Hnf].
  - destruct Hcase as [[-> _]|[? _]]; [|discriminate].
    exists b. split; [reflexivity|]. split; [exact Hwf|].
    split; [reflexivity|]. split; [reflexivity|]. split; [reflexivity|].
    apply Hun. reflexivity.
Qed.

Lemma gravity_loop_more_fuel (fuel : nat) :
  forall (b b' : Board) (fuel' : nat),
    gravity_loop fuel b = Ok b' -> (fuel <= fuel')%nat ->
    gravity_loop fuel' b = Ok b'.
Proof.
  induction fuel as [|fuel IH]; intros b b' fuel' H Hle; [discriminate|].
  destruct fuel' as [|fuel']; [lia|]. simpl in *.
  destruct (sweep b) as [[b1 m]| |]; simpl in *; try discriminate.
  destruct m; [|exact H]. apply (IH _ _ _ H). lia.
Qed.

(** Gravity on a well formed board returns a well formed board of the same
    shape, with the same number of pieces, none of them floating. *)
Lemma gravity_settles (b : Board) :
  well_formed b ->
  exists b',
    gravity b = Ok b'
    /\ well_formed b' /\ rows b' = rows b /\ columns b' = columns b
    /\ total_occupied b' = total_occupied b
    /\ no_floating b'.
Proof.
  intros Hwf. apply gravity_loop_settles; [exact Hwf|]. unfold gravity_fuel. lia.
Qed.

Lemma gravity_settled (b : Board) :
  well_formed b -> no_floating b -> gravity b = Ok b.
Proof.
  intros Hwf Hnf. unfold gravity, gravity_fuel. cbn [gravity_loop].
  rewrite sweep_settled by assumption. reflexivity.
Qed.
(** ** Standard insertion *)

Lemma py_range_down_step (hi : Z) :
  0 <= hi -> py_range_down hi = hi :: py_range_down (hi - 1).
Proof.
  intros H. unfold py_range_down, py_range.
  replace (Z.to_nat (hi + 1 - 0)) with (S (Z.to_nat (hi - 1 + 1 - 0))) by lia.
  rewrite seq_S, map_app, rev_app_distr. simpl. f_equal. lia.
Qed.

Lemma py_range_down_neg (hi : Z) : hi < 0 -> py_range_down hi = [].
Proof.
  intros H. unfold py_range_down, py_range.
  replace (Z.to_nat (hi + 1 - 0)) with 0%nat by lia. reflexivity.
Qed.

(** A search down from row [hi] finds the largest row that qualifies. *)
Lemma find_down_Some (P : Z -> bool) (n : nat) :
  forall hi r, hi + 1 = Z.of_nat n ->
    List.find P (py_range_down hi) = Some r ->
    P r = true /\ 0 <= r <= hi /\ forall r', r < r' <= hi -> P r' = false.
Proof.
  induction n as [|n IH]; intros hi r Hn Hfind.
  - rewrite py_range_down_neg in Hfind by lia. discriminate.
  - rewrite py_range_down_step in Hfind by lia. simpl in Hfind.
    destruct (P hi) eqn:E.
    + injection Hfind as <-. split; [exact E|]. split; [lia|]. intros; lia.
    + destruct (IH (hi - 1) r) as (H1 & H2 & H3); [lia|exact Hfind|].
      split; [exact H1|]. split; [lia|]. intros r' Hr'.
      destruct (Z.eq_dec r' hi) as [->|]; [exact E|]. apply H3. lia.
Qed.

Lemma find_down_None (P : Z -> bool) (hi : Z) :
  List.find P (py_range_down hi) = None ->
  forall r, 0 <= r <= hi -> P r = false.
Proof.
  intros Hfind r Hr.
  apply (find_none P _ Hfind). apply in_py_range_down. exact Hr.
Qed.

Lemma lowest_blank_Some (b : Board) (column_i0 row : Z) :
  lowest_blank b column_i0 = Some row ->
  (0 <= row < rows b)
  /\ occupied (cell b row column_i0) = false
  /\ forall row', row < row' < rows b ->
                  occupied (cell b row' column_i0) = true.
Proof.
  unfold lowest_blank. intros H.
  apply (find_down_Some _ (Z.to_nat (rows b))) in H as (H1 & H2 & H3).
  - rewrite occupied_eqb, negb_true_iff in H1.
    split; [lia|]. split; [exact H1|]. intros r' Hr'.
    specialize (H3 r'). rewrite occupied_eqb, negb_false_iff in H3.
    apply H3. lia.
  - destruct (List.find _ _) eqn:E in H; [|discriminate].
    apply find_some in E as [E _]. apply in_py_range_down in E. lia.
Qed.

Lemma lowest_blank_None (b : Board) (column_i0 : Z) :
  lowest_blank b column_i0 = None ->
  forall row, 0 <= row < rows b -> occupied (cell b row column_i0) = true.
Proof.
  unfold lowest_blank. intros H row Hrow.
  pose proof (find_down_None _ _ H row) as H'.
  cbv beta in H'. rewrite occupied_eqb, negb_false_iff in H'. apply H'. lia.
Qed.

Lemma insert_scan_spec (b : Board) (symbol : string) (column_i0 : Z)
  (rs : list Z) :
  well_formed b -> 0 <= column_i0 < columns b ->
  (forall row, In row rs -> 0 <= row < rows b) ->
  insert_scan b symbol column_i0 rs
  = Ok match List.find (fun row => String.eqb (cell b row column_i0) blank) rs with
       | Some row => (put b row column_i0 symbol, true)
       | None => (b, false)
       end.
Proof.
  intros Hwf Hc. induction rs as [|row rs IH]; intros Hrs; [reflexivity|].
  assert (Hin : in_grid b row column_i0 = true).
  { apply in_grid_bounds. split; [|exact Hc]. apply Hrs. left. reflexivity. }
  cbn [insert_scan List.find]. rewrite grid_get_ok by assumption. cbn [bind].
  destruct (String.eqb (cell b row column_i0) blank).
  - rewrite grid_set_ok by assumption. reflexivity.
  - apply IH. intros r Hr. apply Hrs. right. exact Hr.
Qed.

Lemma insert_scan_place (b : Board) (symbol : string) (column_i0 : Z) :
  well_formed b -> 0 <= column_i0 < columns b ->
  insert_scan b symbol column_i0 (py_range_down (rows b - 1))
  = Ok (place b symbol column_i0).
Proof.
  intros Hwf Hc. rewrite insert_scan_spec; [reflexivity|exact Hwf|exact Hc|].
  intros row Hrow. apply in_py_range_down in Hrow. lia.
Qed.

(** [Piece.insert] on a well formed board. *)
Lemma Piece_insert_spec (symbol : string) (b : Board) (column : Z) :
  well_formed b ->
  Piece_insert symbol b column
  = Ok (if (0 <=? column - 1) && (column - 1 <? columns b)
        then place b symbol (column - 1) else (b, false)).
Proof.
  intros Hwf. unfold Piece_insert. cbv zeta.
  destruct ((0 <=? column - 1) && (column - 1 <? columns b)) eqn:E; simpl.
  - apply insert_scan_place; [exact Hwf|lia].
  - reflexivity.
Qed.

Lemma place_true (b b' : Board) (symbol : string) (column_i0 : Z) :
  place b symbol column_i0 = (b', true) ->
  exists row, lowest_blank b column_i0 = Some row
              /\ b' = put b row column_i0 symbol.
Proof.
  unfold place. destruct (lowest_blank b column_i0) as [row|]; [|discriminate].
  intros [= <-]. exists row. auto.
Qed.

Lemma place_false (b b' : Board) (symbol : string) (column_i0 : Z) :
  place b symbol column_i0 = (b', false) ->
  lowest_blank b column_i0 = None /\ b' = b.
Proof.
  unfold place. destruct (lowest_blank b column_i0) as [row|]; [discriminate|].
  intros [= <-]. auto.
Qed.

(** A piece put on the lowest blank row of its column does not float and
    lets nothing float. *)
Lemma put_lowest_no_floating (b : Board) (symbol : string)
  (row column_i0 : Z) :
  well_formed b -> 0 <= column_i0 < columns b -> no_floating b ->
  lowest_blank b column_i0 = Some row ->
  no_floating (put b row column_i0 symbol).
Proof.
  intros Hwf Hc Hnf Hlow.
  apply lowest_blank_Some in Hlow as (Hrow & Hblank & Hbelow).
  assert (Hin : in_grid b row column_i0 = true) by (apply in_grid_bounds; lia).
  intros r c Hr0 Hr1 Hc'. rewrite put_rows in Hr1. rewrite put_columns in Hc'.
  pose proof (Hnf r c Hr0 Hr1 Hc') as Hold.
  unfold floating in *. rewrite !cell_put by (assumption || lia).
  destruct (Z.eqb_spec c column_i0) as [->|Hne];
    rewrite ?andb_false_r, ?andb_true_r; [|exact Hold].
  destruct (Z.eqb_spec r row) as [Er|Er].
  - subst r. destruct (Z.eqb_spec (row + 1) row) as [?|_]; [lia|].
    rewrite (Hbelow (row + 1)) by lia. apply andb_false_r.
  - destruct (Z.eqb_spec (r + 1) row) as [E|_]; [|exact Hold].
    rewrite E, Hblank in Hold. cbn [negb] in Hold.
    rewrite andb_true_r in Hold. rewrite Hold. reflexivity.
Qed.
(** ** Searching a column for a symbol *)

Lemma find_symbol_spec (b : Board) (symbol : string) (column_i0 : Z)
  (rs : list Z) (inserted_row : Z) :
  well_formed b -> 0 <= column_i0 < columns b ->
  (forall row, In row rs -> 0 <= row < rows b) ->
  find_symbol b symbol column_i0 rs inserted_row
  = Ok match List.find (fun row => String.eqb (cell b row column_i0) symbol) rs with
       | Some row => row
       | None => inserted_row
       end.
Proof.
  intros Hwf Hc. induction rs as [|row rs IH]; intros Hrs; [reflexivity|].
  assert (Hin : in_grid b row column_i0 = true).
  { apply in_grid_bounds. split; [|exact Hc]. apply Hrs. left. reflexivity. }
  cbn [find_symbol List.find]. rewrite grid_get_ok by assumption. cbn [bind].
  destruct (String.eqb (cell b row column_i0) symbol); [reflexivity|].
  apply IH. intros r Hr. apply Hrs. right. exact Hr.
Qed.

Lemma find_symbol_lowest (b : Board) (symbol : string) (column_i0 : Z) :
  well_formed b -> 0 <= column_i0 < columns b ->
  find_symbol b symbol column_i0 (py_range_down (rows b - 1)) (-1)
  = Ok (lowest_symbol b symbol column_i0).
Proof.
  intros Hwf Hc. rewrite find_symbol_spec; [reflexivity|exact Hwf|exact Hc|].
  intros row Hrow. apply in_py_range_down in Hrow. lia.
Qed.

(** A symbol just put in a column is found again, at its own row or at a
    lower one that held the symbol before. *)
Lemma lowest_symbol_put (b : Board) (symbol : string) (row column_i0 : Z) :
  well_formed b -> in_grid b row column_i0 = true ->
  let found := lowest_symbol (put b row column_i0 symbol) symbol column_i0 in
  (row <= found < rows b)
  /\ cell (put b row column_i0 symbol) found column_i0 = symbol
  /\ (row < found -> cell b found column_i0 = symbol).
Proof.
  intros Hwf Hin found. pose proof Hin as Hb. apply in_grid_bounds in Hb.
  unfold lowest_symbol in found.
  destruct (List.find _ _) as [r|] eqn:E in found.
  - apply (find_down_Some _ (Z.to_nat (rows b))) in E as (H1 & H2 & H3);
      [|rewrite put_rows; lia].
    rewrite put_rows in *. apply String.eqb_eq in H1.
    assert (Hle : row <= r).
    { destruct (Z.le_gt_cases row r) as [?|Hlt]; [assumption|].
      specialize (H3 row). rewrite cell_put_same in H3 by assumption.
      rewrite String.eqb_refl in H3. discriminate H3. lia. }
    subst found. split; [lia|]. split; [exact H1|].
    intros Hlt. rewrite cell_put_other in H1 by (assumption || lia). exact H1.
  - pose proof (find_down_None _ _ E row) as H. cbv beta in H.
    rewrite cell_put_same, String.eqb_refl in H by assumption.
    rewrite put_rows in H. discriminate H. lia.
Qed.

Lemma lowest_symbol_fresh (b : Board) (symbol : string) (row column_i0 : Z) :
  well_formed b -> in_grid b row column_i0 = true ->
  (forall row', row < row' < rows b -> cell b row' column_i0 <> symbol) ->
  lowest_symbol (put b row column_i0 symbol) symbol column_i0 = row.
Proof.
  intros Hwf Hin Hfresh.
  destruct (lowest_symbol_put b symbol row column_i0 Hwf Hin) as (H1 & _ & H3).
  remember (lowest_symbol (put b row column_i0 symbol) symbol column_i0)
    as found.
  destruct (Z.eq_dec found row) as [E|Hne]; [exact E|].
  exfalso. apply (Hfresh found); [lia|]. apply H3. lia.
Qed.

(** ** The bomb *)

Lemma clear_target_spec (inserted_row column_i0 row column : Z) (b : Board) :
  well_formed b ->
  exists b',
    clear_target inserted_row column_i0 row b column = Ok b'
    /\ well_formed b' /\ rows b' = rows b /\ columns b' = columns b
    /\ forall i j, 0 <= i -> 0 <= j ->
         cell b' i j
         = if (i =? inserted_row + row) && (j =? column_i0 + column)
           then (if in_grid b i j then blank else cell b i j)
           else cell b i j.
Proof.
  intros Hwf. unfold clear_target. cbv zeta.
  destruct (in_grid b (inserted_row + row) (column_i0 + column)) eqn:Hin.
  - exists (put b (inserted_row + row) (column_i0 + column) blank).
    split; [apply grid_set_ok; assumption|].
    split; [apply put_well_formed; exact Hwf|].
    split; [reflexivity|]. split; [reflexivity|].
    intros i j Hi Hj. rewrite cell_put by assumption.
    destruct (Z.eqb_spec i (inserted_row + row)) as [->|];
      destruct (Z.eqb_spec j (column_i0 + column)) as [->|]; cbn [andb];
      try reflexivity.
    rewrite Hin. reflexivity.
  - exists b. split; [reflexivity|]. split; [exact Hwf|].
    split; [reflexivity|]. split; [reflexivity|].
    intros i j Hi Hj.
    destruct (Z.eqb_spec i (inserted_row + row)) as [->|];
      destruct (Z.eqb_spec j (column_i0 + column)) as [->|]; cbn [andb];
      try reflexivity.
    rewrite Hin. reflexivity.
Qed.

Lemma clear_row_spec (inserted_row column_i0 row : Z) (cs : list Z) :
  forall b : Board,
    well_formed b ->
    exists b',
      for_each cs (clear_target inserted_row column_i0 row) b = Ok b'
      /\ well_formed b' /\ rows b' = rows b /\ columns b' = columns b
      /\ forall i j, in_grid b i j = true ->
           cell b' i j
           = if (i =? inserted_row + row)
                && existsb (fun column => j =? column_i0 + column) cs
             then blank else cell b i j.
Proof.
  induction cs as [|column cs IH]; intros b Hwf.
  - exists b. split; [reflexivity|]. split; [exact Hwf|].
    split; [reflexivity|]. split; [reflexivity|].
    intros i j _. cbn [existsb]. rewrite andb_false_r. reflexivity.
  - destruct (clear_target_spec inserted_row column_i0 row column b Hwf)
      as (b1 & H1 & Hwf1 & HR1 & HC1 & Hcell1).
    destruct (IH b1 Hwf1) as (b2 & H2 & Hwf2 & HR2 & HC2 & Hcell2).
    exists b2. rewrite for_each_cons, H1. cbn [bind].
    split; [exact H2|]. split; [exact Hwf2|].
    split; [congruence|]. split; [congruence|].
    intros i j Hin. pose proof Hin as Hb. apply in_grid_bounds in Hb.
    rewrite Hcell2 by (apply in_grid_bounds; rewrite HR1, HC1; exact Hb).
    rewrite Hcell1 by lia. rewrite Hin. cbn [existsb].
    destruct (i =? inserted_row + row); cbn [andb]; [|reflexivity].
    destruct (existsb _ cs); rewrite ?orb_true_r, ?orb_false_r; [reflexivity|].
    reflexivity.
Qed.

Lemma clear_rows_spec (inserted_row column_i0 : Z) (cs rs : list Z) :
  forall b : Board,
    well_formed b ->
    exists b',
      for_each rs
        (fun b' row =>
           for_each cs (clear_target inserted_row column_i0 row) b') b = Ok b'
      /\ well_formed b' /\ rows b' = rows b /\ columns b' = columns b
      /\ forall i j, in_grid b i j = true ->
           cell b' i j
           = if existsb (fun row => i =? inserted_row + row) rs
                && existsb (fun column => j =? column_i0 + column) cs
             then blank else cell b i j.
Proof.
  induction rs as [|row rs IH]; intros b Hwf.
  - exists b. split; [reflexivity|]. split; [exact Hwf|].
    split; [reflexivity|]. split; [reflexivity|]. reflexivity.
  - destruct (clear_row_spec inserted_row column_i0 row cs b Hwf)
      as (b1 & H1 & Hwf1 & HR1 & HC1 & Hcell1).
    destruct (IH b1 Hwf1) as (b2 & H2 & Hwf2 & HR2 & HC2 & Hcell2).
    exists b2. rewrite for_each_cons, H1. cbn [bind].
    split; [exact H2|]. split; [exact Hwf2|].
    split; [congruence|]. split; [congruence|].
    intros i j Hin. pose proof Hin as Hb. apply in_grid_bounds in Hb.
    rewrite Hcell2 by (apply in_grid_bounds; rewrite HR1, HC1; exact Hb).
    rewrite Hcell1 by exact Hin. cbn [existsb].
    destruct (i =? inserted_row + row); cbn [andb orb]; [|reflexivity].
    destruct (existsb _ cs); rewrite ?andb_true_r, ?andb_false_r;
      [|reflexivity].
    destruct (existsb _ rs); reflexivity.
Qed.

Lemma within_one (x centre : Z) :
  existsb (fun d => x =? centre + d) (py_range (-1) 2)
  = (Z.abs (x - centre) <=? 1).
Proof.
  change (py_range (-1) 2) with [-1; 0; 1]. cbn [existsb].
  destruct (Z.eqb_spec x (centre + -1)), (Z.eqb_spec x (centre + 0)),
    (Z.eqb_spec x (centre + 1)); cbn [orb]; lia.
Qed.

(** The explosion blanks the slots of the board next to its centre and no
    others. *)
Lemma detonate_spec (b : Board) (inserted_row column_i0 : Z) :
  well_formed b ->
  exists b',
    detonate b inserted_row column_i0 = Ok b'
    /\ well_formed b' /\ rows b' = rows b /\ columns b' = columns b
    /\ forall i j, in_grid b i j = true ->
         cell b' i j
         = if adjacent inserted_row column_i0 i j then blank else cell b i j.
Proof.
  intros Hwf. unfold detonate.
  destruct (clear_rows_spec inserted_row column_i0 (py_range (-1) 2)
              (py_range (-1) 2) b Hwf) as (b' & H & Hwf' & HR & HC & Hcell).
  exists b'. split; [exact H|]. split; [exact Hwf'|].
  split; [exact HR|]. split; [exact HC|].
  intros i j Hin. rewrite (Hcell i j Hin), !within_one. reflexivity.
Qed.
(** ** Replacing slots *)

Lemma occupied_false (x : string) : occupied x = false <-> x = blank.
Proof.
  unfold occupied. rewrite negb_false_iff. apply String.eqb_eq.
Qed.

Lemma board_eq (b b' : Board) :
  rows b = rows b' -> columns b = columns b' -> grid b = grid b' -> b = b'.
Proof. destruct b, b'. simpl. intros -> -> ->. reflexivity. Qed.

Lemma put_put_same (b : Board) (row column : Z) (v w : string) :
  put (put b row column v) row column w = put b row column w.
Proof.
  apply board_eq; try reflexivity. unfold put. cbn [grid].
  rewrite list_alter_alter_eq. apply list_alter_ext; [|reflexivity].
  intros r _. cbn. apply list_insert_insert_eq.
Qed.

Lemma put_same_cell (b : Board) (row column : Z) :
  well_formed b -> in_grid b row column = true ->
  put b row column (cell b row column) = b.
Proof.
  intros Hwf Hin. destruct (on_board_lookup b row column Hwf Hin) as (r & Hr & _ & Hx).
  apply board_eq; try reflexivity. unfold put. cbn [grid].
  apply list_eq. intros i. rewrite list_lookup_alter.
  destruct (decide (Z.to_nat row = i)) as [<-|]; [|reflexivity].
  rewrite Hr. cbn. rewrite list_insert_id by exact Hx. reflexivity.
Qed.

(** ** The insertions on a well formed board *)

Lemma place_well_formed (b : Board) (symbol : string) (column_i0 : Z) :
  well_formed b ->
  well_formed (fst (place b symbol column_i0))
  /\ rows (fst (place b symbol column_i0)) = rows b
  /\ columns (fst (place b symbol column_i0)) = columns b.
Proof.
  intros Hwf. unfold place. destruct (lowest_blank b column_i0); cbn [fst].
  - split; [apply put_well_formed; exact Hwf|]. split; reflexivity.
  - split; [exact Hwf|]. split; reflexivity.
Qed.

(** [BombPiece.insert] before decoration: the explosion is centred on the
    lowest "B" of the column after the bomb was put in it. *)
Lemma BombPiece_insert_undecorated_spec (b : Board) (column row : Z) :
  well_formed b -> 0 <= column - 1 < columns b ->
  lowest_blank b (column - 1) = Some row ->
  BombPiece_insert_undecorated b column
  = (b2 <- detonate (put b row (column - 1) "B")
             (lowest_symbol (put b row (column - 1) "B") "B" (column - 1))
             (column - 1) ;
     Ok (b2, true)).
Proof.
  intros Hwf Hc Hlow. unfold BombPiece_insert_undecorated.
  rewrite Piece_insert_spec by exact Hwf.
  replace ((0 <=? column - 1) && (column - 1 <? columns b)) with true by lia.
  unfold place. rewrite Hlow. cbn [bind negb]. cbv zeta.
  rewrite find_symbol_lowest by (try apply put_well_formed; assumption).
  reflexivity.
Qed.

Lemma BombPiece_insert_undecorated_full (b : Board) (column : Z) :
  well_formed b ->
  ~ (0 <= column - 1 < columns b) \/ lowest_blank b (column - 1) = None ->
  BombPiece_insert_undecorated b column = Ok (b, false).
Proof.
  intros Hwf Hfull. unfold BombPiece_insert_undecorated.
  rewrite Piece_insert_spec by exact Hwf.
  destruct ((0 <=? column - 1) && (column - 1 <? columns b)) eqn:E;
    [|reflexivity].
  destruct Hfull as [Hc|Hnone]; [lia|].
  unfold place. rewrite Hnone. reflexivity.
Qed.

(** [TeleportPiece.insert] before decoration: the lowest "T" of the column
    after the teleport was put in it is blanked, and the swap is made from
    there. *)
Lemma TeleportPiece_insert_undecorated_spec (b : Board) (column row : Z) :
  well_formed b -> 0 <= column - 1 < columns b ->
  lowest_blank b (column - 1) = Some row ->
  let b1 := put b row (column - 1) "T" in
  let inserted_row := lowest_symbol b1 "T" (column - 1) in
  TeleportPiece_insert_undecorated b column
  = Ok (swap_from (put b1 inserted_row (column - 1) blank) inserted_row
          (column - 1), true).
Proof.
  intros Hwf Hc Hlow b1 inserted_row.
  pose proof (lowest_blank_Some _ _ _ Hlow) as (Hrow & _ & _).
  assert (Hin : in_grid b row (column - 1) = true) by (apply in_grid_bounds; lia).
  assert (Hwf1 : well_formed b1) by (apply put_well_formed; exact Hwf).
  destruct (lowest_symbol_put b "T" row (column - 1) Hwf Hin) as (Hfound & _ & _).
  fold b1 in Hfound. fold inserted_row in Hfound.
  assert (Hin1 : in_grid b1 inserted_row (column - 1) = true).
  { apply in_grid_bounds. unfold b1. rewrite put_rows, put_columns. lia. }
  unfold TeleportPiece_insert_undecorated.
  rewrite Piece_insert_spec by exact Hwf.
  replace ((0 <=? column - 1) && (column - 1 <? columns b)) with true by lia.
  unfold place. rewrite Hlow. cbn [bind negb]. cbv zeta. fold b1.
  rewrite find_symbol_lowest by (assumption || (unfold b1; rewrite put_columns; lia)).
  cbn [bind]. fold inserted_row.
  rewrite grid_set_ok by assumption. cbn [bind].
  set (b2 := put b1 inserted_row (column - 1) blank).
  assert (Hwf2 : well_formed b2) by (apply put_well_formed; exact Hwf1).
  assert (Hmir : in_grid b2 (mirrored (rows b2) inserted_row)
                   (mirrored (columns b2) (column - 1)) = true).
  { apply in_grid_bounds. unfold mirrored, b2, b1.
    rewrite !put_rows, !put_columns. lia. }
  rewrite Hmir. rewrite grid_get_ok by assumption. cbn [bind].
  unfold swap_from. cbv zeta. rewrite occupied_eqb, negb_involutive.
  destruct (occupied (cell b2 _ _)); [|reflexivity].
  rewrite grid_set_ok by assumption. cbn [bind].
  rewrite insert_scan_place.
  - cbn [bind]. destruct (place _ _ _). reflexivity.
  - apply put_well_formed. exact Hwf2.
  - rewrite put_columns. unfold b2, b1. rewrite !put_columns. lia.
Qed.

Lemma TeleportPiece_insert_undecorated_full (b : Board) (column : Z) :
  well_formed b ->
  ~ (0 <= column - 1 < columns b) \/ lowest_blank b (column - 1) = None ->
  TeleportPiece_insert_undecorated b column = Ok (b, false).
Proof.
  intros Hwf Hfull. unfold TeleportPiece_insert_undecorated.
  rewrite Piece_insert_spec by exact Hwf.
  destruct ((0 <=? column - 1) && (column - 1 <? columns b)) eqn:E;
    [|reflexivity].
  destruct Hfull as [Hc|Hnone]; [lia|].
  unfold place. rewrite Hnone. reflexivity.
Qed.

Lemma swap_from_well_formed (b : Board) (inserted_row column_i0 : Z) :
  well_formed b ->
  well_formed (swap_from b inserted_row column_i0)
  /\ rows (swap_from b inserted_row column_i0) = rows b
  /\ columns (swap_from b inserted_row column_i0) = columns b.
Proof.
  intros Hwf. unfold swap_from. cbv zeta.
  destruct (occupied (cell b _ _)); [|auto].
  match goal with
  | |- well_formed (fst (place ?b3 ?s ?c)) /\ _ =>
      destruct (place_well_formed b3 s c) as (H1 & H2 & H3);
        [apply put_well_formed; exact Hwf|]
  end.
  split; [exact H1|]. split; [exact H2|exact H3].
Qed.
(** ** Every insertion returns, on a board that stays well formed *)

Lemma BombPiece_insert_undecorated_returns (b : Board) (column : Z) :
  well_formed b ->
  exists b' inserted,
    BombPiece_insert_undecorated b column = Ok (b', inserted)
    /\ well_formed b' /\ rows b' = rows b /\ columns b' = columns b.
Proof.
  intros Hwf.
  destruct (decide (0 <= column - 1 < columns b)) as [Hc|Hc].
  - destruct (lowest_blank b (column - 1)) as [row|] eqn:Hlow.
    + rewrite (BombPiece_insert_undecorated_spec b column row Hwf Hc Hlow).
      destruct (detonate_spec (put b row (column - 1) "B")
                  (lowest_symbol (put b row (column - 1) "B") "B" (column - 1))
                  (column - 1)) as (b2 & H & Hwf2 & HR & HC & _).
      { apply put_well_formed. exact Hwf. }
      rewrite H. exists b2, true. split; [reflexivity|]. auto.
    + rewrite BombPiece_insert_undecorated_full by auto.
      exists b, false. auto.
  - rewrite BombPiece_insert_undecorated_full by auto.
    exists b, false. auto.
Qed.

Lemma TeleportPiece_insert_undecorated_returns (b : Board) (column : Z) :
  well_formed b ->
  exists b' inserted,
    TeleportPiece_insert_undecorated b column = Ok (b', inserted)
    /\ well_formed b' /\ rows b' = rows b /\ columns b' = columns b.
Proof.
  intros Hwf.
  destruct (decide (0 <= column - 1 < columns b)) as [Hc|Hc].
  - destruct (lowest_blank b (column - 1)) as [row|] eqn:Hlow.
    + rewrite (TeleportPiece_insert_undecorated_spec b column row Hwf Hc Hlow).
      cbv zeta.
      match goal with
      | |- exists _ _, Ok (swap_from ?b2 ?r ?c, _) = _ /\ _ =>
          destruct (swap_from_well_formed b2 r c) as (H1 & H2 & H3);
            [do 2 apply put_well_formed; exact Hwf|]
      end.
      eexists _, true. split; [reflexivity|].
      split; [exact H1|]. split; [exact H2|exact H3].
    + rewrite TeleportPiece_insert_undecorated_full by auto.
      exists b, false. auto.
  - rewrite TeleportPiece_insert_undecorated_full by auto.
    exists b, false. auto.
Qed.

(** A decorated insertion ends with every piece of the board at rest. *)
Lemma gravity_decorator_settles
  (insert_method : Board -> Z -> result (Board * bool)) (b : Board)
  (column : Z) :
  (exists b1 inserted,
     insert_method b column = Ok (b1, inserted)
     /\ well_formed b1 /\ rows b1 = rows b /\ columns b1 = columns b) ->
  exists b' inserted,
    gravity_decorator insert_method b column = Ok (b', inserted)
    /\ well_formed b' /\ rows b' = rows b /\ columns b' = columns b
    /\ no_floating b'.
Proof.
  intros (b1 & inserted & H & Hwf1 & HR1 & HC1).
  destruct (gravity_settles b1 Hwf1) as (b2 & Hg & Hwf2 & HR2 & HC2 & _ & Hnf).
  exists b2, inserted. unfold gravity_decorator. rewrite H. cbn [bind].
  rewrite Hg. cbn [bind]. split; [reflexivity|]. split; [exact Hwf2|].
  split; [congruence|]. split; [congruence|exact Hnf].
Qed.

(** Any insertion on a well formed board returns and leaves no floating
    piece; a standard piece relies on the board having none before. *)
Lemma insert_settles (p : Piece) (b : Board) (column : Z) :
  well_formed b ->
  (forall s, p = StandardPiece s -> no_floating b) ->
  exists b' inserted,
    insert p b column = Ok (b', inserted)
    /\ well_formed b' /\ rows b' = rows b /\ columns b' = columns b
    /\ no_floating b'.
Proof.
  intros Hwf Hnf. destruct p as [s| |]; cbn [insert].
  - specialize (Hnf s eq_refl). rewrite Piece_insert_spec by exact Hwf.
    destruct ((0 <=? column - 1) && (column - 1 <? columns b)) eqn:E.
    + unfold place. destruct (lowest_blank b (column - 1)) as [row|] eqn:Hlow.
      * eexists _, true. split; [reflexivity|].
        split; [apply put_well_formed; exact Hwf|].
        split; [reflexivity|]. split; [reflexivity|].
        apply put_lowest_no_floating; try assumption. lia.
      * exists b, false. auto.
    + exists b, false. auto.
  - apply gravity_decorator_settles.
    apply BombPiece_insert_undecorated_returns. exact Hwf.
  - apply gravity_decorator_settles.
    apply TeleportPiece_insert_undecorated_returns. exact Hwf.
Qed.

Lemma py_range_length (a b : Z) : length (py_range a b) = Z.to_nat (b - a).
Proof. unfold py_range. rewrite length_map, length_seq. reflexivity. Qed.

Lemma Board_init_well_formed (height width : Z) :
  well_formed (Board_init height width).
Proof.
  split; cbn [grid Board_init rows columns].
  - rewrite length_map, py_range_length. f_equal. lia.
  - apply Forall_forall. intros r Hr. apply list_elem_of_In in Hr.
    apply in_map_iff in Hr as (_ & <- & _).
    rewrite length_map, py_range_length. f_equal. lia.
Qed.

Lemma Board_init_cell (height width row column : Z) :
  cell (Board_init height width) row column = blank.
Proof.
  unfold cell, Board_init. cbn [grid].
  destruct (_ !! Z.to_nat row) as [r|] eqn:Hr; [|reflexivity]. cbn.
  apply list_elem_of_lookup_2, list_elem_of_In, in_map_iff in Hr as (_ & <- & _).
  destruct (_ !! Z.to_nat column) as [x|] eqn:Hx; [|reflexivity]. cbn.
  apply list_elem_of_lookup_2, list_elem_of_In, in_map_iff in Hx as (_ & <- & _).
  reflexivity.
Qed.

Lemma Board_init_no_floating (height width : Z) :
  no_floating (Board_init height width).
Proof.
  intros row column _ _ _. unfold floating. rewrite Board_init_cell. reflexivity.
Qed.

Lemma insert_all_settles (moves : list (Piece * Z)) :
  forall b : Board,
    well_formed b -> no_floating b ->
    exists b',
      insert_all b moves = Ok b' /\ well_formed b' /\ no_floating b'
      /\ rows b' = rows b /\ columns b' = columns b.
Proof.
  induction moves as [|[p column] moves IH]; intros b Hwf Hnf.
  - exists b. auto.
  - destruct (insert_settles p b column Hwf (fun _ _ => Hnf))
      as (b1 & inserted & H & Hwf1 & HR1 & HC1 & Hnf1).
    destruct (IH b1 Hwf1 Hnf1) as (b2 & H2 & Hwf2 & Hnf2 & HR2 & HC2).
    exists b2. cbn [insert_all]. rewrite H. cbn [bind].
    split; [exact H2|]. split; [exact Hwf2|]. split; [exact Hnf2|].
    split; congruence.
Qed.
(** ** The win checks return *)

Lemma reads_within_ret (lr lc : Z) (b : Board) {A} (Q : A -> Prop) (a : A) :
  Q a -> reads_within lr lc b Q (tret a).
Proof. intros H. exists [], a. split; [reflexivity|]. split; [constructor|exact H]. Qed.

Lemma reads_within_bind (lr lc : Z) (b : Board) {A B} (Q : A -> Prop)
  (R : B -> Prop) (m : traced A) (k : A -> traced B) :
  reads_within lr lc b Q m ->
  (forall a, Q a -> reads_within lr lc b R (k a)) ->
  reads_within lr lc b R (tbind m k).
Proof.
  intros (t & a & -> & Ht & Ha) Hk.
  destruct (Hk a Ha) as (t' & a' & Hka & Ht' & Ha').
  exists (t ++ t')%list, a'. unfold tbind. rewrite Hka.
  split; [reflexivity|]. split; [|exact Ha'].
  apply Forall_app. split; assumption.
Qed.

Lemma reads_within_weaken (lr lc : Z) (b : Board) {A} (Q Q' : A -> Prop)
  (m : traced A) :
  reads_within lr lc b Q m -> (forall a, Q a -> Q' a) ->
  reads_within lr lc b Q' m.
Proof.
  intros (t & a & -> & Ht & Ha) H. exists t, a.
  split; [reflexivity|]. split; [exact Ht|]. apply H. exact Ha.
Qed.

Lemma list_getitem_valid {A} (l : list A) (i : Z) :
  - Z.of_nat (length l) <= i < Z.of_nat (length l) ->
  exists x, list_getitem l i = Ok x /\ In x l.
Proof.
  intros H. unfold list_getitem, py_index.
  destruct (Z.leb_spec 0 i).
  - destruct (Z.ltb_spec i (Z.of_nat (length l))); [|lia]. cbn [andb].
    destruct (lookup_lt_is_Some_2 l (Z.to_nat i)) as [x Hx]; [lia|].
    rewrite Hx. exists x. split; [reflexivity|].
    apply list_elem_of_In. eapply list_elem_of_lookup_2. exact Hx.
  - cbn [andb].
    destruct (Z.leb_spec (- Z.of_nat (length l)) i); [|lia].
    destruct (Z.ltb_spec i 0); [|lia]. cbn [andb].
    destruct (lookup_lt_is_Some_2 l (Z.to_nat (Z.of_nat (length l) + i)))
      as [x Hx]; [lia|].
    rewrite Hx. exists x. split; [reflexivity|].
    apply list_elem_of_In. eapply list_elem_of_lookup_2. exact Hx.
Qed.

(** A read at subscripts Python accepts, negative ones included, returns. *)
Lemma grid_get_valid (b : Board) (row column : Z) :
  well_formed b ->
  - rows b <= row < rows b -> - columns b <= column < columns b ->
  exists x, grid_get b row column = Ok x.
Proof.
  intros [Hlen Hrows] Hr Hc. unfold grid_get.
  destruct (list_getitem_valid (grid b) row) as (r & Hget & Hin); [lia|].
  rewrite Hget. cbn [bind].
  assert (Hlr : length r = Z.to_nat (columns b)).
  { rewrite Forall_forall in Hrows. apply Hrows. apply list_elem_of_In. exact Hin. }
  destruct (list_getitem_valid r column) as (x & Hx & _); [lia|].
  exists x. exact Hx.
Qed.

Lemma grid_read_within (lr lc : Z) (b : Board) (row column : Z) :
  well_formed b -> - rows b <= lr -> - columns b <= lc ->
  lr <= row < rows b -> lc <= column < columns b ->
  reads_within lr lc b (fun _ => True) (grid_read b row column).
Proof.
  intros Hwf Hlr Hlc Hr Hc.
  destruct (grid_get_valid b row column Hwf) as [x Hx]; [lia|lia|].
  exists [(row, column)], x. unfold grid_read. rewrite Hx.
  split; [reflexivity|]. split; [|exact I].
  constructor; [|constructor]. cbn [fst snd]. lia.
Qed.

(** A scanning loop of the current player's check returns before its fuel
    runs out, and reads only between the lower bounds and the size of the
    board. *)
Lemma extend_within (lr lc : Z) (b : Board) (symbol : string) (dr dc : Z)
  (fuel : nat) :
  well_formed b -> - rows b <= lr <= 0 -> - columns b <= lc <= 0 ->
  -1 <= dr <= 1 -> -1 <= dc <= 1 -> dr <> 0 \/ dc <> 0 ->
  forall row column counter,
    safe lr dr row (rows b) -> safe lc dc column (columns b) ->
    (0 < fuel)%nat -> remaining b dr dc row column < Z.of_nat fuel ->
    reads_within lr lc b (fun _ => True)
      (extend fuel b symbol dr dc row column counter).
Proof.
  intros Hwf Hlr Hlc Hdr Hdc Hdir.
  induction fuel as [|fuel IH]; intros row column counter Hsr Hsc Hpos Hrem.
  - lia.
  - cbn [extend]. destruct (ahead b dr dc row column) eqn:Hahead;
      [|apply reads_within_ret; exact I].
    unfold ahead, within in Hahead. apply andb_true_iff in Hahead as [Har Hac].
    assert (Hrow : lr <= row < rows b /\ lc <= column < columns b).
    { unfold safe in *.
      destruct (Z.ltb_spec dr 0), (Z.ltb_spec 0 dr), (Z.ltb_spec dc 0),
        (Z.ltb_spec 0 dc); lia. }
    eapply reads_within_bind.
    + apply grid_read_within; (assumption || lia).
    + intros x _. destruct (String.eqb x symbol);
        [|apply reads_within_ret; exact I].
      assert (Hleft : 0 <= remaining b dr dc (row + dr) (column + dc)
                      < Z.of_nat fuel).
      { unfold remaining in *.
        destruct (Z.ltb_spec dr 0), (Z.ltb_spec 0 dr), (Z.ltb_spec dc 0),
          (Z.ltb_spec 0 dc); lia. }
      apply IH.
      * unfold safe in *. lia.
      * unfold safe in *. lia.
      * lia.
      * lia.
Qed.

(** The current player's check returns for an inserted row that was found
    or is still -1, and reads no row above [lr]. *)
Lemma current_player_check_within (lr : Z) (b : Board) (symbol : string)
  (inserted_row column_i0 : Z) :
  well_formed b -> -1 <= lr <= 0 -> 0 < rows b ->
  lr <= inserted_row < rows b -> 0 <= column_i0 < columns b ->
  reads_within lr 0 b (fun _ => True)
    (current_player_check b symbol inserted_row column_i0).
Proof.
  intros Hwf Hlr Hrows Hir Hc. unfold current_player_check. cbv zeta.
  assert (Hloop : forall dr dc row column counter,
    -1 <= dr <= 1 -> -1 <= dc <= 1 -> dr <> 0 \/ dc <> 0 ->
    inserted_row - 1 <= row <= inserted_row + 1 ->
    column_i0 - 1 <= column <= column_i0 + 1 ->
    (dr = 0 -> row = inserted_row) -> (dr < 0 -> row = inserted_row - 1) ->
    (0 < dr -> row = inserted_row + 1) ->
    (dc = 0 -> column = column_i0) -> (dc < 0 -> column = column_i0 - 1) ->
    (0 < dc -> column = column_i0 + 1) ->
    reads_within lr 0 b (fun _ => True)
      (extend (extend_fuel b) b symbol dr dc row column counter)).
  { intros dr dc row column counter Hdr Hdc Hdir Hr Hcol E1 E2 E3 E4 E5 E6.
    apply extend_within; try assumption; try lia.
    - unfold safe. lia.
    - unfold safe. lia.
    - unfold extend_fuel. lia.
    - unfold remaining, extend_fuel.
      destruct (Z.ltb_spec dr 0), (Z.ltb_spec 0 dr), (Z.ltb_spec dc 0); lia. }
  repeat (eapply reads_within_bind; [apply Hloop; lia|]; intros ? _).
  apply reads_within_ret. exact I.
Qed.

Lemma run_from_within (b : Board) (symbol : string) (dr dc row column : Z)
  (xs : list Z) :
  well_formed b -> in_grid b row column = true ->
  0 <= dr <= 1 -> -1 <= dc <= 1 -> (forall x, In x xs -> 0 <= x) ->
  forall count,
    reads_within 0 0 b (fun _ => True)
      (run_from b symbol dr dc row column xs count).
Proof.
  intros Hwf Hin Hdr Hdc. apply in_grid_bounds in Hin.
  induction xs as [|x xs IH]; intros Hxs count;
    [apply reads_within_ret; exact I|].
  cbn [run_from].
  destruct (ahead b dr dc (row + x * dr) (column + x * dc)) eqn:Hahead;
    [|apply reads_within_ret; exact I].
  unfold ahead, within in Hahead. apply andb_true_iff in Hahead as [Har Hac].
  pose proof (Hxs x (or_introl eq_refl)) as Hx.
  eapply reads_within_bind.
  - apply grid_read_within; try assumption; try lia.
    + destruct (Z.ltb_spec dr 0), (Z.ltb_spec 0 dr); nia.
    + destruct (Z.ltb_spec dc 0), (Z.ltb_spec 0 dc); nia.
  - intros v _. destruct (String.eqb v symbol);
      [|apply reads_within_ret; exact I].
    apply IH. intros y Hy. apply Hxs. right. exact Hy.
Qed.

Lemma check_slot_within (b : Board) (symbol : string) (row column : Z) :
  well_formed b -> in_grid b row column = true ->
  reads_within 0 0 b (fun _ => True) (check_slot b symbol row column).
Proof.
  intros Hwf Hin. pose proof Hin as Hb. apply in_grid_bounds in Hb.
  assert (Hrun : forall dr dc,
    0 <= dr <= 1 -> -1 <= dc <= 1 ->
    reads_within 0 0 b (fun _ => True)
      (run_from b symbol dr dc row column (py_range 1 4) 1)).
  { intros dr dc Hdr Hdc. apply run_from_within; try assumption.
    intros x Hx. apply in_py_range in Hx. lia. }
  unfold check_slot. cbv zeta.
  eapply reads_within_bind; [apply grid_read_within; (assumption || lia)|].
  intros v _. destruct (String.eqb v symbol); [|apply reads_within_ret; exact I].
  eapply reads_within_bind; [apply Hrun; lia|]. intros h _.
  destruct (h >=? 4); [apply reads_within_ret; exact I|].
  eapply reads_within_bind; [apply Hrun; lia|]. intros v' _.
  destruct (v' >=? 4); [apply reads_within_ret; exact I|].
  eapply reads_within_bind; [apply Hrun; lia|]. intros br _.
  destruct (br >=? 4); [apply reads_within_ret; exact I|].
  eapply reads_within_bind; [apply Hrun; lia|]. intros bl _.
  apply reads_within_ret. exact I.
Qed.

Lemma check_row_within (b : Board) (symbol : string) (row : Z) (cs : list Z) :
  well_formed b -> 0 <= row < rows b ->
  (forall column, In column cs -> 0 <= column < columns b) ->
  reads_within 0 0 b (fun _ => True) (check_row b symbol row cs).
Proof.
  intros Hwf Hr. induction cs as [|column cs IH]; intros Hcs;
    [apply reads_within_ret; exact I|].
  cbn [check_row]. eapply reads_within_bind.
  - apply check_slot_within; [exact Hwf|]. apply in_grid_bounds.
    split; [exact Hr|]. apply Hcs. left. reflexivity.
  - intros w _. destruct w; [apply reads_within_ret; exact I|].
    apply IH. intros c Hc. apply Hcs. right. exact Hc.
Qed.

(** The other player's check returns and reads only slots of the board. *)
Lemma otherplayer_check_within (b : Board) (symbol : string) :
  well_formed b ->
  reads_within 0 0 b (fun _ => True) (otherplayer_check b symbol).
Proof.
  intros Hwf. unfold otherplayer_check.
  assert (H : forall rs, (forall row, In row rs -> 0 <= row < rows b) ->
    reads_within 0 0 b (fun _ => True) (check_rows b symbol rs)).
  { induction rs as [|row rs IH]; intros Hrs;
      [apply reads_within_ret; exact I|].
    cbn [check_rows]. eapply reads_within_bind.
    - apply check_row_within; [exact Hwf| |].
      + apply Hrs. left. reflexivity.
      + intros c Hc. apply in_py_range in Hc. lia.
    - intros w _. destruct w; [apply reads_within_ret; exact I|].
      apply IH. intros r Hr. apply Hrs. right. exact Hr. }
  apply H. intros row Hrow. apply in_py_range in Hrow. lia.
Qed.

(** The search for the inserted row returns a row of the list or the
    initial value. *)
Lemma find_inserted_row_within (b : Board) (symbol : string)
  (column_i0 : Z) (rs : list Z) (inserted_row : Z) :
  well_formed b -> 0 <= column_i0 < columns b ->
  (forall row, In row rs -> 0 <= row < rows b) ->
  reads_within 0 0 b
    (fun found =>
       match List.find (fun row => String.eqb (cell b row column_i0) symbol) rs with
       | Some row => found = row
       | None => found = inserted_row
       end)
    (find_inserted_row b symbol column_i0 rs inserted_row).
Proof.
  intros Hwf Hc. induction rs as [|row rs IH]; intros Hrs.
  - apply reads_within_ret. reflexivity.
  - pose proof (Hrs row (or_introl eq_refl)) as Hrow.
    assert (Hin : in_grid b row column_i0 = true) by (apply in_grid_bounds; lia).
    cbn [find_inserted_row List.find].
    destruct (IH (fun r Hr => Hrs r (or_intror Hr))) as (t & a & Hrest & Ht & Ha).
    unfold tbind, grid_read. rewrite grid_get_ok by assumption.
    destruct (String.eqb (cell b row column_i0) symbol).
    + exists [(row, column_i0)], row. cbn. split; [reflexivity|].
      split; [|reflexivity]. constructor; [|constructor]. cbn [fst snd]. lia.
    + rewrite Hrest. exists ((row, column_i0) :: t), a. split; [reflexivity|].
      split; [|exact Ha]. constructor; [|exact Ht]. cbn [fst snd]. lia.
Qed.
(** ** Successful insertions *)

(** An insertion that returns [True] was given a column of the board with a
    blank slot. *)
Lemma insert_success (p : Piece) (b b' : Board) (column : Z) :
  well_formed b -> insert p b column = Ok (b', true) ->
  (0 <= column - 1 < columns b)
  /\ exists row, lowest_blank b (column - 1) = Some row.
Proof.
  intros Hwf H.
  destruct (decide (0 <= column - 1 < columns b)) as [Hc|Hc].
  - split; [exact Hc|].
    destruct (lowest_blank b (column - 1)) as [row|] eqn:Hlow; [eauto|].
    exfalso. destruct p as [s| |]; cbn [insert] in H.
    + rewrite Piece_insert_spec in H by exact Hwf.
      replace ((0 <=? column - 1) && (column - 1 <? columns b)) with true in H by lia.
      unfold place in H. rewrite Hlow in H. discriminate.
    + unfold BombPiece_insert, gravity_decorator in H.
      rewrite BombPiece_insert_undecorated_full in H by auto. cbn [bind] in H.
      destruct (gravity b); discriminate.
    + unfold TeleportPiece_insert, gravity_decorator in H.
      rewrite TeleportPiece_insert_undecorated_full in H by auto. cbn [bind] in H.
      destruct (gravity b); discriminate.
  - exfalso. destruct p as [s| |]; cbn [insert] in H.
    + rewrite Piece_insert_spec in H by exact Hwf.
      replace ((0 <=? column - 1) && (column - 1 <? columns b)) with false in H by lia.
      discriminate.
    + unfold BombPiece_insert, gravity_decorator in H.
      rewrite BombPiece_insert_undecorated_full in H by auto. cbn [bind] in H.
      destruct (gravity b); discriminate.
    + unfold TeleportPiece_insert, gravity_decorator in H.
      rewrite TeleportPiece_insert_undecorated_full in H by auto. cbn [bind] in H.
      destruct (gravity b); discriminate.
Qed.

(** Any insertion on a well formed board returns a well formed board of the
    same shape. *)
Lemma insert_returns (p : Piece) (b : Board) (column : Z) :
  well_formed b ->
  exists b' inserted,
    insert p b column = Ok (b', inserted)
    /\ well_formed b' /\ rows b' = rows b /\ columns b' = columns b.
Proof.
  intros Hwf. destruct p as [s| |].
  - cbn [insert]. rewrite Piece_insert_spec by exact Hwf.
    destruct ((0 <=? column - 1) && (column - 1 <? columns b)).
    + destruct (place_well_formed b s (column - 1) Hwf) as (H1 & H2 & H3).
      destruct (place b s (column - 1)) as [b' ok]. exists b', ok. auto.
    + exists b, false. auto.
  - destruct (insert_settles BombPiece b column Hwf) as (b' & ok & H & H1 & H2 & H3 & _);
      [discriminate|]. exists b', ok. auto.
  - destruct (insert_settles TeleportPiece b column Hwf) as (b' & ok & H & H1 & H2 & H3 & _);
      [discriminate|]. exists b', ok. auto.
Qed.

(** ** The swap keeps the number of pieces *)

Lemma weight_occupied (x : string) : occupied x = true -> weight x = 1%nat.
Proof. unfold weight. intros ->. reflexivity. Qed.

Lemma weight_blank (x : string) : occupied x = false -> weight x = 0%nat.
Proof. unfold weight. intros ->. reflexivity. Qed.



(** ** Choosing a piece *)

Lemma pop_symbol_length (chosen : string) (ps rest : list Piece) (q : Piece) :
  pop_symbol chosen ps = Some (q, rest) ->
  length ps = S (length rest) /\ piece_symbol q = chosen.
Proof.
  revert rest. induction ps as [|p ps IH]; intros rest H; [discriminate|].
  cbn [pop_symbol] in H.
  destruct (String.eqb (piece_symbol p) chosen) eqn:E.
  - injection H as <- <-. split; [reflexivity|]. apply String.eqb_eq. exact E.
  - destruct (pop_symbol chosen ps) as [[q' rest']|]; [|discriminate].
    injection H as <- <-. destruct (IH rest' eq_refl) as [IH1 IH2].
    split; [cbn [length]; lia|exact IH2].
Qed.

(** A piece that is returned has left the collection; without one nothing
    changed. *)
Lemma choose_piece_spec (p chooser : Player) (selection : option (string * Z))
  (userlist : option (Piece * Z)) :
  choose_piece p selection = (chooser, userlist) ->
  name chooser = name p /\ symbol chooser = symbol p
  /\ match userlist with
     | Some _ => length (pieces p) = S (length (pieces chooser))
     | None => chooser = p
     end.
Proof.
  unfold choose_piece. destruct selection as [[chosen column]|].
  - destruct (pop_symbol chosen (pieces p)) as [[q rest]|] eqn:E.
    + intros [= <- <-]. cbn. split; [reflexivity|]. split; [reflexivity|].
      apply (pop_symbol_length _ _ _ _ E).
    + intros [= <- <-]. auto.
  - intros [= <- <-]. auto.
Qed.

Lemma choose_piece_nonempty (p chooser : Player)
  (selection : option (string * Z)) (chosen : Piece * Z) :
  choose_piece p selection = (chooser, Some chosen) -> pieces p <> [].
Proof.
  intros H Hnil. unfold choose_piece in H. rewrite Hnil in H.
  destruct selection as [[? ?]|]; discriminate.
Qed.

(** ** The shape of a turn *)

Lemma conclude_keeps (g g' : Game) (cw ow : bool) (outcome : Outcome) :
  conclude g cw ow = (g', outcome) ->
  board g' = board g /\ player1 g' = player1 g /\ player2 g' = player2 g.
Proof.
  unfold conclude. cbv zeta.
  destruct (cw && ow); [intros [= <- _]; auto|].
  destruct cw; [intros [= <- _]; auto|].
  destruct ow; [intros [= <- _]; auto|].
  destruct (_ || _); intros [= <- _]; auto.
Qed.

Lemma reads_within_lower (lr lc lr' lc' : Z) (b : Board) {A} (Q : A -> Prop)
  (m : traced A) :
  reads_within lr lc b Q m -> lr' <= lr -> lc' <= lc ->
  reads_within lr' lc' b Q m.
Proof.
  intros (t & a & -> & Ht & Ha) Hr Hc. exists t, a.
  split; [reflexivity|]. split; [|exact Ha].
  eapply Forall_impl; [exact Ht|]. cbv beta. intros p Hp. lia.
Qed.

Lemma tbind_untraced {A B} (a : A) (k : A -> traced B) :
  tbind (untraced (Ok a)) k = k a.
Proof. unfold tbind, untraced. destruct (k a). reflexivity. Qed.

(** After a successful insertion the turn runs the three searches on the
    new board and ends with [conclude]; it returns, and no read is above
    row [lr] or off the board on another side. [lr] is -1, or 0 when the
    inserted symbol is still in its column. *)
Lemma turn_placed (lr : Z) (g : Game) (selection : option (string * Z))
  (chooser : Player) (piece : Piece) (column : Z) (b' : Board) :
  pieces (player_at g (current_player g)) <> [] ->
  choose_piece (player_at g (current_player g)) selection
  = (chooser, Some (piece, column)) ->
  insert piece (board g) column = Ok (b', true) ->
  well_formed b' -> 0 < rows b' -> 0 <= column - 1 < columns b' ->
  lr = -1
  \/ (lr = 0 /\ exists row, (0 <= row < rows b')
                           /\ cell b' row (column - 1) = piece_symbol piece) ->
  reads_within lr 0 b'
    (fun r => exists cw ow,
       r = conclude (with_board (with_player g (current_player g) chooser) b')
             cw ow)
    (turn g selection).
Proof.
  intros Hpieces Hchoose Hinsert Hwf Hrows Hc Hlr. unfold turn. cbv zeta.
  destruct (pieces (player_at g (current_player g))) as [|q qs] eqn:Hps;
    [congruence|]. cbn [length Nat.eqb].
  rewrite Hchoose.
  replace (board (with_player g (current_player g) chooser)) with (board g)
    by (destruct (current_player g); reflexivity).
  rewrite Hinsert, tbind_untraced. cbn [negb].
  eapply reads_within_bind.
  { apply reads_within_lower with (lr := 0) (lc := 0); [|lia|lia].
    apply (find_inserted_row_within b' (piece_symbol piece) (column - 1)
             (py_range 0 (rows b')) (-1) Hwf Hc).
    intros row Hrow. apply in_py_range in Hrow. lia. }
  intros inserted_row Hfound. cbv beta in Hfound.
  assert (Hir : lr <= inserted_row < rows b').
  { destruct (List.find _ _) as [row|] eqn:E in Hfound.
    - apply find_some in E as [E _]. apply in_py_range in E. lia.
    - destruct Hlr as [->|[-> (row & Hrow & Hcell)]]; [lia|].
      exfalso. pose proof (find_none _ _ E row) as Hnone. cbv beta in Hnone.
      rewrite Hcell, String.eqb_refl in Hnone. discriminate Hnone.
      apply in_py_range. lia. }
  eapply reads_within_bind.
  { apply (current_player_check_within lr); (assumption || lia). }
  intros cw _.
  eapply reads_within_bind.
  { apply reads_within_lower with (lr := 0) (lc := 0);
      [apply otherplayer_check_within; exact Hwf|lia|lia]. }
  intros ow _. apply reads_within_ret. exists cw, ow. reflexivity.
Qed.
(** ** Allocation of pieces *)

Lemma add_piece_fold (q : Piece) (l : list Z) :
  forall p : Player,
    let p' := fold_left (fun p' _ => append_piece p' q) l p in
    name p' = name p /\ symbol p' = symbol p
    /\ pieces p' = (pieces p ++ repeat q (length l))%list.
Proof.
  induction l as [|x l IH]; intros p; cbn [fold_left length repeat].
  - rewrite app_nil_r. auto.
  - destruct (IH (append_piece p q)) as (H1 & H2 & H3).
    split; [exact H1|]. split; [exact H2|].
    rewrite H3. cbn [append_piece pieces]. rewrite <- app_assoc. reflexivity.
Qed.

Lemma add_piece_spec (p : Player) (s : string) (quantity : Z) :
  name (add_piece p s quantity) = name p
  /\ symbol (add_piece p s quantity) = symbol p
  /\ pieces (add_piece p s quantity)
     = (pieces p ++ repeat (new_piece s) (Z.to_nat quantity))%list.
Proof.
  unfold add_piece.
  destruct (add_piece_fold (new_piece s) (py_range 0 quantity) p) as (H1 & H2 & H3).
  split; [exact H1|]. split; [exact H2|].
  rewrite H3, py_range_length. do 3 f_equal. lia.
Qed.

(** The pieces [Game.setup] hands to the two players. *)
Lemma setup_pieces (height width : Z) (splitp1 splitp2 : string * string) :
  let total := height * width in
  let g := setup height width splitp1 splitp2 in
  pieces (player1 g)
  = (repeat (new_piece (snd splitp1))
       (Z.to_nat (if negb (total mod 2 =? 0) then total / 2 + 1 else total / 2))
     ++ repeat TeleportPiece (Z.to_nat (total / 10))
     ++ repeat BombPiece (Z.to_nat (total / 20)))%list
  /\ pieces (player2 g)
     = (repeat (new_piece (snd splitp2)) (Z.to_nat (total / 2))
        ++ repeat TeleportPiece (Z.to_nat (total / 10))
        ++ repeat BombPiece (Z.to_nat (total / 20)))%list.
Proof.
  cbv zeta. unfold setup. cbv zeta. cbn [player1 player2].
  split.
  - repeat match goal with
           | |- context [pieces (add_piece ?p ?s ?q)] =>
               let H := fresh in
               destruct (add_piece_spec p s q) as (_ & _ & H); rewrite H; clear H
           end.
    cbn [pieces app]. rewrite <- app_assoc. reflexivity.
  - repeat match goal with
           | |- context [pieces (add_piece ?p ?s ?q)] =>
               let H := fresh in
               destruct (add_piece_spec p s q) as (_ & _ & H); rewrite H; clear H
           end.
    cbn [pieces app]. rewrite <- app_assoc. reflexivity.
Qed.

Lemma Forall_repeat {A} (P : A -> Prop) (x : A) (n : nat) :
  P x -> Forall P (repeat x n).
Proof. intros H. induction n; cbn [repeat]; constructor; assumption. Qed.

(** ** Height above the floor *)

Lemma rows_above_floor_alter (f : list string -> list string)
  (g : list (list string)) (n : nat) (r : list string) :
  g !! n = Some r ->
  (rows_above_floor (alter f n g) + count_occupied r * (length g - S n)
   = rows_above_floor g + count_occupied (f r) * (length g - S n))%nat.
Proof.
  revert n. induction g as [|r0 g IH]; intros n Hr; [discriminate|].
  destruct n as [|n]; cbn [rows_above_floor length] in *.
  - injection Hr as ->. cbn [alter list_alter rows_above_floor].
    replace (S (length g) - 1)%nat with (length g) by lia. lia.
  - specialize (IH n Hr).
    change (alter f (S n) (r0 :: g)) with (r0 :: alter f n g).
    cbn [rows_above_floor]. rewrite length_alter.
    replace (S (length g) - S (S n))%nat with (length g - S n)%nat by lia.
    lia.
Qed.

(** Replacing a slot changes the height above the floor by the rows beneath
    the slot, counted for the new content and discounted for the old. *)
Lemma height_above_floor_put (b : Board) (row column : Z) (v : string) :
  well_formed b -> in_grid b row column = true ->
  (height_above_floor (put b row column v)
   + weight (cell b row column) * Z.to_nat (rows b - 1 - row)
   = height_above_floor b + weight v * Z.to_nat (rows b - 1 - row))%nat.
Proof.
  intros Hwf Hin. destruct (on_board_lookup b row column Hwf Hin) as (r & Hr & _ & Hx).
  apply in_grid_bounds in Hin. destruct Hwf as [Hlen _].
  unfold height_above_floor, put. cbn [grid].
  pose proof (rows_above_floor_alter
                (fun r => <[Z.to_nat column := v]> r) _ _ _ Hr) as H1.
  pose proof (count_occupied_insert r (Z.to_nat column) _ v Hx) as H2.
  cbv beta in H1.
  replace (length (grid b) - S (Z.to_nat row))%nat
    with (Z.to_nat (rows b - 1 - row)) in H1 by lia.
  nia.
Qed.

(** A move lowers the height above the floor of the board by exactly one. *)
Lemma move_height_above_floor (b : Board) (row column : Z) :
  well_formed b -> 0 <= row -> row + 1 < rows b -> 0 <= column < columns b ->
  floating b row column = true ->
  S (height_above_floor (move b row column)) = height_above_floor b.
Proof.
  intros Hwf Hr0 Hr1 Hc Hfl. apply floating_true in Hfl as [Ox Oy].
  assert (Hin : in_grid b row column = true) by (apply in_grid_bounds; lia).
  assert (Hin' : in_grid b (row + 1) column = true) by (apply in_grid_bounds; lia).
  pose proof (put_well_formed b (row + 1) column (cell b row column) Hwf) as Hwf1.
  pose proof (height_above_floor_put b (row + 1) column (cell b row column) Hwf Hin') as H1.
  pose proof (height_above_floor_put _ row column blank Hwf1 Hin) as H2.
  rewrite cell_put_other in H2 by (assumption || lia).
  rewrite put_rows in H2.
  rewrite (weight_occupied _ Ox) in H1, H2. rewrite (weight_blank _ Oy) in H1.
  rewrite (weight_blank blank eq_refl) in H2.
  unfold move.
  replace (Z.to_nat (rows b - 1 - row)) with (S (Z.to_nat (rows b - 1 - (row + 1))))
    in H2 by lia.
  lia.
Qed.
(** ** Gravity: the invariant and termination *)

(** C7. Whatever pieces are inserted in whatever columns of a new board,
    every insertion returns, and on the board it leaves no occupied slot has
    a blank slot directly beneath it. *)
Theorem placement_leaves_no_floating_piece (height width : Z)
  (moves : list (Piece * Z)) :
  exists b,
    insert_all (Board_init height width) moves = Ok b
    /\ well_formed b /\ no_floating b.
Proof.
  destruct (insert_all_settles moves (Board_init height width))
    as (b & H & Hwf & Hnf & _).
  - apply Board_init_well_formed.
  - apply Board_init_no_floating.
  - exists b. auto.
Qed.

(** C9. On a well formed board every move of the sweep lowers the total
    height above support by exactly one, whether the height of a piece is
    counted in blank slots beneath it or in rows above the bottom of the
    board, and the loop of sweeps returns as soon as it is given more sweeps
    than the first of these totals. *)
Theorem gravity_loop_terminates (b : Board) :
  well_formed b ->
  (forall row column moved,
     0 <= row -> row + 1 < rows b -> 0 <= column < columns b ->
     floating b row column = true ->
     exists b',
       fall column (b, moved) row = Ok (b', true)
       /\ S (height_above_support b') = height_above_support b
       /\ S (height_above_floor b') = height_above_floor b)
  /\ (exists b',
        forall fuel, (height_above_support b < fuel)%nat ->
                     gravity_loop fuel b = Ok b').
Proof.
  intros Hwf. split.
  - intros row column moved Hr0 Hr1 Hc Hfl. exists (move b row column).
    rewrite fall_spec, Hfl by assumption. split; [reflexivity|].
    split; [apply move_height|apply move_height_above_floor]; assumption.
  - destruct (gravity_loop_settles (S (height_above_support b)) b Hwf)
      as (b' & H & _); [lia|].
    exists b'. intros fuel Hfuel.
    apply (gravity_loop_more_fuel _ _ _ _ H). lia.
Qed.

Lemma gravity_loop_terminates_witness :
  well_formed floating_board
  /\ (forall row column moved,
        0 <= row -> row + 1 < rows floating_board ->
        0 <= column < columns floating_board ->
        floating floating_board row column = true ->
        exists b',
          fall column (floating_board, moved) row = Ok (b', true)
          /\ S (height_above_support b') = height_above_support floating_board
          /\ S (height_above_floor b') = height_above_floor floating_board)
  /\ (exists b',
        forall fuel, (height_above_support floating_board < fuel)%nat ->
                     gravity_loop fuel floating_board = Ok b').
Proof.
  assert (H : well_formed floating_board)
    by (split; [reflexivity|repeat constructor]).
  split; [exact H|]. exact (gravity_loop_terminates floating_board H).
Defined.

(** Gravity on the sample board: three moves in two sweeps, then a sweep
    that moves nothing. *)
Example gravity_floating_board :
  height_above_support floating_board = 3%nat
  /\ gravity floating_board
     = Ok (mkBoard 3 2 [[" "; " "]; [" "; " "]; ["X"; "O"]]).
Proof. split; reflexivity. Qed.

(** ** The swap *)


Lemma sample_game_well_formed : well_formed (board sample_game).
Proof. apply Board_init_well_formed. Qed.


(** ** The end of a turn *)

Lemma tbind_returned {A B} (m : traced A) (k : A -> traced B)
  (t : list (Z * Z)) (a : A) :
  m = (t, Ok a) ->
  tbind m k = ((t ++ fst (k a))%list, snd (k a)).
Proof. intros ->. unfold tbind. destruct (k a). reflexivity. Qed.

(** The turn after a successful insertion, from what its three searches
    return. *)
Lemma turn_concludes (g : Game) (selection : option (string * Z))
  (chooser : Player) (piece : Piece) (column : Z) (b' : Board)
  (t0 t1 t2 : list (Z * Z)) (inserted_row : Z) (cw ow : bool) :
  pieces (player_at g (current_player g)) <> [] ->
  choose_piece (player_at g (current_player g)) selection
  = (chooser, Some (piece, column)) ->
  insert piece (board g) column = Ok (b', true) ->
  find_inserted_row b' (piece_symbol piece) (column - 1)
    (py_range 0 (rows b')) (-1) = (t0, Ok inserted_row) ->
  current_player_check b' (piece_symbol piece) inserted_row (column - 1)
  = (t1, Ok cw) ->
  otherplayer_check b' (symbol (player_at g (other (current_player g))))
  = (t2, Ok ow) ->
  turn g selection
  = ((t0 ++ t1 ++ t2)%list,
     Ok (conclude (with_board (with_player g (current_player g) chooser) b')
           cw ow)).
Proof.
  intros Hpieces Hchoose Hinsert Hfind Hcur Hoth. unfold turn. cbv zeta.
  destruct (pieces (player_at g (current_player g))) as [|q qs] eqn:Hps;
    [congruence|]. cbn [length Nat.eqb].
  rewrite Hchoose.
  replace (board (with_player g (current_player g) chooser)) with (board g)
    by (destruct (current_player g); reflexivity).
  rewrite Hinsert, tbind_untraced. cbn [negb].
  rewrite (tbind_returned _ _ _ _ Hfind).
  rewrite (tbind_returned _ _ _ _ Hcur).
  rewrite (tbind_returned _ _ _ _ Hoth).
  cbn [tret fst snd]. rewrite app_nil_r. reflexivity.
Qed.



(** [draw_game] is reached by play: bob's bomb lines up four of his pieces,
    on his own turn nothing is announced, and ann is left to complete a
    column. *)
Example draw_game_reached :
  exists t, turns sample_game draw_lines = (t, Ok (draw_game, InProgress)).
Proof. eexists. vm_compute. reflexivity. Qed.

(** When only the other player's check finds four in a row, the name in the
    announcement is still the current player's. *)
Lemma conclude_otherplayer_only (g : Game) :
  conclude g false true = (g, Win (name (player_at g (current_player g)))).
Proof. reflexivity. Qed.

Lemma conclude_current_player_only (g : Game) :
  conclude g true false = (g, Win (name (player_at g (current_player g)))).
Proof. reflexivity. Qed.

(** C1. In the sample game ann's teleport moves a fourth piece of bob onto
    his column: only the check of the other player finds four in a row, and
    the turn announces ann, who moved, not bob. *)
Theorem opponent_run_announces_mover :
  (exists g,
     snd (turns sample_game cross_turn_lines) = Ok (g, Win "ann")
     /\ board g = cross_turn_board
     /\ current_player g = First
     /\ name (player1 g) = "ann" /\ name (player2 g) = "bob"
     /\ symbol (player2 g) = "O")
  /\ snd (otherplayer_check cross_turn_board "O") = Ok true
  /\ snd (current_player_check cross_turn_board "T" (-1) 0) = Ok false.
Proof.
  split; [|split; vm_compute; reflexivity].
  eexists. split; [vm_compute; reflexivity|].
  repeat split; vm_compute; reflexivity.
Qed.

(** ** Rejected selections *)

Lemma with_player_same (g : Game) :
  with_player g (current_player g) (player_at g (current_player g)) = g.
Proof. destruct g as [b p1 p2 []]; reflexivity. Qed.

(** A selection that names no piece of the collection changes nothing. *)
Lemma turn_without_piece (g : Game) (selection : option (string * Z))
  (chooser : Player) :
  pieces (player_at g (current_player g)) <> [] ->
  choose_piece (player_at g (current_player g)) selection = (chooser, None) ->
  turn g selection = ([], Ok (g, InProgress)).
Proof.
  intros Hpieces Hchoose. unfold turn. cbv zeta.
  destruct (pieces (player_at g (current_player g))) as [|q qs] eqn:Hps;
    [congruence|]. cbn [length Nat.eqb].
  rewrite Hchoose.
  apply choose_piece_spec in Hchoose as (_ & _ & ->).
  rewrite with_player_same. reflexivity.
Qed.

(** A selection whose insertion is refused leaves the turn to the same
    player, but the chosen piece has left the collection. *)
Lemma turn_rejected (g : Game) (selection : option (string * Z))
  (chooser : Player) (piece : Piece) (column : Z) (b' : Board) :
  pieces (player_at g (current_player g)) <> [] ->
  choose_piece (player_at g (current_player g)) selection
  = (chooser, Some (piece, column)) ->
  insert piece (board g) column = Ok (b', false) ->
  turn g selection
  = ([], Ok (with_board (with_player g (current_player g) chooser) b',
             InProgress))
  /\ length (pieces (player_at g (current_player g)))
     = S (length (pieces chooser)).
Proof.
  intros Hpieces Hchoose Hinsert. split.
  - unfold turn. cbv zeta.
    destruct (pieces (player_at g (current_player g))) as [|q qs] eqn:Hps;
      [congruence|]. cbn [length Nat.eqb].
    rewrite Hchoose.
    replace (board (with_player g (current_player g) chooser)) with (board g)
      by (destruct (current_player g); reflexivity).
    rewrite Hinsert, tbind_untraced. reflexivity.
  - apply choose_piece_spec in Hchoose as (_ & _ & Hlen). exact Hlen.
Qed.

Example full_column_game_reached :
  exists t,
    turns (setup 2 2 ("ann", "X") ("bob", "O")) [("X", 1); ("O", 1)]
    = (t, Ok (full_column_game, InProgress)).
Proof. eexists. vm_compute. reflexivity. Qed.

(** C2. A selection of a column off the board, and a selection of a full
    column, leave the board and the player to move as they were, but the
    chosen piece is gone from the collection of the player. *)
Theorem rejected_placement_consumes_piece :
  (exists g',
     turn sample_game (Some ("X", 9)) = ([], Ok (g', InProgress))
     /\ board g' = board sample_game
     /\ current_player g' = current_player sample_game
     /\ length (pieces (player1 sample_game)) = 27%nat
     /\ length (pieces (player1 g')) = 26%nat)
  /\ (exists g',
        turn full_column_game (Some ("X", 1)) = ([], Ok (g', InProgress))
        /\ board g' = board full_column_game
        /\ current_player g' = current_player full_column_game
        /\ pieces (player1 full_column_game) = [StandardPiece "X"]
        /\ pieces (player1 g') = []).
Proof.
  split.
  - eexists. split; [vm_compute; reflexivity|].
    repeat split; vm_compute; reflexivity.
  - eexists. split; [vm_compute; reflexivity|].
    repeat split; vm_compute; reflexivity.
Qed.

(** ** Reads of the win checks *)

(** C3. After the first player's bomb on the second column of the empty
    sample board, the check of the current player reads the grid at row -1:
    the bomb is no longer in its column, the inserted row stays -1 and is
    used as a subscript. *)
Theorem bomb_turn_reads_row_minus_one :
  (exists g', snd (turn sample_game (Some ("B", 2))) = Ok (g', InProgress))
  /\ rows (board sample_game) = 6
  /\ In (-1, 0) (fst (turn sample_game (Some ("B", 2))))
  /\ In (-1, 2) (fst (turn sample_game (Some ("B", 2)))).
Proof.
  split; [eexists; vm_compute; reflexivity|].
  split; [reflexivity|].
  split; vm_compute; repeat (first [left; reflexivity | right]).
Qed.

(** X20. A successful standard insertion leaves its symbol in the column,
    and every read of the turn is then a slot of the board. *)
Lemma standard_turn_reads_on_board (g : Game)
  (selection : option (string * Z)) (chooser : Player) (s : string)
  (column : Z) (b' : Board) :
  well_formed (board g) ->
  pieces (player_at g (current_player g)) <> [] ->
  choose_piece (player_at g (current_player g)) selection
  = (chooser, Some (StandardPiece s, column)) ->
  insert (StandardPiece s) (board g) column = Ok (b', true) ->
  reads_within 0 0 b' (fun _ => True) (turn g selection).
Proof.
  intros Hwf Hpieces Hchoose Hinsert.
  destruct (insert_success _ _ _ _ Hwf Hinsert) as (Hc & row & Hlow).
  pose proof (lowest_blank_Some _ _ _ Hlow) as (Hrow & _).
  assert (Hb' : b' = put (board g) row (column - 1) s).
  { cbn [insert] in Hinsert. rewrite Piece_insert_spec in Hinsert by exact Hwf.
    replace ((0 <=? column - 1) && (column - 1 <? columns (board g)))
      with true in Hinsert by lia.
    unfold place in Hinsert. rewrite Hlow in Hinsert.
    injection Hinsert as <-. reflexivity. }
  assert (Hin : in_grid (board g) row (column - 1) = true)
    by (apply in_grid_bounds; lia).
  eapply reads_within_weaken.
  - apply (turn_placed 0 g selection chooser (StandardPiece s) column b'
             Hpieces Hchoose Hinsert).
    + subst b'. apply put_well_formed. exact Hwf.
    + subst b'. rewrite put_rows. lia.
    + subst b'. rewrite put_columns. exact Hc.
    + right. split; [reflexivity|]. exists row. subst b'.
      rewrite put_rows. split; [exact Hrow|].
      apply cell_put_same; assumption.
  - intros r _. exact I.
Qed.
(** ** The bomb and the landing row *)

(** When no slot beneath the landing row holds a "B", the explosion is
    centred on the landing slot: the slots of the board next to it are
    blanked, the others are kept, and gravity runs on the result. *)
Lemma bomb_clears_neighbourhood (b : Board) (column row : Z) :
  well_formed b -> 0 <= column - 1 < columns b ->
  lowest_blank b (column - 1) = Some row ->
  (forall row', row < row' < rows b -> cell b row' (column - 1) <> "B") ->
  exists b2 b3,
    BombPiece_insert_undecorated b column = Ok (b2, true)
    /\ (forall i j, in_grid b i j = true ->
          cell b2 i j
          = if adjacent row (column - 1) i j then blank else cell b i j)
    /\ gravity b2 = Ok b3
    /\ BombPiece_insert b column = Ok (b3, true).
Proof.
  intros Hwf Hc Hlow Hfresh.
  pose proof (lowest_blank_Some _ _ _ Hlow) as (Hrow & _).
  assert (Hin : in_grid b row (column - 1) = true) by (apply in_grid_bounds; lia).
  pose proof (put_well_formed b row (column - 1) "B" Hwf) as Hwf1.
  destruct (detonate_spec (put b row (column - 1) "B") row (column - 1) Hwf1)
    as (b2 & Hdet & Hwf2 & _ & _ & Hcell).
  destruct (gravity_settles b2 Hwf2) as (b3 & Hg & _).
  assert (Hund : BombPiece_insert_undecorated b column = Ok (b2, true)).
  { rewrite (BombPiece_insert_undecorated_spec b column row Hwf Hc Hlow).
    rewrite lowest_symbol_fresh by assumption. rewrite Hdet. reflexivity. }
  exists b2, b3. split; [exact Hund|]. split.
  - intros i j Hij. pose proof Hij as Hb. apply in_grid_bounds in Hb.
    rewrite Hcell by exact Hij.
    destruct (adjacent row (column - 1) i j) eqn:Hadj; [reflexivity|].
    apply cell_put_other; try assumption; try lia.
    unfold adjacent in Hadj.
    destruct (Z.eq_dec i row) as [->|]; [|lia].
    destruct (Z.eq_dec j (column - 1)) as [->|]; [|lia].
    rewrite !Z.sub_diag in Hadj. discriminate Hadj.
  - split; [exact Hg|].
    unfold BombPiece_insert, gravity_decorator. rewrite Hund. cbn [bind].
    rewrite Hg. reflexivity.
Qed.

Example marked_bomb_board_reached :
  insert_all (Board_init 4 3) marked_bomb_moves = Ok marked_bomb_board.
Proof. vm_compute. reflexivity. Qed.


(** ** The teleport and the landing row *)

(** When no slot beneath the landing row holds a "T", the teleport leaves
    its own slot blank again and the swap is made from the landing slot:
    the board is the one before the insertion, with the symbol at the
    mirrored position, if any, moved to the lowest blank row of the
    teleport's column; gravity runs on the result. *)
Lemma teleport_swaps_mirror (b : Board) (column row : Z) :
  well_formed b -> 0 <= column - 1 < columns b ->
  lowest_blank b (column - 1) = Some row ->
  (forall row', row < row' < rows b -> cell b row' (column - 1) <> "T") ->
  TeleportPiece_insert_undecorated b column
  = Ok (swap_from b row (column - 1), true)
  /\ TeleportPiece_insert b column
     = (b' <- gravity (swap_from b row (column - 1)) ; Ok (b', true)).
Proof.
  intros Hwf Hc Hlow Hfresh.
  pose proof (lowest_blank_Some _ _ _ Hlow) as (Hrow & Hfree & _).
  assert (Hin : in_grid b row (column - 1) = true) by (apply in_grid_bounds; lia).
  assert (Hund : TeleportPiece_insert_undecorated b column
                 = Ok (swap_from b row (column - 1), true)).
  { rewrite (TeleportPiece_insert_undecorated_spec b column row Hwf Hc Hlow).
    cbv zeta. rewrite lowest_symbol_fresh by assumption.
    rewrite put_put_same. apply occupied_false in Hfree.
    rewrite <- Hfree. rewrite put_same_cell by assumption. reflexivity. }
  split; [exact Hund|].
  unfold TeleportPiece_insert, gravity_decorator. rewrite Hund. reflexivity.
Qed.

(** The swap on a board where nothing floats, spelled out. *)
Lemma swap_from_cases (b : Board) (row column_i0 : Z) :
  let mirrored_row := (rows b - 1) - row in
  let mirrored_column := (columns b - 1) - column_i0 in
  (occupied (cell b mirrored_row mirrored_column) = false ->
   swap_from b row column_i0 = b)
  /\ (occupied (cell b mirrored_row mirrored_column) = true ->
      swap_from b row column_i0
      = fst (place (put b mirrored_row mirrored_column blank)
               (cell b mirrored_row mirrored_column) column_i0)).
Proof.
  cbv zeta. unfold swap_from, mirrored. cbv zeta.
  split; intros ->; reflexivity.
Qed.

Example marked_teleport_board_reached :
  insert_all (Board_init 4 3) marked_teleport_moves = Ok marked_teleport_board.
Proof. vm_compute. reflexivity. Qed.


(** ** More on collections and allocation *)

Lemma pop_symbol_first (chosen : string) (ps : list Piece) :
  match pop_symbol chosen ps with
  | Some (q, rest) =>
      piece_symbol q = chosen
      /\ exists before after,
           ps = (before ++ q :: after)%list
           /\ rest = (before ++ after)%list
           /\ Forall (fun x => String.eqb (piece_symbol x) chosen = false) before
  | None => Forall (fun x => String.eqb (piece_symbol x) chosen = false) ps
  end.
Proof.
  induction ps as [|p ps IH]; cbn [pop_symbol]; [constructor|].
  destruct (String.eqb (piece_symbol p) chosen) eqn:E.
  - split; [apply String.eqb_eq; exact E|].
    exists [], ps. split; [reflexivity|]. split; [reflexivity|constructor].
  - destruct (pop_symbol chosen ps) as [[q rest]|].
    + destruct IH as (Hq & before & after & -> & -> & Hbefore).
      split; [exact Hq|]. exists (p :: before), after.
      split; [reflexivity|]. split; [reflexivity|].
      constructor; assumption.
    + constructor; assumption.
Qed.

(** X1. [Player.choose_piece] on a well formed line removes the first piece
    of the collection that has the chosen symbol, keeps the others in their
    order and returns that piece with the column of the line; when no piece
    has the symbol it returns [None] and the player is unchanged. *)
Theorem choose_piece_takes_first (p : Player) (chosen : string) (column : Z) :
  match choose_piece p (Some (chosen, column)) with
  | (p', Some (q, column')) =>
      column' = column /\ piece_symbol q = chosen
      /\ name p' = name p /\ symbol p' = symbol p
      /\ exists before after,
           pieces p = (before ++ q :: after)%list
           /\ pieces p' = (before ++ after)%list
           /\ Forall (fun x => String.eqb (piece_symbol x) chosen = false)
                before
  | (p', None) =>
      p' = p
      /\ Forall (fun x => String.eqb (piece_symbol x) chosen = false) (pieces p)
  end.
Proof.
  unfold choose_piece. pose proof (pop_symbol_first chosen (pieces p)) as H.
  destruct (pop_symbol chosen (pieces p)) as [[q rest]|].
  - destruct H as (Hq & before & after & Hps & -> & Hbefore).
    split; [reflexivity|]. split; [exact Hq|].
    split; [reflexivity|]. split; [reflexivity|].
    exists before, after. auto.
  - auto.
Qed.

(** X2. [Game.setup] gives the first player as many pieces of the own symbol
    as the second, plus one when the board has an odd number of slots, so
    that the two allocations add up to rows times columns; each player also
    gets a tenth of that number in teleports and a twentieth in bombs,
    rounded down. *)
Theorem setup_allocation (height width : Z) (splitp1 splitp2 : string * string) :
  let total := height * width in
  let g := setup height width splitp1 splitp2 in
  exists quantityp1 quantityp2,
    quantityp1 + quantityp2 = total
    /\ (quantityp1 = quantityp2 \/ quantityp1 = quantityp2 + 1)
    /\ pieces (player1 g)
       = (repeat (new_piece (snd splitp1)) (Z.to_nat quantityp1)
          ++ repeat TeleportPiece (Z.to_nat (total / 10))
          ++ repeat BombPiece (Z.to_nat (total / 20)))%list
    /\ pieces (player2 g)
       = (repeat (new_piece (snd splitp2)) (Z.to_nat quantityp2)
          ++ repeat TeleportPiece (Z.to_nat (total / 10))
          ++ repeat BombPiece (Z.to_nat (total / 20)))%list
    /\ name (player1 g) = fst splitp1 /\ symbol (player1 g) = snd splitp1
    /\ name (player2 g) = fst splitp2 /\ symbol (player2 g) = snd splitp2
    /\ board g = Board_init height width /\ current_player g = First.
Proof.
  cbv zeta. destruct (setup_pieces height width splitp1 splitp2) as [H1 H2].
  cbv zeta in H1, H2.
  exists (if negb (height * width mod 2 =? 0)
          then height * width / 2 + 1 else height * width / 2),
         (height * width / 2).
  split.
  { pose proof (Z.div_mod (height * width) 2 ltac:(lia)) as Hdm.
    pose proof (Z.mod_pos_bound (height * width) 2 ltac:(lia)) as Hb.
    destruct (Z.eqb_spec (height * width mod 2) 0); cbn [negb]; lia. }
  split.
  { destruct (negb _); [right|left]; reflexivity. }
  split; [exact H1|]. split; [exact H2|].
  unfold setup. cbv zeta. cbn [player1 player2 board current_player].
  repeat match goal with
         | |- context [add_piece ?p ?s ?q] =>
             lazymatch p with
             | context [add_piece] => fail
             | _ => idtac
             end;
             let Hn := fresh in let Hs := fresh in
             destruct (add_piece_spec p s q) as (Hn & Hs & _);
             generalize dependent (add_piece p s q); intros; cbn [name symbol] in *
         end.
  repeat split; congruence.
Qed.

(** ** More on the standard insertion *)

(** X3. On a well formed board [Piece.insert] never raises. It returns
    [False] and leaves the board as it is when the column is not one of
    1..columns or holds no blank slot; otherwise it returns [True], writes
    the symbol in the lowest blank slot of the column and changes no other
    slot. *)
Theorem Piece_insert_lowest_blank (s : string) (b : Board) (column : Z) :
  well_formed b ->
  exists b' inserted,
    Piece_insert s b column = Ok (b', inserted)
    /\ well_formed b' /\ rows b' = rows b /\ columns b' = columns b
    /\ (inserted = false ->
        b' = b
        /\ (column < 1 \/ columns b < column
            \/ forall row, 0 <= row < rows b ->
                           occupied (cell b row (column - 1)) = true))
    /\ (inserted = true ->
        (1 <= column <= columns b)
        /\ exists row,
             (0 <= row < rows b)
             /\ cell b row (column - 1) = blank
             /\ (forall row', row < row' < rows b ->
                              occupied (cell b row' (column - 1)) = true)
             /\ (forall i j, in_grid b i j = true ->
                   cell b' i j
                   = if (i =? row) && (j =? column - 1) then s
                     else cell b i j)
             /\ total_occupied b' = (total_occupied b + weight s)%nat).
Proof.
  intros Hwf. rewrite Piece_insert_spec by exact Hwf.
  destruct ((0 <=? column - 1) && (column - 1 <? columns b)) eqn:E.
  - unfold place. destruct (lowest_blank b (column - 1)) as [row|] eqn:Hlow.
    + pose proof (lowest_blank_Some _ _ _ Hlow) as (Hrow & Hfree & Hbelow).
      assert (Hin : in_grid b row (column - 1) = true)
        by (apply in_grid_bounds; lia).
      eexists _, true. split; [reflexivity|].
      split; [apply put_well_formed; exact Hwf|].
      split; [reflexivity|]. split; [reflexivity|].
      split; [discriminate|]. intros _. split; [lia|].
      exists row. split; [exact Hrow|].
      split; [apply occupied_false; exact Hfree|].
      split; [exact Hbelow|]. split.
      * intros i j Hij. apply in_grid_bounds in Hij.
        apply cell_put; (assumption || lia).
      * pose proof (total_occupied_put b row (column - 1) s Hwf Hin) as Ht.
        rewrite (weight_blank _ Hfree) in Ht. lia.
    + exists b, false. split; [reflexivity|]. split; [exact Hwf|].
      split; [reflexivity|]. split; [reflexivity|].
      split; [|discriminate]. intros _. split; [reflexivity|].
      right. right. apply lowest_blank_None. exact Hlow.
  - exists b, false. split; [reflexivity|]. split; [exact Hwf|].
    split; [reflexivity|]. split; [reflexivity|].
    split; [|discriminate]. intros _. split; [reflexivity|]. lia.
Qed.

Lemma marked_bomb_board_well_formed : well_formed marked_bomb_board.
Proof. split; [reflexivity|]. repeat constructor. Qed.

Lemma Piece_insert_lowest_blank_witness :
  exists b' inserted,
    Piece_insert "O" marked_bomb_board 1 = Ok (b', inserted)
    /\ well_formed b' /\ rows b' = rows marked_bomb_board
    /\ columns b' = columns marked_bomb_board
    /\ (inserted = false ->
        b' = marked_bomb_board
        /\ (1 < 1 \/ columns marked_bomb_board < 1
            \/ forall row, 0 <= row < rows marked_bomb_board ->
                           occupied (cell marked_bomb_board row (1 - 1)) = true))
    /\ (inserted = true ->
        (1 <= 1 <= columns marked_bomb_board)
        /\ exists row,
             (0 <= row < rows marked_bomb_board)
             /\ cell marked_bomb_board row (1 - 1) = blank
             /\ (forall row', row < row' < rows marked_bomb_board ->
                              occupied (cell marked_bomb_board row' (1 - 1)) = true)
             /\ (forall i j, in_grid marked_bomb_board i j = true ->
                   cell b' i j
                   = if (i =? row) && (j =? 1 - 1) then "O"
                     else cell marked_bomb_board i j)
             /\ total_occupied b'
                = (total_occupied marked_bomb_board + weight "O")%nat).
Proof.
  exact (Piece_insert_lowest_blank "O" marked_bomb_board 1
           marked_bomb_board_well_formed).
Defined.

(** ** Filling a column *)

Lemma insert_all_app (moves moves' : list (Piece * Z)) :
  forall b : Board,
    insert_all b (moves ++ moves')
    = (b1 <- insert_all b moves ; insert_all b1 moves').
Proof.
  induction moves as [|[p column] moves IH]; intros b; [reflexivity|].
  cbn [app insert_all]. destruct (insert p b column) as [[b1 ok]| |];
    cbn [bind]; [apply IH|reflexivity|reflexivity].
Qed.

Lemma Board_init_rows (height width : Z) : rows (Board_init height width) = height.
Proof. reflexivity. Qed.

Lemma Board_init_columns (height width : Z) :
  columns (Board_init height width) = width.
Proof. reflexivity. Qed.

(** A column that holds the symbol in its [k] lowest rows and blanks above. *)
Lemma stacked_column_insert (b : Board) (s : string) (column : Z) (k : Z) :
  well_formed b -> 1 <= column <= columns b -> occupied s = true ->
  0 <= k <= rows b ->
  (forall i, 0 <= i < rows b ->
             cell b i (column - 1) = if rows b - k <=? i then s else blank) ->
  Piece_insert s b column
  = Ok (if k <? rows b then (put b (rows b - k - 1) (column - 1) s, true)
        else (b, false)).
Proof.
  intros Hwf Hc Hs Hk Hcells. rewrite Piece_insert_spec by exact Hwf.
  replace ((0 <=? column - 1) && (column - 1 <? columns b)) with true by lia.
  unfold place. destruct (lowest_blank b (column - 1)) as [row|] eqn:Hlow.
  - apply lowest_blank_Some in Hlow as (Hrow & Hfree & Hbelow).
    rewrite Hcells in Hfree by exact Hrow.
    destruct (Z.leb_spec (rows b - k) row) as [?|Hlt];
      [rewrite Hs in Hfree; discriminate|].
    destruct (Z.ltb_spec k (rows b)); [|lia].
    assert (row = rows b - k - 1) as ->; [|reflexivity].
    destruct (Z.eq_dec row (rows b - k - 1)) as [?|Hne]; [assumption|].
    specialize (Hbelow (rows b - k - 1) ltac:(lia)).
    rewrite Hcells in Hbelow by lia.
    destruct (Z.leb_spec (rows b - k) (rows b - k - 1)); [lia|].
    discriminate.
  - destruct (Z.ltb_spec k (rows b)) as [Hlt|]; [|reflexivity].
    pose proof (lowest_blank_None _ _ Hlow (rows b - k - 1) ltac:(lia)) as Hocc.
    rewrite Hcells in Hocc by lia.
    destruct (Z.leb_spec (rows b - k) (rows b - k - 1)); [lia|].
    discriminate.
Qed.

(** X4. From the empty board, the first rows-many standard pieces inserted
    in a column of the board are all accepted and stack from the bottom row
    up, nothing else changes, and once the column holds as many pieces as
    the board has rows the next insertion is refused and leaves the board
    as it is. *)
Theorem column_takes_rows_pieces (height width column : Z) (s : string)
  (k : nat) :
  1 <= column <= width -> occupied s = true -> Z.of_nat k <= height ->
  exists b,
    insert_all (Board_init height width) (repeat (StandardPiece s, column) k)
    = Ok b
    /\ well_formed b /\ rows b = height /\ columns b = width
    /\ (forall i j, in_grid b i j = true ->
          cell b i j
          = if (j =? column - 1) && (height - Z.of_nat k <=? i) then s
            else blank)
    /\ (Z.of_nat k = height -> Piece_insert s b column = Ok (b, false)).
Proof.
  intros Hc Hs. induction k as [|k IH]; intros Hk.
  - exists (Board_init height width). split; [reflexivity|].
    split; [apply Board_init_well_formed|].
    split; [reflexivity|]. split; [reflexivity|]. split.
    + intros i j Hij. apply in_grid_bounds in Hij. cbn [rows columns Board_init] in Hij.
      rewrite Board_init_cell.
      destruct (Z.leb_spec (height - Z.of_nat 0) i); [lia|].
      rewrite andb_false_r. reflexivity.
    + intros Hzero.
      pose proof (stacked_column_insert (Board_init height width) s column 0
                    (Board_init_well_formed height width)) as Hins.
      rewrite Board_init_rows, Board_init_columns in Hins.
      rewrite Hins; try (assumption || lia).
      destruct (Z.ltb_spec 0 height); [lia|reflexivity].
  - destruct IH as (b & Hall & Hwf & HR & HC & Hcells & _); [lia|].
    assert (Hstack : forall i, 0 <= i < rows b ->
              cell b i (column - 1)
              = if rows b - Z.of_nat k <=? i then s else blank).
    { intros i Hi. rewrite Hcells by (apply in_grid_bounds; lia).
      rewrite Z.eqb_refl, HR. reflexivity. }
    pose proof (stacked_column_insert b s column (Z.of_nat k) Hwf
                  ltac:(lia) Hs ltac:(lia) Hstack) as Hins.
    destruct (Z.ltb_spec (Z.of_nat k) (rows b)); [|lia].
    set (b' := put b (rows b - Z.of_nat k - 1) (column - 1) s) in *.
    assert (Hin : in_grid b (rows b - Z.of_nat k - 1) (column - 1) = true)
      by (apply in_grid_bounds; lia).
    assert (Hwf' : well_formed b') by (apply put_well_formed; exact Hwf).
    assert (Hcells' : forall i j, in_grid b' i j = true ->
              cell b' i j
              = if (j =? column - 1) && (height - Z.of_nat (S k) <=? i) then s
                else blank).
    { intros i j Hij. pose proof Hij as Hb. apply in_grid_bounds in Hb.
      unfold b' in Hb. rewrite put_rows, put_columns in Hb.
      unfold b'. rewrite cell_put by (assumption || lia).
      rewrite Hcells by (apply in_grid_bounds; lia).
      destruct (Z.eqb_spec j (column - 1)), (Z.eqb_spec i (rows b - Z.of_nat k - 1)),
        (Z.leb_spec (height - Z.of_nat k) i),
        (Z.leb_spec (height - Z.of_nat (S k)) i); cbn [andb]; try reflexivity; lia. }
    exists b'. split.
    { cbn [repeat]. rewrite repeat_cons, insert_all_app, Hall.
      cbn [bind insert_all insert].
      rewrite Hins. reflexivity. }
    split; [exact Hwf'|]. split; [exact HR|]. split; [exact HC|].
    split; [exact Hcells'|].
    intros Hfull.
    rewrite (stacked_column_insert b' s column (Z.of_nat (S k)) Hwf').
    + unfold b'. rewrite put_rows.
      destruct (Z.ltb_spec (Z.of_nat (S k)) (rows b)); [lia|reflexivity].
    + unfold b'. rewrite put_columns. lia.
    + exact Hs.
    + unfold b'. rewrite put_rows. lia.
    + intros i Hi. unfold b' in Hi. rewrite put_rows in Hi.
      rewrite Hcells' by (apply in_grid_bounds; unfold b';
                          rewrite put_rows, put_columns; lia).
      rewrite Z.eqb_refl. unfold b'. rewrite put_rows, HR. reflexivity.
Qed.

Lemma column_takes_rows_pieces_witness :
  (1 <= 3 <= 7) /\ occupied "X" = true /\ Z.of_nat 6 <= 6
  /\ exists b,
       insert_all (Board_init 6 7) (repeat (StandardPiece "X", 3) 6) = Ok b
       /\ well_formed b /\ rows b = 6 /\ columns b = 7
       /\ (forall i j, in_grid b i j = true ->
             cell b i j
             = if (j =? 3 - 1) && (6 - Z.of_nat 6 <=? i) then "X" else blank)
       /\ (Z.of_nat 6 = 6 -> Piece_insert "X" b 3 = Ok (b, false)).
Proof.
  split; [lia|]. split; [reflexivity|]. split; [lia|].
  apply (column_takes_rows_pieces 6 7 3 "X" 6); [lia|reflexivity|lia].
Defined.

(** ** What gravity does to a column *)

Lemma falls_trans (b1 b2 b3 : Board) :
  falls b1 b2 -> falls b2 b3 -> falls b1 b3.
Proof.
  intros H12 H23. induction H12 as [b|b b' row column Hwf Hr0 Hr1 Hc Hfl _ IH];
    [exact H23|].
  eapply falls_move; eauto.
Qed.

Lemma fall_falls (b : Board) (moved : bool) (row column : Z) :
  well_formed b -> 0 <= row -> row + 1 < rows b -> 0 <= column < columns b ->
  exists b' moved',
    fall column (b, moved) row = Ok (b', moved') /\ falls b b'.
Proof.
  intros Hwf Hr0 Hr1 Hc. rewrite fall_spec by assumption.
  destruct (floating b row column) eqn:Hfl.
  - eexists _, _. split; [reflexivity|].
    eapply falls_move; eauto. apply falls_refl.
  - eexists _, _. split; [reflexivity|apply falls_refl].
Qed.

Lemma falls_shape (b b' : Board) :
  falls b b' -> well_formed b ->
  well_formed b' /\ rows b' = rows b /\ columns b' = columns b.
Proof.
  intros H. induction H as [b|b b' row column Hwf Hr0 Hr1 Hc Hfl _ IH];
    intros Hwf0; [auto|].
  destruct (IH (move_well_formed _ _ _ Hwf)) as (H1 & H2 & H3).
  split; [exact H1|]. split; [exact H2|exact H3].
Qed.

Lemma fall_rows_falls (rs : list Z) (column : Z) :
  forall (b : Board) (moved : bool),
    well_formed b -> 0 <= column < columns b ->
    (forall row, In row rs -> 0 <= row /\ row + 1 < rows b) ->
    forall b' moved',
      for_each rs (fall column) (b, moved) = Ok (b', moved') -> falls b b'.
Proof.
  induction rs as [|row rs IH]; intros b moved Hwf Hc Hrs b' moved' H.
  - injection H as <- _. apply falls_refl.
  - destruct (Hrs row (or_introl eq_refl)) as [Hr0 Hr1].
    destruct (fall_falls b moved row column Hwf Hr0 Hr1 Hc)
      as (b1 & m1 & Hfall & Hfalls).
    rewrite for_each_cons, Hfall in H. cbn [bind] in H.
    destruct (falls_shape _ _ Hfalls Hwf) as (Hwf1 & HR1 & HC1).
    apply (falls_trans _ b1); [exact Hfalls|].
    apply (IH b1 m1 Hwf1 ltac:(lia)) with (moved' := moved'); [|exact H].
    intros r Hr. rewrite HR1. apply Hrs. right. exact Hr.
Qed.

Lemma sweep_falls (b b' : Board) (moved : bool) :
  well_formed b -> sweep b = Ok (b', moved) -> falls b b'.
Proof.
  intros Hwf. unfold sweep.
  assert (H : forall cs b1 m1,
    well_formed b1 -> rows b1 = rows b -> columns b1 = columns b ->
    (forall column, In column cs -> 0 <= column < columns b) ->
    for_each cs
      (fun st column => for_each (py_range_down (rows b - 2)) (fall column) st)
      (b1, m1) = Ok (b', moved) -> falls b1 b').
  { induction cs as [|column cs IH]; intros b1 m1 Hwf1 HR1 HC1 Hcs H.
    - injection H as <- _. apply falls_refl.
    - rewrite for_each_cons in H.
      destruct (for_each (py_range_down (rows b - 2)) (fall column) (b1, m1))
        as [[b2 m2]| |] eqn:Hrows; cbn [bind] in H; try discriminate.
      assert (Hfalls : falls b1 b2).
      { apply (fall_rows_falls (py_range_down (rows b - 2)) column b1 m1 Hwf1)
          with (moved' := m2).
        - rewrite HC1. apply Hcs. left. reflexivity.
        - intros row Hrow. apply in_py_range_down in Hrow. lia.
        - exact Hrows. }
      destruct (falls_shape _ _ Hfalls Hwf1) as (Hwf2 & HR2 & HC2).
      apply (falls_trans _ b2); [exact Hfalls|].
      apply (IH b2 m2 Hwf2); [congruence|congruence| |exact H].
      intros c Hc. apply Hcs. right. exact Hc. }
  apply H; try reflexivity; [exact Hwf|].
  intros c Hc. apply in_py_range in Hc. lia.
Qed.

Lemma gravity_loop_falls (fuel : nat) :
  forall b b' : Board,
    well_formed b -> gravity_loop fuel b = Ok b' -> falls b b'.
Proof.
  induction fuel as [|fuel IH]; intros b b' Hwf H; [discriminate|].
  cbn [gravity_loop] in H.
  destruct (sweep b) as [[b1 m]| |] eqn:Hsweep; cbn [bind] in H;
    try discriminate.
  pose proof (sweep_falls _ _ _ Hwf Hsweep) as Hfalls.
  destruct m.
  - destruct (falls_shape _ _ Hfalls Hwf) as (Hwf1 & _).
    apply (falls_trans _ b1); [exact Hfalls|]. apply IH; assumption.
  - injection H as <-. exact Hfalls.
Qed.

(** A piece that moves down one slot into a blank keeps the pieces of the
    column and their order. *)
Lemma filter_occupied_move (cells : list string) (r : nat) (x y : string) :
  cells !! r = Some x -> cells !! S r = Some y ->
  occupied x = true -> occupied y = false ->
  List.filter occupied (<[r := blank]> (<[S r := x]> cells))
  = List.filter occupied cells.
Proof.
  revert r. induction cells as [|z cells IH]; intros r Hx Hy Ox Oy;
    [discriminate|].
  destruct r as [|r].
  - cbn in Hx. injection Hx as ->. destruct cells as [|y' cells]; [discriminate|].
    cbn in Hy. injection Hy as ->. cbn. rewrite Ox, Oy. reflexivity.
  - cbn in Hx, Hy.
    change (<[S r := blank]> (<[S (S r) := x]> (z :: cells)))
      with (z :: <[r := blank]> (<[S r := x]> cells)).
    cbn [List.filter]. rewrite (IH r Hx Hy Ox Oy). reflexivity.
Qed.

Lemma move_column_pieces (b : Board) (row column : Z) (c : nat) :
  well_formed b -> 0 <= row -> row + 1 < rows b -> 0 <= column < columns b ->
  floating b row column = true ->
  List.filter occupied (column_cells (grid (move b row column)) c)
  = List.filter occupied (column_cells (grid b) c).
Proof.
  intros Hwf Hr0 Hr1 Hc Hfl. apply floating_true in Hfl as [Ox Oy].
  assert (Hin : in_grid b row column = true) by (apply in_grid_bounds; lia).
  assert (Hin' : in_grid b (row + 1) column = true) by (apply in_grid_bounds; lia).
  pose proof (put_well_formed b (row + 1) column (cell b row column) Hwf) as Hwf1.
  unfold move.
  rewrite column_cells_put by assumption.
  rewrite column_cells_put by assumption.
  destruct (decide (c = Z.to_nat column)) as [->|]; [|reflexivity].
  replace (Z.to_nat (row + 1)) with (S (Z.to_nat row)) by lia.
  pose proof (column_cells_cell b row column Hwf Hin) as Hx.
  pose proof (column_cells_cell b (row + 1) column Hwf Hin') as Hy.
  replace (Z.to_nat (row + 1)) with (S (Z.to_nat row)) in Hy by lia.
  apply (filter_occupied_move _ _ _ _ Hx Hy Ox Oy).
Qed.

Lemma falls_column_pieces (b b' : Board) (c : nat) :
  falls b b' ->
  List.filter occupied (column_cells (grid b') c)
  = List.filter occupied (column_cells (grid b) c).
Proof.
  intros H. induction H as [b|b b' row column Hwf Hr0 Hr1 Hc Hfl _ IH];
    [reflexivity|].
  rewrite IH. apply move_column_pieces; assumption.
Qed.

Lemma count_blank_filter (cells : list string) :
  length cells = (count_blank cells + length (List.filter occupied cells))%nat.
Proof.
  induction cells as [|x cells IH]; [reflexivity|].
  cbn [count_blank List.filter length]. destruct (occupied x); cbn [length]; lia.
Qed.

(** A column in which no piece has a blank right beneath it is its blanks
    followed by its pieces. *)
Lemma settled_column_shape (cells : list string) :
  (forall i x y, cells !! i = Some x -> cells !! S i = Some y ->
                 occupied x = true -> occupied y = true) ->
  cells = settled_column cells.
Proof.
  unfold settled_column. induction cells as [|x cells IH]; intros H;
    [reflexivity|].
  assert (Htail : forall i x' y, cells !! i = Some x' -> cells !! S i = Some y ->
                                 occupied x' = true -> occupied y = true).
  { intros i x' y Hx Hy. apply (H (S i) x' y); assumption. }
  cbn [count_blank List.filter]. destruct (occupied x) eqn:Ox.
  - assert (Hall : forall l : list string,
              (forall i x' y, (x :: l) !! i = Some x' -> (x :: l) !! S i = Some y ->
                              occupied x' = true -> occupied y = true) ->
              count_blank l = 0%nat /\ List.filter occupied l = l).
    { clear -Ox. intros l. revert x Ox. induction l as [|y l IHl]; intros x Ox Hl;
        [split; reflexivity|].
      pose proof (Hl 0%nat x y eq_refl eq_refl Ox) as Oy.
      destruct (IHl y Oy) as [Hc Hf].
      { intros i x' y' Hx Hy. apply (Hl (S i) x' y'); assumption. }
      cbn [count_blank List.filter]. rewrite Oy, Hc, Hf. split; reflexivity. }
    destruct (Hall cells H) as [Hc Hf]. rewrite Hc, Hf. reflexivity.
  - apply occupied_false in Ox. subst x. cbn [repeat app Nat.add].
    f_equal. apply IH. exact Htail.
Qed.

Lemma no_floating_column (b : Board) (c : nat) :
  well_formed b -> no_floating b -> (Z.of_nat c < columns b) ->
  column_cells (grid b) c = settled_column (column_cells (grid b) c).
Proof.
  intros Hwf Hnf Hc. apply settled_column_shape. intros i x y Hx Hy Ox.
  assert (Hi : (S i < length (grid b))%nat).
  { apply lookup_lt_Some in Hy. rewrite column_cells_length in Hy. exact Hy. }
  destruct Hwf as [Hlen Hrows]. pose proof (conj Hlen Hrows) as Hwf.
  assert (Hin : in_grid b (Z.of_nat i) (Z.of_nat c) = true)
    by (apply in_grid_bounds; lia).
  assert (Hin' : in_grid b (Z.of_nat i + 1) (Z.of_nat c) = true)
    by (apply in_grid_bounds; lia).
  pose proof (column_cells_cell b _ _ Hwf Hin) as Hx'.
  pose proof (column_cells_cell b _ _ Hwf Hin') as Hy'.
  rewrite !Nat2Z.id in Hx'. rewrite Nat2Z.id in Hy'.
  replace (Z.to_nat (Z.of_nat i + 1)) with (S i) in Hy' by lia.
  rewrite Hx in Hx'. rewrite Hy in Hy'. injection Hx' as ->. injection Hy' as ->.
  pose proof (Hnf (Z.of_nat i) (Z.of_nat c) ltac:(lia) ltac:(lia) ltac:(lia)) as Hfl.
  unfold floating in Hfl. rewrite Ox in Hfl. cbn [andb] in Hfl.
  apply negb_false_iff in Hfl. exact Hfl.
Qed.

(** X5. Gravity on a well formed board returns, and in the board it returns
    every column is the old column with its blanks on top and its pieces
    beneath them in the order they had; the board keeps its size. *)
Theorem gravity_settles_columns (b : Board) :
  well_formed b ->
  exists b',
    gravity b = Ok b'
    /\ well_formed b' /\ rows b' = rows b /\ columns b' = columns b
    /\ forall c, (Z.of_nat c < columns b) ->
         column_cells (grid b') c = settled_column (column_cells (grid b) c).
Proof.
  intros Hwf.
  destruct (gravity_settles b Hwf) as (b' & Hg & Hwf' & HR & HC & _ & Hnf).
  exists b'. split; [exact Hg|]. split; [exact Hwf'|].
  split; [exact HR|]. split; [exact HC|].
  intros c Hc. rewrite (no_floating_column b' c Hwf' Hnf) by lia.
  pose proof (gravity_loop_falls _ _ _ Hwf Hg) as Hfalls.
  pose proof (falls_column_pieces _ _ c Hfalls) as Hpieces.
  pose proof (count_blank_filter (column_cells (grid b') c)) as L1.
  pose proof (count_blank_filter (column_cells (grid b) c)) as L2.
  rewrite !column_cells_length in L1, L2.
  destruct Hwf as [Hlen _], Hwf' as [Hlen' _].
  unfold settled_column. rewrite Hpieces. f_equal. f_equal.
  rewrite Hpieces in L1. lia.
Qed.

Lemma gravity_settles_columns_witness :
  well_formed floating_board
  /\ exists b',
       gravity floating_board = Ok b'
       /\ well_formed b' /\ rows b' = rows floating_board
       /\ columns b' = columns floating_board
       /\ forall c, (Z.of_nat c < columns floating_board) ->
            column_cells (grid b') c
            = settled_column (column_cells (grid floating_board) c).
Proof.
  assert (H : well_formed floating_board)
    by (split; [reflexivity|repeat constructor]).
  split; [exact H|]. exact (gravity_settles_columns floating_board H).
Defined.

(** X6. Gravity is idempotent on well formed boards, and it returns the
    board it was given exactly when no piece of that board floats. *)
Theorem gravity_idempotent (b : Board) :
  well_formed b ->
  (exists b', gravity b = Ok b' /\ gravity b' = Ok b')
  /\ (gravity b = Ok b <-> no_floating b).
Proof.
  intros Hwf. destruct (gravity_settles b Hwf) as (b' & Hg & Hwf' & _ & _ & _ & Hnf).
  split.
  - exists b'. split; [exact Hg|]. apply gravity_settled; assumption.
  - split.
    + intros Hsame. rewrite Hsame in Hg. injection Hg as <-. exact Hnf.
    + apply gravity_settled. exact Hwf.
Qed.

Lemma gravity_idempotent_witness :
  well_formed floating_board
  /\ (exists b', gravity floating_board = Ok b' /\ gravity b' = Ok b')
  /\ (gravity floating_board = Ok floating_board <-> no_floating floating_board).
Proof.
  assert (H : well_formed floating_board)
    by (split; [reflexivity|repeat constructor]).
  split; [exact H|]. exact (gravity_idempotent floating_board H).
Defined.

(** ** Symbols on the board *)

Lemma cell_move (b : Board) (row column i j : Z) :
  well_formed b -> 0 <= row -> row + 1 < rows b -> 0 <= column < columns b ->
  0 <= i -> 0 <= j ->
  cell (move b row column) i j
  = if (i =? row) && (j =? column) then blank
    else if (i =? row + 1) && (j =? column) then cell b row column
    else cell b i j.
Proof.
  intros Hwf Hr0 Hr1 Hc Hi Hj.
  assert (Hin : in_grid b row column = true) by (apply in_grid_bounds; lia).
  assert (Hin' : in_grid b (row + 1) column = true) by (apply in_grid_bounds; lia).
  unfold move. rewrite cell_put by (try apply put_well_formed; assumption).
  destruct ((i =? row) && (j =? column)); [reflexivity|].
  apply cell_put; assumption.
Qed.

Lemma falls_all_cells (P : string -> Prop) (b b' : Board) :
  P blank -> falls b b' -> all_cells P b -> all_cells P b'.
Proof.
  intros Hblank H. induction H as [b|b b' row column Hwf Hr0 Hr1 Hc Hfl _ IH];
    intros Hall; [exact Hall|].
  apply IH. intros i j Hij. pose proof Hij as Hb. apply in_grid_bounds in Hb.
  cbn [rows columns move put] in Hb.
  rewrite cell_move by (assumption || lia).
  destruct ((i =? row) && (j =? column)); [exact Hblank|].
  destruct ((i =? row + 1) && (j =? column)).
  - apply Hall. apply in_grid_bounds. lia.
  - apply Hall. apply in_grid_bounds. lia.
Qed.

Lemma put_all_cells (P : string -> Prop) (b : Board) (row column : Z)
  (v : string) :
  well_formed b -> in_grid b row column = true -> P v ->
  all_cells P b -> all_cells P (put b row column v).
Proof.
  intros Hwf Hin Hv Hall i j Hij. pose proof Hij as Hb.
  apply in_grid_bounds in Hb. rewrite put_rows, put_columns in Hb.
  rewrite cell_put by (assumption || lia).
  destruct ((i =? row) && (j =? column)); [exact Hv|].
  apply Hall. apply in_grid_bounds. exact Hb.
Qed.

Lemma place_all_cells (P : string -> Prop) (b : Board) (s : string)
  (column_i0 : Z) :
  well_formed b -> 0 <= column_i0 < columns b -> P s ->
  all_cells P b -> all_cells P (fst (place b s column_i0)).
Proof.
  intros Hwf Hc Hs Hall. unfold place.
  destruct (lowest_blank b column_i0) as [row|] eqn:Hlow; [|exact Hall].
  apply lowest_blank_Some in Hlow as (Hrow & _).
  apply put_all_cells; try assumption. apply in_grid_bounds. lia.
Qed.

Lemma swap_from_all_cells (P : string -> Prop) (b : Board)
  (row column_i0 : Z) :
  well_formed b -> in_grid b row column_i0 = true -> P blank ->
  all_cells P b -> all_cells P (swap_from b row column_i0).
Proof.
  intros Hwf Hin Hblank Hall. pose proof Hin as Hb. apply in_grid_bounds in Hb.
  unfold swap_from. cbv zeta.
  destruct (occupied (cell b _ _)); [|exact Hall].
  assert (Hmir : in_grid b (mirrored (rows b) row) (mirrored (columns b) column_i0)
                 = true).
  { apply in_grid_bounds. unfold mirrored. lia. }
  apply place_all_cells.
  - apply put_well_formed. exact Hwf.
  - rewrite put_columns. lia.
  - apply Hall. exact Hmir.
  - apply put_all_cells; assumption.
Qed.

Lemma plain_blank : plain blank.
Proof. split; discriminate. Qed.

Lemma gravity_decorator_all_cells (P : string -> Prop)
  (insert_method : Board -> Z -> result (Board * bool)) (b b1 b' : Board)
  (column : Z) (inserted inserted' : bool) :
  P blank -> insert_method b column = Ok (b1, inserted) ->
  well_formed b1 -> all_cells P b1 ->
  gravity_decorator insert_method b column = Ok (b', inserted') ->
  all_cells P b'.
Proof.
  intros Hblank Hund Hwf1 Hall H. unfold gravity_decorator in H.
  rewrite Hund in H. cbn [bind] in H.
  destruct (gravity b1) as [b2| |] eqn:Hg; cbn [bind] in H; try discriminate.
  injection H as <- _.
  apply (falls_all_cells P b1 b2 Hblank); [|exact Hall].
  apply (gravity_loop_falls _ _ _ Hwf1 Hg).
Qed.

(** The insertion of a piece made by [add_piece] leaves no "B" and no "T"
    on a board that had none. *)
Lemma insert_keeps_plain (p : Piece) (b b' : Board) (column : Z)
  (inserted : bool) :
  well_formed b -> all_cells plain b -> proper p ->
  insert p b column = Ok (b', inserted) -> all_cells plain b'.
Proof.
  intros Hwf Hall Hp H.
  assert (Hfresh : forall s row, (s = "B" \/ s = "T") ->
            0 <= column - 1 < columns b ->
            forall row', row < row' < rows b -> 0 <= row ->
                         cell b row' (column - 1) <> s).
  { intros s row Hs Hc row' Hrow' Hrow.
    destruct (Hall row' (column - 1)) as [HB HT]; [apply in_grid_bounds; lia|].
    destruct Hs as [-> | ->]; assumption. }
  destruct p as [s| |]; cbn [insert] in H.
  - rewrite Piece_insert_spec in H by exact Hwf.
    destruct ((0 <=? column - 1) && (column - 1 <? columns b)) eqn:E.
    + injection H as H.
      replace b' with (fst (place b s (column - 1))) by (rewrite H; reflexivity).
      apply place_all_cells; try assumption; [lia|].
      unfold proper, new_piece in Hp. cbn [piece_symbol] in Hp.
      split; intros ->; cbn in Hp; discriminate.
    + injection H as <- _. exact Hall.
  - destruct (decide (0 <= column - 1 < columns b)) as [Hc|Hc];
      [destruct (lowest_blank b (column - 1)) as [row|] eqn:Hlow|].
    + pose proof (lowest_blank_Some _ _ _ Hlow) as (Hrow & _).
      destruct (bomb_clears_neighbourhood b column row Hwf Hc Hlow)
        as (b2 & b3 & Hund & Hcells & Hg & Hins).
      { intros row' Hrow'. apply (Hfresh "B" row); auto; lia. }
      destruct (BombPiece_insert_undecorated_returns b column Hwf)
        as (b2' & ok & Hund' & Hwf2 & HR2 & HC2).
      rewrite Hund in Hund'. injection Hund' as <- <-.
      apply (gravity_decorator_all_cells plain _ b b2 b' column true inserted
               plain_blank Hund Hwf2); [|exact H].
      intros i j Hij. rewrite Hcells by (apply in_grid_bounds;
        apply in_grid_bounds in Hij; lia).
      destruct (adjacent row (column - 1) i j); [exact plain_blank|].
      apply Hall. apply in_grid_bounds. apply in_grid_bounds in Hij. lia.
    + apply (gravity_decorator_all_cells plain BombPiece_insert_undecorated
               b b b' column false inserted plain_blank); try assumption.
      apply BombPiece_insert_undecorated_full; auto.
    + apply (gravity_decorator_all_cells plain BombPiece_insert_undecorated
               b b b' column false inserted plain_blank); try assumption.
      apply BombPiece_insert_undecorated_full; auto.
  - destruct (decide (0 <= column - 1 < columns b)) as [Hc|Hc];
      [destruct (lowest_blank b (column - 1)) as [row|] eqn:Hlow|].
    + pose proof (lowest_blank_Some _ _ _ Hlow) as (Hrow & _).
      destruct (teleport_swaps_mirror b column row Hwf Hc Hlow) as [Hund _].
      { intros row' Hrow'. apply (Hfresh "T" row); auto; lia. }
      assert (Hin : in_grid b row (column - 1) = true)
        by (apply in_grid_bounds; lia).
      destruct (swap_from_well_formed b row (column - 1) Hwf) as (Hwf2 & _).
      apply (gravity_decorator_all_cells plain _ b _ b' column true inserted
               plain_blank Hund Hwf2); [|exact H].
      apply swap_from_all_cells; try assumption. exact plain_blank.
    + apply (gravity_decorator_all_cells plain TeleportPiece_insert_undecorated
               b b b' column false inserted plain_blank); try assumption.
      apply TeleportPiece_insert_undecorated_full; auto.
    + apply (gravity_decorator_all_cells plain TeleportPiece_insert_undecorated
               b b b' column false inserted plain_blank); try assumption.
      apply TeleportPiece_insert_undecorated_full; auto.
Qed.

(** ** A turn on a sound game *)

Lemma choose_piece_proper (p chooser : Player)
  (selection : option (string * Z)) (userlist : option (Piece * Z)) :
  Forall proper (pieces p) ->
  choose_piece p selection = (chooser, userlist) ->
  Forall proper (pieces chooser)
  /\ match userlist with Some (q, _) => proper q | None => True end.
Proof.
  intros Hall H. unfold choose_piece in H.
  destruct selection as [[chosen column]|]; [|injection H as <- <-; auto].
  pose proof (pop_symbol_first chosen (pieces p)) as Hpop.
  destruct (pop_symbol chosen (pieces p)) as [[q rest]|];
    [|injection H as <- <-; auto].
  destruct Hpop as (_ & before & after & Hps & -> & _).
  injection H as <- <-. cbn [pieces]. rewrite Hps in Hall.
  apply Forall_app in Hall as [Hb Ha]. apply Forall_cons in Ha as [Hq Ha].
  split; [|exact Hq]. apply Forall_app. split; assumption.
Qed.

Lemma with_player_fields (g : Game) (s : seat) (p : Player) :
  board (with_player g s p) = board g
  /\ current_player (with_player g s p) = current_player g
  /\ player_at (with_player g s p) s = p
  /\ player_at (with_player g s p) (other s) = player_at g (other s).
Proof. destruct s; cbn; auto. Qed.

Lemma turn_sound (g : Game) (selection : option (string * Z)) :
  sound g ->
  exists t g' outcome,
    turn g selection = (t, Ok (g', outcome))
    /\ sound g' /\ keeps_frame g g'.
Proof.
  intros (Hwf & Hnf & Hplain & Hp1 & Hp2).
  destruct (pieces (player_at g (current_player g))) as [|q0 qs] eqn:Hps.
  { exists [], (with_current g (other (current_player g))), InProgress.
    split; [unfold turn; cbv zeta; rewrite Hps; reflexivity|].
    split; [exact (conj Hwf (conj Hnf (conj Hplain (conj Hp1 Hp2))))|].
    unfold keeps_frame.
    destruct g as [b p1 p2 []]; cbn in *; rewrite ?Hps; cbn; repeat split; auto. }
  assert (Hne : pieces (player_at g (current_player g)) <> []) by congruence.
  destruct (choose_piece (player_at g (current_player g)) selection)
    as [chooser userlist] eqn:Hchoose.
  assert (Hcur : Forall proper (pieces (player_at g (current_player g))))
    by (destruct (current_player g); assumption).
  destruct (choose_piece_proper _ _ _ _ Hcur Hchoose) as [Hchooser Hpiece].
  pose proof (choose_piece_spec _ _ _ _ Hchoose) as (Hname & Hsym & Hlen).
  destruct userlist as [[piece column]|].
  2:{ subst chooser. exists [], g, InProgress.
      split; [apply (turn_without_piece g selection _ Hne Hchoose)|].
      split; [exact (conj Hwf (conj Hnf (conj Hplain (conj Hp1 Hp2))))|].
      unfold keeps_frame. repeat split; auto. }
  destruct (insert_settles piece (board g) column Hwf (fun _ _ => Hnf))
    as (b' & ok & Hinsert & Hwf' & HR & HC & Hnf').
  pose proof (insert_keeps_plain _ _ _ _ _ Hwf Hplain Hpiece Hinsert) as Hplain'.
  set (g1 := with_board (with_player g (current_player g) chooser) b').
  assert (Hsound1 : sound g1).
  { unfold sound, g1.
    destruct g as [b p1 p2 []]; cbn in *;
      (split; [exact Hwf'|]); (split; [exact Hnf'|]); (split; [exact Hplain'|]);
      split; assumption. }
  assert (Hframe1 : keeps_frame g g1).
  { unfold keeps_frame, g1. destruct g as [b p1 p2 []]; cbn in *;
      repeat split; auto; lia. }
  destruct ok.
  - destruct (insert_success _ _ _ _ Hwf Hinsert) as (Hc & row & Hlow).
    apply lowest_blank_Some in Hlow as (Hrow & _).
    destruct (turn_placed (-1) g selection chooser piece column b'
                Hne Hchoose Hinsert Hwf')
      as (t & r & Hturn & _ & cw & ow & ->); [lia|lia|left; reflexivity|].
    fold g1 in Hturn.
    destruct (conclude g1 cw ow) as [g' outcome] eqn:Hconclude.
    pose proof (conclude_keeps _ _ _ _ _ Hconclude) as (Hb & Hq1 & Hq2).
    exists t, g', outcome. split; [exact Hturn|].
    destruct Hsound1 as (S1 & S2 & S3 & S4 & S5).
    split; [unfold sound; rewrite Hb, Hq1, Hq2;
            exact (conj S1 (conj S2 (conj S3 (conj S4 S5))))|].
    unfold keeps_frame in *.
    assert (Hat : forall s, player_at g' s = player_at g1 s)
      by (intros []; cbn [player_at]; assumption).
    rewrite !Hat, Hb, Hq1, Hq2. exact Hframe1.
  - exists [], g1, InProgress.
    split; [apply (turn_rejected g selection chooser piece column b'
                     Hne Hchoose Hinsert)|].
    split; assumption.
Qed.

(** ** Whole games *)

Lemma proper_new_piece (s : string) : proper (new_piece s).
Proof.
  unfold proper, new_piece.
  destruct (String.eqb s "B") eqn:EB; [reflexivity|].
  destruct (String.eqb s "T") eqn:ET; [reflexivity|].
  cbn [piece_symbol]. rewrite EB, ET. reflexivity.
Qed.

Lemma setup_sound (height width : Z) (splitp1 splitp2 : string * string) :
  sound (setup height width splitp1 splitp2).
Proof.
  destruct (setup_pieces height width splitp1 splitp2) as [H1 H2].
  cbv zeta in H1, H2. unfold sound. rewrite H1, H2.
  change (board (setup height width splitp1 splitp2))
    with (Board_init height width).
  split; [apply Board_init_well_formed|].
  split; [apply Board_init_no_floating|].
  split; [intros i j _; rewrite Board_init_cell; exact plain_blank|].
  split; repeat apply Forall_app_2; apply Forall_repeat;
    first [apply proper_new_piece | reflexivity].
Qed.

Lemma setup_fields (height width : Z) (splitp1 splitp2 : string * string) :
  let g := setup height width splitp1 splitp2 in
  name (player1 g) = fst splitp1 /\ symbol (player1 g) = snd splitp1
  /\ name (player2 g) = fst splitp2 /\ symbol (player2 g) = snd splitp2
  /\ board g = Board_init height width /\ current_player g = First.
Proof.
  cbv zeta. unfold setup. cbv zeta. cbn [player1 player2 board current_player].
  repeat match goal with
         | |- context [add_piece ?p ?s ?q] =>
             lazymatch p with
             | context [add_piece] => fail
             | _ => idtac
             end;
             let Hn := fresh in let Hs := fresh in
             destruct (add_piece_spec p s q) as (Hn & Hs & _);
             generalize dependent (add_piece p s q); intros; cbn [name symbol] in *
         end.
  repeat split; congruence.
Qed.

Lemma keeps_frame_refl (g : Game) : keeps_frame g g.
Proof. unfold keeps_frame. repeat split; auto. Qed.

(** The part of the frame that does not depend on who moves. *)
Lemma keeps_frame_static (g g' : Game) :
  keeps_frame g g' ->
  rows (board g') = rows (board g) /\ columns (board g') = columns (board g)
  /\ name (player1 g') = name (player1 g)
  /\ name (player2 g') = name (player2 g)
  /\ symbol (player1 g') = symbol (player1 g)
  /\ symbol (player2 g') = symbol (player2 g)
  /\ (length (pieces (player1 g')) <= length (pieces (player1 g)))%nat
  /\ (length (pieces (player2 g')) <= length (pieces (player2 g)))%nat.
Proof.
  unfold keeps_frame. intros (H1 & H2 & H3 & H4 & H5 & H6 & H7 & H8).
  repeat (split; [assumption|]).
  destruct (current_player g); cbn [player_at other] in *; rewrite ?H7; lia.
Qed.

Lemma play_sound (fuel : nat) :
  forall (g : Game) (lines : list (option (string * Z))),
    sound g ->
    match snd (play fuel g lines) with
    | Ok (g', _) =>
        sound g'
        /\ rows (board g') = rows (board g)
        /\ columns (board g') = columns (board g)
        /\ name (player1 g') = name (player1 g)
        /\ name (player2 g') = name (player2 g)
        /\ symbol (player1 g') = symbol (player1 g)
        /\ symbol (player2 g') = symbol (player2 g)
        /\ (length (pieces (player1 g')) <= length (pieces (player1 g)))%nat
        /\ (length (pieces (player2 g')) <= length (pieces (player2 g)))%nat
    | IndexError => False
    | OutOfFuel => True
    end.
Proof.
  induction fuel as [|fuel IH]; intros g lines Hsound; [exact I|].
  cbn [play].
  assert (Hstep : forall sel rest,
    match snd ('(g', outcome) <~ turn g sel ;
               match outcome with
               | InProgress => play fuel g' rest
               | _ => tret (g', outcome)
               end) with
    | Ok (g', _) =>
        sound g'
        /\ rows (board g') = rows (board g)
        /\ columns (board g') = columns (board g)
        /\ name (player1 g') = name (player1 g)
        /\ name (player2 g') = name (player2 g)
        /\ symbol (player1 g') = symbol (player1 g)
        /\ symbol (player2 g') = symbol (player2 g)
        /\ (length (pieces (player1 g')) <= length (pieces (player1 g)))%nat
        /\ (length (pieces (player2 g')) <= length (pieces (player2 g)))%nat
    | IndexError => False
    | OutOfFuel => True
    end).
  { intros sel rest.
    destruct (turn_sound g sel Hsound) as (t & g1 & o & Hturn & Hsound1 & Hframe).
    apply keeps_frame_static in Hframe.
    rewrite (tbind_returned _ _ _ _ Hturn). cbn [snd].
    destruct o.
    - specialize (IH g1 rest Hsound1).
      destruct (snd (play fuel g1 rest)) as [[g2 o2]| |]; [|exact IH|exact I].
      destruct IH as (S2 & F).
      split; [exact S2|]. intuition (try congruence; try lia).
    - cbn [tret snd]. split; [exact Hsound1|exact Hframe].
    - cbn [tret snd]. split; [exact Hsound1|exact Hframe]. }
  destruct (length (pieces (player_at g (current_player g))) =? 0)%nat eqn:E.
  - destruct (turn_sound g None Hsound) as (t & g1 & o & Hturn & Hsound1 & Hframe).
    apply keeps_frame_static in Hframe.
    rewrite (tbind_returned _ _ _ _ Hturn). cbn [snd].
    specialize (IH g1 lines Hsound1).
    destruct (snd (play fuel g1 lines)) as [[g2 o2]| |]; [|exact IH|exact I].
    destruct IH as (S2 & F).
    split; [exact S2|]. intuition (try congruence; try lia).
  - destruct lines as [|line lines'].
    + cbn [tret snd]. split; [exact Hsound|].
      repeat split; auto.
    + apply Hstep.
Qed.

(** X7. One iteration of the loop of [Game.begin], on a game whose board is
    well formed, has no floating piece and no "B" or "T", and whose pieces
    were made by [add_piece], always returns: no subscript is out of range
    and no loop runs out of its bound. The game it leaves has the same
    properties, a board of the same size, the same names and symbols, the
    same collection for the player who did not move, and at most one piece
    less for the player who moved. *)
Theorem turn_keeps_game_sound (g : Game) (selection : option (string * Z)) :
  sound g ->
  exists t g' outcome,
    turn g selection = (t, Ok (g', outcome))
    /\ sound g' /\ keeps_frame g g'.
Proof. apply turn_sound. Qed.

Lemma turn_keeps_game_sound_witness :
  sound sample_game
  /\ exists t g' outcome,
       turn sample_game (Some ("B", 2)) = (t, Ok (g', outcome))
       /\ sound g' /\ keeps_frame sample_game g'.
Proof.
  split; [apply setup_sound|].
  apply (turn_keeps_game_sound sample_game (Some ("B", 2))).
  apply setup_sound.
Defined.

(** X8. Whatever the size of the board, the two input lines of the setup
    and the lines typed afterwards, the loop of [Game.begin] never raises
    [IndexError]; whenever it stops, the board is well formed with the rows
    and columns of the start, no piece floats, no "B" or "T" is on the
    board, and the names and symbols of the players are those of the
    setup. *)
Theorem game_stays_sound (fuel : nat) (height width : Z)
  (splitp1 splitp2 : string * string) (lines : list (option (string * Z))) :
  match snd (play fuel (setup height width splitp1 splitp2) lines) with
  | Ok (g, _) =>
      well_formed (board g) /\ no_floating (board g)
      /\ all_cells plain (board g)
      /\ rows (board g) = height /\ columns (board g) = width
      /\ name (player1 g) = fst splitp1 /\ symbol (player1 g) = snd splitp1
      /\ name (player2 g) = fst splitp2 /\ symbol (player2 g) = snd splitp2
  | IndexError => False
  | OutOfFuel => True
  end.
Proof.
  pose proof (play_sound fuel _ lines (setup_sound height width splitp1 splitp2))
    as H.
  destruct (snd (play fuel _ lines)) as [[g o]| |]; [|exact H|exact I].
  destruct H as ((Hwf & Hnf & Hplain & _) & HR & HC & N1 & N2 & S1 & S2 & _).
  destruct (setup_fields height width splitp1 splitp2)
    as (M1 & T1 & M2 & T2 & Hb & _).
  rewrite Hb in HR, HC.
  repeat (split; [assumption || congruence|]). congruence.
Qed.

(** ** A game that cannot end *)

(** X9. When both collections are empty at the start of an iteration, the
    loop of [Game.begin] never ends: each iteration only hands the turn to
    the other player, no line is read, and whatever bound is put on the
    number of iterations is exceeded. *)
Theorem empty_collections_loop_forever (fuel : nat) (g : Game)
  (lines : list (option (string * Z))) :
  pieces (player1 g) = [] -> pieces (player2 g) = [] ->
  play fuel g lines = ([], OutOfFuel)
  /\ forall selection,
       turn g selection
       = ([], Ok (with_current g (other (current_player g)), InProgress)).
Proof.
  intros H1 H2. split.
  - revert g H1 H2. induction fuel as [|fuel IH]; intros g H1 H2; [reflexivity|].
    cbn [play].
    assert (Hempty : pieces (player_at g (current_player g)) = [])
      by (destruct (current_player g); assumption).
    rewrite Hempty. cbn [length Nat.eqb].
    unfold turn. cbv zeta. rewrite Hempty. cbn [length Nat.eqb].
    unfold tbind, tret. rewrite (IH (with_current g (other (current_player g)))).
    + reflexivity.
    + exact H1.
    + exact H2.
  - intros selection. unfold turn. cbv zeta.
    assert (Hempty : pieces (player_at g (current_player g)) = [])
      by (destruct (current_player g); assumption).
    rewrite Hempty. reflexivity.
Qed.

Lemma empty_collections_loop_forever_witness :
  pieces (player1 (setup 0 7 ("ann", "X") ("bob", "O"))) = []
  /\ pieces (player2 (setup 0 7 ("ann", "X") ("bob", "O"))) = []
  /\ play 1000 (setup 0 7 ("ann", "X") ("bob", "O")) [Some ("X", 1)]
     = ([], OutOfFuel).
Proof.
  split; [reflexivity|]. split; [reflexivity|].
  apply (empty_collections_loop_forever 1000
           (setup 0 7 ("ann", "X") ("bob", "O")) [Some ("X", 1)]);
    reflexivity.
Defined.

(** A game on two rows and two columns gets there by play: each player
    loses the last piece to a refused insertion in the full first column,
    with two slots of the board still blank. *)
Example refused_moves_empty_both_collections :
  exists t g g',
    play 10 (setup 2 2 ("ann", "X") ("bob", "O"))
      [Some ("X", 1); Some ("O", 1); Some ("X", 1)]
    = (t, Ok (g, InProgress))
    /\ turn g (Some ("O", 1)) = ([], Ok (g', InProgress))
    /\ pieces (player1 g') = [] /\ pieces (player2 g') = []
    /\ board_is_full (board g') = false.
Proof.
  eexists _, _, _. split; [vm_compute; reflexivity|].
  split; [vm_compute; reflexivity|]. repeat split.
Qed.

(** ** The check of the current player after a bomb or a teleport *)

Lemma in_grid_cell (b : Board) (r : list string) (x : string) :
  well_formed b -> In r (grid b) -> In x r ->
  exists i j, in_grid b i j = true /\ cell b i j = x.
Proof.
  intros [Hlen Hrows] Hr Hx.
  apply list_elem_of_In, list_elem_of_lookup in Hr as [i Hi].
  apply list_elem_of_In, list_elem_of_lookup in Hx as [j Hj].
  pose proof (lookup_lt_Some _ _ _ Hi) as Li.
  pose proof (lookup_lt_Some _ _ _ Hj) as Lj.
  rewrite Forall_lookup in Hrows. rewrite (Hrows _ _ Hi) in Lj.
  exists (Z.of_nat i), (Z.of_nat j). split; [apply in_grid_bounds; lia|].
  unfold cell. rewrite !Nat2Z.id, Hi. cbn. rewrite Hj. reflexivity.
Qed.

(** A read at subscripts Python accepts returns the content of a slot of the
    board. *)
Lemma grid_get_some_cell (b : Board) (row column : Z) :
  well_formed b ->
  - rows b <= row < rows b -> - columns b <= column < columns b ->
  exists i j, in_grid b i j = true /\ grid_get b row column = Ok (cell b i j).
Proof.
  intros Hwf Hr Hc. pose proof Hwf as [Hlen Hrows]. unfold grid_get.
  destruct (list_getitem_valid (grid b) row) as (r & Hget & Hin); [lia|].
  rewrite Hget. cbn [bind].
  assert (Hlr : length r = Z.to_nat (columns b)).
  { rewrite Forall_forall in Hrows. apply Hrows. apply list_elem_of_In. exact Hin. }
  destruct (list_getitem_valid r column) as (x & Hx & Hxin); [lia|].
  destruct (in_grid_cell b r x Hwf Hin Hxin) as (i & j & Hij & <-).
  exists i, j. split; [exact Hij|exact Hx].
Qed.

(** A scanning loop that meets no slot with the symbol returns the counter
    it was given. *)
Lemma extend_absent (b : Board) (s : string) (dr dc : Z) (fuel : nat)
  (row column counter : Z) :
  well_formed b -> all_cells (fun x => x <> s) b ->
  safe (- rows b) dr row (rows b) -> safe (- columns b) dc column (columns b) ->
  (0 < fuel)%nat ->
  snd (extend fuel b s dr dc row column counter) = Ok counter.
Proof.
  intros Hwf Habsent Hsr Hsc Hfuel. destruct fuel as [|fuel]; [lia|].
  cbn [extend]. destruct (ahead b dr dc row column) eqn:Hahead; [|reflexivity].
  unfold ahead, within in Hahead. apply andb_true_iff in Hahead as [Har Hac].
  assert (Hvalid : - rows b <= row < rows b /\ - columns b <= column < columns b).
  { unfold safe in *.
    destruct (Z.ltb_spec dr 0), (Z.ltb_spec 0 dr), (Z.ltb_spec dc 0),
      (Z.ltb_spec 0 dc); lia. }
  destruct (grid_get_some_cell b row column Hwf) as (i & j & Hij & Hget);
    [lia|lia|].
  unfold tbind, grid_read. rewrite Hget.
  destruct (String.eqb_spec (cell b i j) s) as [E|_]; [|reflexivity].
  exfalso. exact (Habsent i j Hij E).
Qed.

(** When no slot of the board holds the symbol, the check of the current
    player finds nothing, whatever the inserted row is. *)
Lemma current_player_check_absent (b : Board) (s : string)
  (inserted_row column_i0 : Z) :
  well_formed b -> all_cells (fun x => x <> s) b ->
  0 < rows b -> -1 <= inserted_row < rows b -> 0 <= column_i0 < columns b ->
  snd (current_player_check b s inserted_row column_i0) = Ok false.
Proof.
  intros Hwf Habsent Hrows Hir Hc. unfold current_player_check. cbv zeta.
  assert (Hloop : forall dr dc row column counter,
    -1 <= dr <= 1 -> -1 <= dc <= 1 ->
    inserted_row - 1 <= row <= inserted_row + 1 ->
    column_i0 - 1 <= column <= column_i0 + 1 ->
    (dr < 0 -> row = inserted_row - 1) ->
    (dr = 0 -> row = inserted_row) -> (0 < dr -> row = inserted_row + 1) ->
    (dc < 0 -> column = column_i0 - 1) ->
    (dc = 0 -> column = column_i0) -> (0 < dc -> column = column_i0 + 1) ->
    exists t,
      extend (extend_fuel b) b s dr dc row column counter = (t, Ok counter)).
  { intros dr dc row column counter Hdr Hdc Hr Hcol E0 E1 E2 E3 E4 E5.
    pose proof (extend_absent b s dr dc (extend_fuel b) row column counter
                  Hwf Habsent) as H.
    destruct (extend (extend_fuel b) b s dr dc row column counter) as [t r].
    exists t. cbn [snd] in H. rewrite H; [reflexivity| | |].
    - unfold safe. lia.
    - unfold safe. lia.
    - unfold extend_fuel. lia. }
  repeat match goal with
         | |- context [tbind (extend ?f ?b' ?s' ?dr ?dc ?r ?c ?k) ?cont] =>
             let t := fresh "t" in
             let H := fresh "H" in
             destruct (Hloop dr dc r c k) as [t H]; try lia;
             rewrite (tbind_returned _ cont _ _ H); cbv beta; clear H
         end.
  reflexivity.
Qed.

(** X10. In a sound game, a turn that plays a bomb or a teleport
    successfully never counts a line for the player who moved: the "B" or
    "T" is not on the board any more, the check of the current player
    returns [False], and the turn ends as the check of the other player
    alone decides. *)
Theorem special_piece_never_wins (g : Game) (selection : option (string * Z))
  (chooser : Player) (piece : Piece) (column : Z) (b' : Board) :
  sound g ->
  piece = BombPiece \/ piece = TeleportPiece ->
  choose_piece (player_at g (current_player g)) selection
  = (chooser, Some (piece, column)) ->
  insert piece (board g) column = Ok (b', true) ->
  exists t otherplayer_wins,
    snd (otherplayer_check b'
           (symbol (player_at g (other (current_player g)))))
    = Ok otherplayer_wins
    /\ turn g selection
       = (t, Ok (conclude
                   (with_board (with_player g (current_player g) chooser) b')
                   false otherplayer_wins)).
Proof.
  intros (Hwf & Hnf & Hplain & Hp1 & Hp2) Hspecial Hchoose Hinsert.
  pose proof (choose_piece_nonempty _ _ _ _ Hchoose) as Hne.
  assert (Hproper : proper piece) by (destruct Hspecial; subst; reflexivity).
  pose proof (insert_keeps_plain _ _ _ _ _ Hwf Hplain Hproper Hinsert) as Hplain'.
  destruct (insert_success _ _ _ _ Hwf Hinsert) as (Hc & row & Hlow).
  apply lowest_blank_Some in Hlow as (Hrow & _).
  destruct (insert_returns piece (board g) column Hwf)
    as (b1 & ok & H1 & Hwf' & HR & HC).
  rewrite Hinsert in H1. injection H1 as <- <-.
  assert (Habsent : all_cells (fun x => x <> piece_symbol piece) b').
  { intros i j Hij. destruct (Hplain' i j Hij) as [HB HT].
    destruct Hspecial; subst; assumption. }
  destruct (find_inserted_row_within b' (piece_symbol piece) (column - 1)
              (py_range 0 (rows b')) (-1) Hwf')
    as (t0 & inserted_row & Hfind & _ & Hfound).
  { lia. }
  { intros r Hr. apply in_py_range in Hr. lia. }
  assert (Hir : -1 <= inserted_row < rows b').
  { destruct (List.find _ _) as [r|] eqn:E in Hfound; [|lia].
    apply find_some in E as [E _]. apply in_py_range in E. lia. }
  pose proof (current_player_check_absent b' (piece_symbol piece) inserted_row
                (column - 1) Hwf' Habsent ltac:(lia) Hir ltac:(lia)) as Hcur.
  destruct (current_player_check b' (piece_symbol piece) inserted_row (column - 1))
    as [t1 r1] eqn:Hcheck. cbn [snd] in Hcur. subst r1.
  destruct (otherplayer_check_within b'
              (symbol (player_at g (other (current_player g)))) Hwf')
    as (t2 & ow & Hoth & _).
  exists (t0 ++ t1 ++ t2)%list, ow. split; [rewrite Hoth; reflexivity|].
  apply (turn_concludes g selection chooser piece column b' t0 t1 t2
           inserted_row false ow Hne Hchoose Hinsert Hfind Hcheck Hoth).
Qed.

Lemma special_piece_never_wins_witness :
  sound draw_game
  /\ exists t otherplayer_wins,
       snd (otherplayer_check
              (mkBoard 6 7
                 [[" "; " "; " "; " "; " "; " "; " "];
                  [" "; " "; " "; " "; " "; " "; " "];
                  [" "; " "; " "; " "; " "; " "; " "];
                  [" "; " "; " "; " "; " "; " "; "X"];
                  [" "; " "; " "; " "; " "; " "; "X"];
                  ["O"; "O"; "O"; "O"; " "; " "; "X"]])
              (symbol (player_at draw_game (other (current_player draw_game)))))
       = Ok otherplayer_wins
       /\ turn draw_game (Some ("T", 5))
          = (t, Ok (conclude
                      (with_board
                         (with_player draw_game (current_player draw_game)
                            (fst (choose_piece
                                    (player_at draw_game
                                       (current_player draw_game))
                                    (Some ("T", 5)))))
                         (mkBoard 6 7
                            [[" "; " "; " "; " "; " "; " "; " "];
                             [" "; " "; " "; " "; " "; " "; " "];
                             [" "; " "; " "; " "; " "; " "; " "];
                             [" "; " "; " "; " "; " "; " "; "X"];
                             [" "; " "; " "; " "; " "; " "; "X"];
                             ["O"; "O"; "O"; "O"; " "; " "; "X"]]))
                      false otherplayer_wins)).
Proof.
  assert (Hsound : sound draw_game).
  { pose proof (play_sound 20 sample_game (map Some draw_lines)
                  (setup_sound 6 7 ("ann", "X") ("bob", "O"))) as H.
    assert (E : snd (play 20 sample_game (map Some draw_lines))
                = Ok (draw_game, InProgress)) by (vm_compute; reflexivity).
    rewrite E in H. exact (proj1 H). }
  split; [exact Hsound|].
  apply (special_piece_never_wins draw_game (Some ("T", 5)) _ TeleportPiece 5 _
           Hsound (or_intror eq_refl)); vm_compute; reflexivity.
Defined.

(** ** What the two win checks find *)

Lemma snd_tbind {A B} (m : traced A) (k : A -> traced B) (a : A) :
  snd m = Ok a -> snd (tbind m k) = snd (k a).
Proof.
  destruct m as [t r]. cbn [snd]. intros ->. unfold tbind.
  destruct (k a). reflexivity.
Qed.

Lemma holds_eq (b : Board) (s : string) (r c r' c' : Z) :
  holds b s r c -> r = r' -> c = c' -> holds b s r' c'.
Proof. intros H <- <-. exact H. Qed.

(** From a slot of the board, a loop of the other player's check tests the
    only bounds its direction can cross. *)
Lemma ahead_in_grid (b : Board) (dr dc row column x : Z) :
  in_grid b row column = true -> 0 <= dr <= 1 -> -1 <= dc <= 1 -> 0 <= x ->
  ahead b dr dc (row + x * dr) (column + x * dc)
  = in_grid b (row + x * dr) (column + x * dc).
Proof.
  intros Hin Hdr Hdc Hx. apply in_grid_bounds in Hin.
  assert (Edr : dr = 0 \/ dr = 1) by lia.
  assert (Edc : dc = -1 \/ dc = 0 \/ dc = 1) by lia.
  apply eq_true_iff_eq. rewrite in_grid_bounds. unfold ahead, within.
  destruct Edr as [-> | ->], Edc as [-> | [-> | ->]]; cbn; lia.
Qed.

Lemma run_from_step (b : Board) (s : string) (dr dc row column x : Z)
  (xs : list Z) (count : Z) :
  well_formed b -> in_grid b row column = true ->
  0 <= dr <= 1 -> -1 <= dc <= 1 -> 0 <= x ->
  (holds b s (row + x * dr) (column + x * dc)
   /\ snd (run_from b s dr dc row column (x :: xs) count)
      = snd (run_from b s dr dc row column xs (count + 1)))
  \/ (~ holds b s (row + x * dr) (column + x * dc)
      /\ snd (run_from b s dr dc row column (x :: xs) count) = Ok count).
Proof.
  intros Hwf Hin Hdr Hdc Hx. cbn [run_from].
  rewrite (ahead_in_grid b dr dc row column x Hin Hdr Hdc Hx).
  destruct (in_grid b (row + x * dr) (column + x * dc)) eqn:Hg.
  - rewrite (snd_tbind _ _ (cell b (row + x * dr) (column + x * dc)))
      by (unfold grid_read; cbn [snd]; apply grid_get_ok; assumption).
    destruct (String.eqb_spec (cell b (row + x * dr) (column + x * dc)) s)
      as [E|E].
    + left. split; [split; assumption|reflexivity].
    + right. split; [intros [_ H]; exact (E H)|reflexivity].
  - right. split; [intros [H _]; congruence|reflexivity].
Qed.

(** A loop of the other player's check counts four exactly when the three
    slots after the one it starts from hold the symbol. *)
Lemma run_from_spec (b : Board) (s : string) (dr dc row column : Z) :
  well_formed b -> in_grid b row column = true ->
  0 <= dr <= 1 -> -1 <= dc <= 1 ->
  exists n,
    snd (run_from b s dr dc row column (py_range 1 4) 1) = Ok n
    /\ ((n >=? 4) = true
        <-> forall k, 1 <= k < 4 ->
              holds b s (row + k * dr) (column + k * dc)).
Proof.
  intros Hwf Hin Hdr Hdc. change (py_range 1 4) with [1; 2; 3].
  assert (Hcase : forall k, 1 <= k < 4 -> k = 1 \/ k = 2 \/ k = 3) by lia.
  destruct (run_from_step b s dr dc row column 1 [2; 3] 1 Hwf Hin Hdr Hdc)
    as [[H1 E1] | [H1 E1]]; [lia| |]; rewrite E1;
    [|exists 1; split; [reflexivity|];
      split; [discriminate|intros H; destruct H1; apply H; lia]].
  destruct (run_from_step b s dr dc row column 2 [3] (1 + 1) Hwf Hin Hdr Hdc)
    as [[H2 E2] | [H2 E2]]; [lia| |]; rewrite E2;
    [|exists (1 + 1); split; [reflexivity|];
      split; [discriminate|intros H; destruct H2; apply H; lia]].
  destruct (run_from_step b s dr dc row column 3 [] (1 + 1 + 1) Hwf Hin Hdr Hdc)
    as [[H3 E3] | [H3 E3]]; [lia| |]; rewrite E3;
    [|exists (1 + 1 + 1); split; [reflexivity|];
      split; [discriminate|intros H; destruct H3; apply H; lia]].
  exists (1 + 1 + 1 + 1). split; [reflexivity|]. split; [|reflexivity].
  intros _ k Hk. destruct (Hcase k Hk) as [-> | [-> | ->]]; assumption.
Qed.

Lemma line_from_anchor (b : Board) (s : string) (row column dr dc : Z) :
  holds b s row column ->
  (forall k, 1 <= k < 4 -> holds b s (row + k * dr) (column + k * dc)) ->
  line_of_four b s row column dr dc.
Proof.
  intros H0 H k Hk. destruct (Z.eq_dec k 0) as [-> | Hne].
  - apply (holds_eq b s row column); [exact H0|lia|lia].
  - apply H. lia.
Qed.

Lemma line_anchor (b : Board) (s : string) (row column dr dc : Z) :
  line_of_four b s row column dr dc -> holds b s row column.
Proof.
  intros H. apply (holds_eq b s (row + 0 * dr) (column + 0 * dc));
    [apply H; lia|lia|lia].
Qed.

(** The body of the other player's check answers [True] at a slot exactly
    when a line of four of the symbol starts there. *)
Lemma check_slot_spec (b : Board) (s : string) (row column : Z) :
  well_formed b -> in_grid b row column = true ->
  exists w,
    snd (check_slot b s row column) = Ok w
    /\ (w = true
        <-> exists dr dc,
              In (dr, dc) directions /\ line_of_four b s row column dr dc).
Proof.
  intros Hwf Hin. unfold check_slot.
  rewrite (snd_tbind _ _ (cell b row column))
    by (unfold grid_read; cbn [snd]; apply grid_get_ok; assumption).
  destruct (String.eqb_spec (cell b row column) s) as [E|E].
  2:{ exists false. split; [reflexivity|]. split; [discriminate|].
      intros (dr & dc & _ & Hline). apply line_anchor in Hline as [_ H].
      contradiction. }
  assert (H0 : holds b s row column) by (split; assumption).
  cbv zeta beta.
  destruct (run_from_spec b s 0 1 row column Hwf Hin) as (n1 & E1 & I1);
    [lia|lia|].
  destruct (run_from_spec b s 1 0 row column Hwf Hin) as (n2 & E2 & I2);
    [lia|lia|].
  destruct (run_from_spec b s 1 1 row column Hwf Hin) as (n3 & E3 & I3);
    [lia|lia|].
  destruct (run_from_spec b s 1 (-1) row column Hwf Hin) as (n4 & E4 & I4);
    [lia|lia|].
  assert (Hfound : forall dr dc,
    In (dr, dc) directions ->
    (forall k, 1 <= k < 4 -> holds b s (row + k * dr) (column + k * dc)) ->
    exists dr' dc',
      In (dr', dc') directions /\ line_of_four b s row column dr' dc').
  { intros dr dc Hd H. exists dr, dc. split; [exact Hd|].
    apply line_from_anchor; assumption. }
  rewrite (snd_tbind _ _ n1 E1).
  destruct (n1 >=? 4) eqn:G1.
  { exists true. split; [reflexivity|]. split; [intros _|reflexivity].
    apply (Hfound 0 1); [cbn; tauto|apply I1; reflexivity]. }
  rewrite (snd_tbind _ _ n2 E2).
  destruct (n2 >=? 4) eqn:G2.
  { exists true. split; [reflexivity|]. split; [intros _|reflexivity].
    apply (Hfound 1 0); [cbn; tauto|apply I2; reflexivity]. }
  rewrite (snd_tbind _ _ n3 E3).
  destruct (n3 >=? 4) eqn:G3.
  { exists true. split; [reflexivity|]. split; [intros _|reflexivity].
    apply (Hfound 1 1); [cbn; tauto|apply I3; reflexivity]. }
  rewrite (snd_tbind _ _ n4 E4). cbn [tret snd].
  exists (n4 >=? 4). split; [reflexivity|]. split.
  - intros G4. apply (Hfound 1 (-1)); [cbn; tauto|apply I4; exact G4].
  - intros (dr & dc & Hd & Hline).
    assert (Hk : forall k, 1 <= k < 4 ->
                   holds b s (row + k * dr) (column + k * dc))
      by (intros k Hk; apply Hline; lia).
    cbn in Hd.
    destruct Hd as [Hd | [Hd | [Hd | [Hd | []]]]]; injection Hd as <- <-.
    + apply I1 in Hk. congruence.
    + apply I2 in Hk. congruence.
    + apply I3 in Hk. congruence.
    + apply I4 in Hk. exact Hk.
Qed.

Lemma check_row_spec (b : Board) (s : string) (row : Z) (cs : list Z) :
  well_formed b -> 0 <= row < rows b ->
  (forall c, In c cs -> 0 <= c < columns b) ->
  exists w,
    snd (check_row b s row cs) = Ok w
    /\ (w = true
        <-> exists column dr dc,
              In column cs /\ In (dr, dc) directions
              /\ line_of_four b s row column dr dc).
Proof.
  intros Hwf Hrow. induction cs as [|c cs IH]; intros Hcs.
  - exists false. split; [reflexivity|]. split; [discriminate|].
    intros (? & ? & ? & [] & _).
  - cbn [check_row].
    destruct (check_slot_spec b s row c Hwf) as (w & E & I).
    { apply in_grid_bounds. split; [exact Hrow|]. apply Hcs. left. reflexivity. }
    rewrite (snd_tbind _ _ w E). destruct w.
    + exists true. split; [reflexivity|]. split; [intros _|reflexivity].
      destruct I as [I _]. destruct (I eq_refl) as (dr & dc & Hd & Hline).
      exists c, dr, dc. split; [left; reflexivity|]. split; assumption.
    + destruct IH as (w & E' & I'); [intros c' Hc'; apply Hcs; right; exact Hc'|].
      exists w. split; [exact E'|]. rewrite I'. split.
      * intros (c' & dr & dc & Hc' & H). exists c', dr, dc.
        split; [right; exact Hc'|exact H].
      * intros (c' & dr & dc & [<- | Hc'] & Hd & Hline).
        -- assert (false = true); [|discriminate].
           apply I. exists dr, dc. split; assumption.
        -- exists c', dr, dc. split; [exact Hc'|]. split; assumption.
Qed.

Lemma check_rows_spec (b : Board) (s : string) (rs : list Z) :
  well_formed b -> (forall r, In r rs -> 0 <= r < rows b) ->
  exists w,
    snd (check_rows b s rs) = Ok w
    /\ (w = true
        <-> exists row column dr dc,
              In row rs /\ 0 <= column < columns b /\ In (dr, dc) directions
              /\ line_of_four b s row column dr dc).
Proof.
  intros Hwf. induction rs as [|r rs IH]; intros Hrs.
  - exists false. split; [reflexivity|]. split; [discriminate|].
    intros (? & ? & ? & ? & [] & _).
  - cbn [check_rows].
    destruct (check_row_spec b s r (py_range 0 (columns b)) Hwf) as (w & E & I).
    { apply Hrs. left. reflexivity. }
    { intros c Hc. apply in_py_range in Hc. exact Hc. }
    rewrite (snd_tbind _ _ w E). destruct w.
    + exists true. split; [reflexivity|]. split; [intros _|reflexivity].
      destruct I as [I _]. destruct (I eq_refl) as (c & dr & dc & Hc & Hd & Hline).
      exists r, c, dr, dc. split; [left; reflexivity|].
      apply in_py_range in Hc. split; [exact Hc|]. split; assumption.
    + destruct IH as (w & E' & I'); [intros r' Hr'; apply Hrs; right; exact Hr'|].
      exists w. split; [exact E'|]. rewrite I'. split.
      * intros (r' & c & dr & dc & Hr' & H). exists r', c, dr, dc.
        split; [right; exact Hr'|exact H].
      * intros (r' & c & dr & dc & [<- | Hr'] & Hc & Hd & Hline).
        -- assert (false = true); [|discriminate].
           apply I. exists c, dr, dc. split; [apply in_py_range; exact Hc|].
           split; assumption.
        -- exists r', c, dr, dc. split; [exact Hr'|]. split; [exact Hc|].
           split; assumption.
Qed.

(** The check of the other player answers [True] exactly when the board
    holds a line of four of the symbol. *)
Lemma otherplayer_check_lines (b : Board) (s : string) :
  well_formed b ->
  exists w,
    snd (otherplayer_check b s) = Ok w /\ (w = true <-> has_line b s).
Proof.
  intros Hwf. unfold otherplayer_check.
  destruct (check_rows_spec b s (py_range 0 (rows b)) Hwf) as (w & E & I).
  { intros r Hr. apply in_py_range in Hr. exact Hr. }
  exists w. split; [exact E|]. rewrite I. unfold has_line. split.
  - intros (row & column & dr & dc & _ & _ & Hd & Hline).
    exists row, column, dr, dc. split; assumption.
  - intros (row & column & dr & dc & Hd & Hline).
    pose proof (line_anchor _ _ _ _ _ _ Hline) as [Hin _].
    apply in_grid_bounds in Hin. exists row, column, dr, dc.
    split; [apply in_py_range; lia|]. split; [lia|]. split; assumption.
Qed.

(** X11. The check of the other player is sound and complete: on a well
    formed board it returns, and it answers [True] exactly when the board
    holds four slots in a line, along a row, a column or a diagonal, all
    with the symbol it looks for. *)
Theorem otherplayer_check_finds_lines (b : Board) (s : string) :
  well_formed b ->
  exists w,
    snd (otherplayer_check b s) = Ok w /\ (w = true <-> has_line b s).
Proof. exact (otherplayer_check_lines b s). Qed.

Lemma otherplayer_check_finds_lines_witness :
  well_formed cross_turn_board
  /\ exists w,
       snd (otherplayer_check cross_turn_board "O") = Ok w
       /\ (w = true <-> has_line cross_turn_board "O").
Proof.
  assert (Hwf : well_formed cross_turn_board)
    by (split; [reflexivity|repeat constructor]).
  split; [exact Hwf|].
  exact (otherplayer_check_finds_lines cross_turn_board "O" Hwf).
Defined.
(** A scanning loop of the current player's check that starts on a ray of
    the board adds to its counter the number of slots with the symbol it
    meets before the first slot without it, or the edge. *)
Lemma extend_run (b : Board) (s : string) (dr dc : Z) (fuel : nat) :
  well_formed b -> -1 <= dr <= 1 -> -1 <= dc <= 1 -> dr <> 0 \/ dc <> 0 ->
  forall row column counter,
    safe 0 dr row (rows b) -> safe 0 dc column (columns b) ->
    (0 < fuel)%nat -> remaining b dr dc row column < Z.of_nat fuel ->
    exists n,
      0 <= n
      /\ snd (extend fuel b s dr dc row column counter) = Ok (counter + n)
      /\ (forall k, 0 <= k < n ->
            holds b s (row + k * dr) (column + k * dc))
      /\ ~ holds b s (row + n * dr) (column + n * dc).
Proof.
  intros Hwf Hdr Hdc Hdir.
  induction fuel as [|fuel IH]; intros row column counter Hsr Hsc Hpos Hrem.
  - lia.
  - cbn [extend]. destruct (ahead b dr dc row column) eqn:Hahead.
    + unfold ahead, within in Hahead.
      apply andb_true_iff in Hahead as [Har Hac].
      assert (Hrow : 0 <= row < rows b /\ 0 <= column < columns b).
      { unfold safe in *.
        destruct (Z.ltb_spec dr 0), (Z.ltb_spec 0 dr), (Z.ltb_spec dc 0),
          (Z.ltb_spec 0 dc); lia. }
      assert (Hin : in_grid b row column = true) by (apply in_grid_bounds; lia).
      rewrite (snd_tbind _ _ (cell b row column))
        by (unfold grid_read; cbn [snd]; apply grid_get_ok; assumption).
      destruct (String.eqb_spec (cell b row column) s) as [E|E].
      * assert (Hleft : 0 <= remaining b dr dc (row + dr) (column + dc)
                        < Z.of_nat fuel).
        { unfold remaining in *.
          destruct (Z.ltb_spec dr 0), (Z.ltb_spec 0 dr), (Z.ltb_spec dc 0),
            (Z.ltb_spec 0 dc); lia. }
        destruct (IH (row + dr) (column + dc) (counter + 1))
          as (n & Hn & Hsnd & Hall & Hstop);
          [unfold safe in *; lia|unfold safe in *; lia|lia|lia|].
        exists (n + 1). split; [lia|]. split; [rewrite Hsnd; f_equal; lia|].
        split.
        -- intros k Hk. destruct (Z.eq_dec k 0) as [-> | Hne].
           ++ apply (holds_eq b s row column); [split; assumption|lia|lia].
           ++ apply (holds_eq b s (row + dr + (k - 1) * dr)
                        (column + dc + (k - 1) * dc));
                [apply Hall; lia|lia|lia].
        -- intros H. apply Hstop.
           apply (holds_eq b s _ _ _ _ H); lia.
      * exists 0. split; [lia|]. split; [cbn [tret snd]; f_equal; lia|].
        split; [intros k Hk; lia|].
        intros [_ H]. apply E. rewrite <- H. f_equal; lia.
    + exists 0. split; [lia|]. split; [cbn [tret snd]; f_equal; lia|].
      split; [intros k Hk; lia|].
      intros [H _]. apply in_grid_bounds in H.
      unfold ahead, within in Hahead. apply andb_false_iff in Hahead.
      unfold safe in *.
      destruct (Z.ltb_spec dr 0), (Z.ltb_spec 0 dr), (Z.ltb_spec dc 0),
        (Z.ltb_spec 0 dc); lia.
Qed.

(** The two runs of one axis, counted from a slot with the symbol, make four
    exactly when a line of four along the axis goes through the slot. *)
Lemma axis_line (b : Board) (s : string) (row column dr dc n1 n2 : Z) :
  holds b s row column -> 0 <= n1 -> 0 <= n2 ->
  (forall k, 1 <= k <= n1 -> holds b s (row - k * dr) (column - k * dc)) ->
  ~ holds b s (row - (n1 + 1) * dr) (column - (n1 + 1) * dc) ->
  (forall k, 1 <= k <= n2 -> holds b s (row + k * dr) (column + k * dc)) ->
  ~ holds b s (row + (n2 + 1) * dr) (column + (n2 + 1) * dc) ->
  4 <= 1 + n1 + n2
  <-> exists r0 c0 k,
        line_of_four b s r0 c0 dr dc
        /\ 0 <= k < 4 /\ row = r0 + k * dr /\ column = c0 + k * dc.
Proof.
  intros H0 Hn1 Hn2 Hneg Hnstop Hpos Hpstop. split.
  - intros Hsum.
    assert (Hj : exists j, 0 <= j <= 3 /\ j <= n1 /\ 3 - j <= n2).
    { destruct (Z.le_gt_cases 3 n1); [exists 3|exists n1]; lia. }
    destruct Hj as (j & Hj & Hj1 & Hj2).
    exists (row - j * dr), (column - j * dc), j.
    split; [|split; [lia|split; lia]].
    intros i Hi.
    destruct (Z.lt_trichotomy i j) as [Hlt | [-> | Hgt]].
    + apply (holds_eq b s (row - (j - i) * dr) (column - (j - i) * dc));
        [apply Hneg; lia|lia|lia].
    + apply (holds_eq b s row column); [exact H0|lia|lia].
    + apply (holds_eq b s (row + (i - j) * dr) (column + (i - j) * dc));
        [apply Hpos; lia|lia|lia].
  - intros (r0 & c0 & k & Hline & Hk & -> & ->).
    assert (G1 : k <= n1).
    { destruct (Z.le_gt_cases k n1) as [H|H]; [exact H|]. exfalso.
      apply Hnstop.
      apply (holds_eq b s (r0 + (k - (n1 + 1)) * dr)
               (c0 + (k - (n1 + 1)) * dc)); [apply Hline; lia|lia|lia]. }
    assert (G2 : 3 - k <= n2).
    { destruct (Z.le_gt_cases (3 - k) n2) as [H|H]; [exact H|]. exfalso.
      apply Hpstop.
      apply (holds_eq b s (r0 + (k + (n2 + 1)) * dr)
               (c0 + (k + (n2 + 1)) * dc)); [apply Hline; lia|lia|lia]. }
    lia.
Qed.

(** The check of the current player at a slot that holds the symbol
    answers [True] exactly when a line of four goes through the slot. *)
Lemma current_player_check_lines (b : Board) (s : string)
  (inserted_row column_i0 : Z) :
  well_formed b -> holds b s inserted_row column_i0 ->
  exists w,
    snd (current_player_check b s inserted_row column_i0) = Ok w
    /\ (w = true <-> line_through b s inserted_row column_i0).
Proof.
  intros Hwf H0. pose proof H0 as [Hin _]. apply in_grid_bounds in Hin.
  unfold current_player_check. cbv zeta.
  assert (Hloop : forall dr dc row column counter,
    -1 <= dr <= 1 -> -1 <= dc <= 1 -> dr <> 0 \/ dc <> 0 ->
    row = inserted_row + dr -> column = column_i0 + dc ->
    exists n,
      0 <= n
      /\ snd (extend (extend_fuel b) b s dr dc row column counter)
         = Ok (counter + n)
      /\ (forall k, 1 <= k <= n ->
            holds b s (inserted_row + k * dr) (column_i0 + k * dc))
      /\ ~ holds b s (inserted_row + (n + 1) * dr) (column_i0 + (n + 1) * dc)).
  { intros dr dc row column counter Hdr Hdc Hdir -> ->.
    destruct (extend_run b s dr dc (extend_fuel b) Hwf Hdr Hdc Hdir
                (inserted_row + dr) (column_i0 + dc) counter)
      as (n & Hn & Hsnd & Hall & Hstop).
    - unfold safe. lia.
    - unfold safe. lia.
    - unfold extend_fuel. lia.
    - unfold remaining, extend_fuel.
      destruct (Z.ltb_spec dr 0), (Z.ltb_spec 0 dr), (Z.ltb_spec dc 0); lia.
    - exists n. split; [exact Hn|]. split; [exact Hsnd|]. split.
      + intros k Hk.
        apply (holds_eq b s (inserted_row + dr + (k - 1) * dr)
                 (column_i0 + dc + (k - 1) * dc)); [apply Hall; lia|lia|lia].
      + intros H. apply Hstop. apply (holds_eq b s _ _ _ _ H); lia. }
  destruct (Hloop 0 (-1) inserted_row (column_i0 + -1) 1)
    as (h1 & Hh1 & Eh1 & Ah1 & Sh1); try lia.
  rewrite (snd_tbind _ _ _ Eh1).
  destruct (Hloop 0 1 inserted_row (column_i0 + 1) (1 + h1))
    as (h2 & Hh2 & Eh2 & Ah2 & Sh2); try lia.
  rewrite (snd_tbind _ _ _ Eh2).
  destruct (Hloop (-1) (-1) (inserted_row - 1) (column_i0 - 1) 1)
    as (b1 & Hb1 & Eb1 & Ab1 & Sb1); try lia.
  rewrite (snd_tbind _ _ _ Eb1).
  destruct (Hloop 1 1 (inserted_row + 1) (column_i0 + 1) (1 + b1))
    as (b2 & Hb2 & Eb2 & Ab2 & Sb2); try lia.
  rewrite (snd_tbind _ _ _ Eb2).
  destruct (Hloop (-1) 1 (inserted_row - 1) (column_i0 + 1) 1)
    as (s1 & Hs1 & Es1 & As1 & Ss1); try lia.
  rewrite (snd_tbind _ _ _ Es1).
  destruct (Hloop 1 (-1) (inserted_row + 1) (column_i0 - 1) (1 + s1))
    as (s2 & Hs2 & Es2 & As2 & Ss2); try lia.
  rewrite (snd_tbind _ _ _ Es2).
  destruct (Hloop (-1) 0 (inserted_row - 1) column_i0 1)
    as (v1 & Hv1 & Ev1 & Av1 & Sv1); try lia.
  rewrite (snd_tbind _ _ _ Ev1).
  destruct (Hloop 1 0 (inserted_row + 1) column_i0 (1 + v1))
    as (v2 & Hv2 & Ev2 & Av2 & Sv2); try lia.
  rewrite (snd_tbind _ _ _ Ev2). cbn [tret snd].
  assert (Haxis : forall dr dc n1 n2,
    0 <= n1 -> 0 <= n2 ->
    (forall k, 1 <= k <= n1 ->
       holds b s (inserted_row + k * - dr) (column_i0 + k * - dc)) ->
    ~ holds b s (inserted_row + (n1 + 1) * - dr)
        (column_i0 + (n1 + 1) * - dc) ->
    (forall k, 1 <= k <= n2 ->
       holds b s (inserted_row + k * dr) (column_i0 + k * dc)) ->
    ~ holds b s (inserted_row + (n2 + 1) * dr) (column_i0 + (n2 + 1) * dc) ->
    4 <= 1 + n1 + n2
    <-> exists r0 c0 k,
          line_of_four b s r0 c0 dr dc
          /\ 0 <= k < 4 /\ inserted_row = r0 + k * dr
          /\ column_i0 = c0 + k * dc).
  { intros dr dc n1 n2 Hn1 Hn2 An Sn Ap Sp.
    apply axis_line; try assumption.
    - intros k Hk. apply (holds_eq b s _ _ _ _ (An k Hk)); lia.
    - intros H. apply Sn. apply (holds_eq b s _ _ _ _ H); lia. }
  pose proof (Haxis 0 1 h1 h2 Hh1 Hh2 Ah1 Sh1 Ah2 Sh2) as Ih.
  pose proof (Haxis 1 1 b1 b2 Hb1 Hb2 Ab1 Sb1 Ab2 Sb2) as Ib.
  pose proof (Haxis 1 (-1) s1 s2 Hs1 Hs2 As1 Ss1 As2 Ss2) as Is.
  pose proof (Haxis 1 0 v1 v2 Hv1 Hv2 Av1 Sv1 Av2 Sv2) as Iv.
  eexists. split; [reflexivity|]. unfold line_through. split.
  - intros Hw.
    assert (Hsome : 4 <= 1 + h1 + h2 \/ 4 <= 1 + b1 + b2
                    \/ 4 <= 1 + s1 + s2 \/ 4 <= 1 + v1 + v2) by lia.
    destruct Hsome as [G | [G | [G | G]]].
    + apply Ih in G as (r0 & c0 & k & G). exists r0, c0, 0, 1, k.
      split; [cbn; tauto|exact G].
    + apply Ib in G as (r0 & c0 & k & G). exists r0, c0, 1, 1, k.
      split; [cbn; tauto|exact G].
    + apply Is in G as (r0 & c0 & k & G). exists r0, c0, 1, (-1), k.
      split; [cbn; tauto|exact G].
    + apply Iv in G as (r0 & c0 & k & G). exists r0, c0, 1, 0, k.
      split; [cbn; tauto|exact G].
  - intros (r0 & c0 & dr & dc & k & Hd & G).
    assert (Hsome : 4 <= 1 + h1 + h2 \/ 4 <= 1 + b1 + b2
                    \/ 4 <= 1 + s1 + s2 \/ 4 <= 1 + v1 + v2).
    { cbn in Hd.
      destruct Hd as [Hd | [Hd | [Hd | [Hd | []]]]]; injection Hd as <- <-.
      - left. apply Ih. exists r0, c0, k. exact G.
      - right. right. right. apply Iv. exists r0, c0, k. exact G.
      - right. left. apply Ib. exists r0, c0, k. exact G.
      - right. right. left. apply Is. exists r0, c0, k. exact G. }
    lia.
Qed.

(** X12. The check of the current player, run at a slot of the board that
    holds the symbol, is sound and complete: it returns, and it answers
    [True] exactly when a line of four of the symbol, along a row, a column
    or a diagonal, goes through that slot. *)
Theorem current_player_check_finds_lines (b : Board) (s : string)
  (inserted_row column_i0 : Z) :
  well_formed b -> holds b s inserted_row column_i0 ->
  exists w,
    snd (current_player_check b s inserted_row column_i0) = Ok w
    /\ (w = true <-> line_through b s inserted_row column_i0).
Proof. exact (current_player_check_lines b s inserted_row column_i0). Qed.

Lemma current_player_check_finds_lines_witness :
  well_formed cross_turn_board
  /\ holds cross_turn_board "X" 5 3
  /\ exists w,
       snd (current_player_check cross_turn_board "X" 5 3) = Ok w
       /\ (w = true <-> line_through cross_turn_board "X" 5 3).
Proof.
  assert (Hwf : well_formed cross_turn_board)
    by (split; [reflexivity|repeat constructor]).
  assert (H0 : holds cross_turn_board "X" 5 3)
    by (split; vm_compute; reflexivity).
  split; [exact Hwf|]. split; [exact H0|].
  exact (current_player_check_finds_lines cross_turn_board "X" 5 3 Hwf H0).
Defined.

(** ** A turn with a standard piece *)

(** Above a blank slot of a board where nothing floats, the column is
    blank. *)
Lemma no_floating_above_blank (b : Board) (row column : Z) :
  no_floating b -> 0 <= column < columns b -> row < rows b ->
  occupied (cell b row column) = false ->
  forall r, 0 <= r <= row -> occupied (cell b r column) = false.
Proof.
  intros Hnf Hc Hrow Hblank.
  assert (H : forall k : nat, 0 <= row - Z.of_nat k ->
                occupied (cell b (row - Z.of_nat k) column) = false).
  { induction k as [|k IH]; intros Hk.
    - replace (row - Z.of_nat 0) with row by lia. exact Hblank.
    - pose proof (Hnf (row - Z.of_nat (S k)) column ltac:(lia) ltac:(lia) Hc)
        as Hfl.
      unfold floating in Hfl.
      replace (row - Z.of_nat (S k) + 1) with (row - Z.of_nat k) in Hfl by lia.
      rewrite IH in Hfl by lia. cbn [negb] in Hfl.
      rewrite andb_true_r in Hfl. exact Hfl. }
  intros r Hr. replace r with (row - Z.of_nat (Z.to_nat (row - r))) by lia.
  apply H. lia.
Qed.

(** A search of [range(n)] stops at the first row that passes the test. *)
Lemma find_py_range_first (P : Z -> bool) (n row : Z) :
  0 <= row < n -> P row = true -> (forall r, 0 <= r < row -> P r = false) ->
  List.find P (py_range 0 n) = Some row.
Proof.
  intros Hrow Htrue Hfalse. unfold py_range.
  assert (H : forall len start : nat,
    (start <= Z.to_nat row < start + len)%nat ->
    List.find P (map (fun k : nat => 0 + Z.of_nat k) (seq start len))
    = Some row).
  { induction len as [|len IH]; intros start Hs; [lia|].
    cbn [seq map List.find].
    destruct (Nat.eq_dec start (Z.to_nat row)) as [E|E].
    - replace (0 + Z.of_nat start) with row by lia. rewrite Htrue. reflexivity.
    - rewrite Hfalse by lia. apply IH. lia. }
  apply H. lia.
Qed.

(** X13. A turn of a sound game in which a standard piece with a symbol
    other than the blank is inserted: the piece is on the lowest blank slot
    of its column, the search for the inserted row finds that slot, and the
    turn ends as [conclude] decides from two flags, the first set exactly
    when a line of four of the piece's symbol goes through the slot, the
    second exactly when the board holds a line of four of the other
    player's symbol. *)
Theorem standard_turn_outcome (g : Game) (selection : option (string * Z))
  (chooser : Player) (s : string) (column : Z) (b' : Board) :
  sound g -> s <> blank ->
  choose_piece (player_at g (current_player g)) selection
  = (chooser, Some (StandardPiece s, column)) ->
  insert (StandardPiece s) (board g) column = Ok (b', true) ->
  exists row t0 t current_player_wins otherplayer_wins,
    lowest_blank (board g) (column - 1) = Some row
    /\ b' = put (board g) row (column - 1) s
    /\ find_inserted_row b' s (column - 1) (py_range 0 (rows b')) (-1)
       = (t0, Ok row)
    /\ (current_player_wins = true <-> line_through b' s row (column - 1))
    /\ (otherplayer_wins = true
        <-> has_line b' (symbol (player_at g (other (current_player g)))))
    /\ turn g selection
       = (t, Ok (conclude
                   (with_board (with_player g (current_player g) chooser) b')
                   current_player_wins otherplayer_wins)).
Proof.
  intros (Hwf & Hnf & _) Hs Hchoose Hinsert.
  pose proof (choose_piece_nonempty _ _ _ _ Hchoose) as Hne.
  destruct (insert_success _ _ _ _ Hwf Hinsert) as (Hc & row & Hlow).
  pose proof (lowest_blank_Some _ _ _ Hlow) as (Hrow & Hblank & _).
  assert (Hb' : b' = put (board g) row (column - 1) s).
  { cbn [insert] in Hinsert. rewrite Piece_insert_spec in Hinsert by exact Hwf.
    replace ((0 <=? column - 1) && (column - 1 <? columns (board g)))
      with true in Hinsert by lia.
    unfold place in Hinsert. rewrite Hlow in Hinsert.
    injection Hinsert as <-. reflexivity. }
  assert (Hin : in_grid (board g) row (column - 1) = true)
    by (apply in_grid_bounds; lia).
  assert (Hwf' : well_formed b') by (subst b'; apply put_well_formed; exact Hwf).
  assert (HR : rows b' = rows (board g)) by (subst b'; apply put_rows).
  assert (HC : columns b' = columns (board g)) by (subst b'; apply put_columns).
  assert (Hcell : cell b' row (column - 1) = s)
    by (subst b'; apply cell_put_same; assumption).
  assert (Hin' : in_grid b' row (column - 1) = true)
    by (apply in_grid_bounds; lia).
  destruct (find_inserted_row_within b' s (column - 1)
              (py_range 0 (rows b')) (-1) Hwf')
    as (t0 & inserted_row & Hfind & _ & Hfound).
  { lia. }
  { intros r Hr. apply in_py_range in Hr. lia. }
  rewrite (find_py_range_first _ (rows b') row) in Hfound.
  2:{ lia. }
  2:{ rewrite Hcell. apply String.eqb_refl. }
  2:{ intros r Hr. apply String.eqb_neq. intros E.
      assert (Hold : cell b' r (column - 1) = cell (board g) r (column - 1)).
      { subst b'. apply cell_put_other; [exact Hwf|exact Hin|lia|lia|left; lia]. }
      rewrite Hold in E.
      pose proof (no_floating_above_blank (board g) row (column - 1) Hnf Hc
                    ltac:(lia) Hblank r ltac:(lia)) as Hr0.
      apply occupied_false in Hr0. congruence. }
  subst inserted_row.
  destruct (current_player_check_lines b' s row (column - 1) Hwf')
    as (cw & Ecw & Icw); [split; assumption|].
  destruct (otherplayer_check_lines b'
              (symbol (player_at g (other (current_player g)))) Hwf')
    as (ow & Eow & Iow).
  destruct (current_player_check b' s row (column - 1)) as [t1 r1] eqn:Hcur.
  cbn [snd] in Ecw. subst r1.
  destruct (otherplayer_check b'
              (symbol (player_at g (other (current_player g)))))
    as [t2 r2] eqn:Hoth.
  cbn [snd] in Eow. subst r2.
  exists row, t0, (t0 ++ t1 ++ t2)%list, cw, ow.
  split; [exact Hlow|]. split; [exact Hb'|]. split; [exact Hfind|].
  split; [exact Icw|]. split; [exact Iow|].
  apply (turn_concludes g selection chooser (StandardPiece s) column b'
           t0 t1 t2 row cw ow Hne Hchoose Hinsert Hfind Hcur Hoth).
Qed.

Lemma standard_turn_outcome_witness :
  sound sample_game /\ "X" <> blank
  /\ exists row t0 t current_player_wins otherplayer_wins,
       lowest_blank (board sample_game) (4 - 1) = Some row
       /\ put (board sample_game) 5 3 "X"
          = put (board sample_game) row (4 - 1) "X"
       /\ find_inserted_row (put (board sample_game) 5 3 "X") "X" (4 - 1)
            (py_range 0 (rows (put (board sample_game) 5 3 "X"))) (-1)
          = (t0, Ok row)
       /\ (current_player_wins = true
           <-> line_through (put (board sample_game) 5 3 "X") "X" row (4 - 1))
       /\ (otherplayer_wins = true
           <-> has_line (put (board sample_game) 5 3 "X")
                 (symbol (player_at sample_game
                            (other (current_player sample_game)))))
       /\ turn sample_game (Some ("X", 4))
          = (t, Ok (conclude
                      (with_board
                         (with_player sample_game (current_player sample_game)
                            (fst (choose_piece
                                    (player_at sample_game
                                       (current_player sample_game))
                                    (Some ("X", 4)))))
                         (put (board sample_game) 5 3 "X"))
                      current_player_wins otherplayer_wins)).
Proof.
  assert (Hsound : sound sample_game)
    by exact (setup_sound 6 7 ("ann", "X") ("bob", "O")).
  split; [exact Hsound|]. split; [discriminate|].
  apply (standard_turn_outcome sample_game (Some ("X", 4)) _ "X" 4 _ Hsound);
    [discriminate|vm_compute; reflexivity|vm_compute; reflexivity].
Defined.

(** ** Which insertions are accepted *)

(** A column off the board or without a blank slot refuses every piece, and
    a board where nothing floats is left as it was. *)
Lemma insert_refused (p : Piece) (b : Board) (column : Z) :
  well_formed b -> no_floating b ->
  ~ (0 <= column - 1 < columns b) \/ lowest_blank b (column - 1) = None ->
  insert p b column = Ok (b, false).
Proof.
  intros Hwf Hnf Hfull. destruct p as [s| |]; cbn [insert].
  - rewrite Piece_insert_spec by exact Hwf.
    destruct ((0 <=? column - 1) && (column - 1 <? columns b)) eqn:E;
      [|reflexivity].
    destruct Hfull as [Hc|Hnone]; [lia|]. unfold place. rewrite Hnone.
    reflexivity.
  - unfold BombPiece_insert, gravity_decorator.
    rewrite BombPiece_insert_undecorated_full by assumption. cbn [bind].
    rewrite gravity_settled by assumption. reflexivity.
  - unfold TeleportPiece_insert, gravity_decorator.
    rewrite TeleportPiece_insert_undecorated_full by assumption. cbn [bind].
    rewrite gravity_settled by assumption. reflexivity.
Qed.

(** A column of the board with a blank slot accepts every piece. *)
Lemma insert_accepted (p : Piece) (b : Board) (column row : Z) :
  well_formed b -> 0 <= column - 1 < columns b ->
  lowest_blank b (column - 1) = Some row ->
  exists b', insert p b column = Ok (b', true).
Proof.
  intros Hwf Hc Hlow. destruct p as [s| |]; cbn [insert].
  - rewrite Piece_insert_spec by exact Hwf.
    replace ((0 <=? column - 1) && (column - 1 <? columns b)) with true by lia.
    unfold place. rewrite Hlow. eexists. reflexivity.
  - unfold BombPiece_insert, gravity_decorator.
    rewrite (BombPiece_insert_undecorated_spec b column row Hwf Hc Hlow).
    destruct (detonate_spec (put b row (column - 1) "B")
                (lowest_symbol (put b row (column - 1) "B") "B" (column - 1))
                (column - 1)) as (b2 & H & Hwf2 & _).
    { apply put_well_formed. exact Hwf. }
    rewrite H. cbn [bind].
    destruct (gravity_settles b2 Hwf2) as (b3 & Hg & _).
    rewrite Hg. exists b3. reflexivity.
  - unfold TeleportPiece_insert, gravity_decorator.
    rewrite (TeleportPiece_insert_undecorated_spec b column row Hwf Hc Hlow).
    cbv zeta. cbn [bind].
    match goal with
    | |- context [gravity (swap_from ?b2 ?r ?c)] =>
        destruct (swap_from_well_formed b2 r c) as (H1 & _);
          [do 2 apply put_well_formed; exact Hwf|];
        destruct (gravity_settles (swap_from b2 r c) H1) as (b3 & Hg & _);
        rewrite Hg; exists b3; reflexivity
    end.
Qed.

Lemma lowest_blank_exists (b : Board) (column_i0 row : Z) :
  0 <= row < rows b -> cell b row column_i0 = blank ->
  exists row', lowest_blank b column_i0 = Some row'.
Proof.
  intros Hrow Hblank.
  destruct (lowest_blank b column_i0) as [row'|] eqn:Hlow; [eauto|].
  pose proof (lowest_blank_None _ _ Hlow row Hrow) as H.
  rewrite Hblank in H. discriminate.
Qed.

(** X14. On a well formed board where nothing floats, the insertion of a
    piece of any class returns; it returns [True] exactly when the column is
    one of the board (counted from 1) and has a blank slot, and when it
    returns [False] the board is as it was. *)
Theorem insert_accepts_open_columns (p : Piece) (b : Board) (column : Z) :
  well_formed b -> no_floating b ->
  exists b' inserted,
    insert p b column = Ok (b', inserted)
    /\ (inserted = true
        <-> 1 <= column <= columns b
            /\ exists row, 0 <= row < rows b
                           /\ cell b row (column - 1) = blank)
    /\ (inserted = false -> b' = b).
Proof.
  intros Hwf Hnf.
  destruct (decide (0 <= column - 1 < columns b)) as [Hc|Hc].
  - destruct (lowest_blank b (column - 1)) as [row|] eqn:Hlow.
    + destruct (insert_accepted p b column row Hwf Hc Hlow) as [b' H].
      exists b', true. split; [exact H|]. split; [|discriminate].
      split; [intros _|reflexivity]. split; [lia|]. exists row.
      apply lowest_blank_Some in Hlow as (Hrow & Hblank & _).
      split; [exact Hrow|]. apply occupied_false. exact Hblank.
    + exists b, false. split; [apply insert_refused; auto|].
      split; [|reflexivity]. split; [discriminate|].
      intros (_ & row & Hrow & Hblank).
      destruct (lowest_blank_exists b (column - 1) row Hrow Hblank) as [r Hr].
      congruence.
  - exists b, false. split; [apply insert_refused; auto|].
    split; [|reflexivity]. split; [discriminate|]. intros (Hcol & _). lia.
Qed.

Lemma insert_accepts_open_columns_witness :
  well_formed (board draw_game) /\ no_floating (board draw_game)
  /\ exists b' inserted,
       insert BombPiece (board draw_game) 7 = Ok (b', inserted)
       /\ (inserted = true
           <-> 1 <= 7 <= columns (board draw_game)
               /\ exists row, 0 <= row < rows (board draw_game)
                              /\ cell (board draw_game) row (7 - 1) = blank)
       /\ (inserted = false -> b' = board draw_game).
Proof.
  assert (Hsound : sound draw_game).
  { pose proof (play_sound 20 sample_game (map Some draw_lines)
                  (setup_sound 6 7 ("ann", "X") ("bob", "O"))) as H.
    assert (E : snd (play 20 sample_game (map Some draw_lines))
                = Ok (draw_game, InProgress)) by (vm_compute; reflexivity).
    rewrite E in H. exact (proj1 H). }
  destruct Hsound as (Hwf & Hnf & _).
  split; [exact Hwf|]. split; [exact Hnf|].
  exact (insert_accepts_open_columns BombPiece (board draw_game) 7 Hwf Hnf).
Defined.

(** ** Moves that are not played *)



Lemma pop_symbol_absent (chosen : string) (ps : list Piece) :
  Forall (fun q => piece_symbol q <> chosen) ps -> pop_symbol chosen ps = None.
Proof.
  induction 1 as [|q ps Hq _ IH]; [reflexivity|].
  cbn [pop_symbol]. apply String.eqb_neq in Hq. rewrite Hq, IH. reflexivity.
Qed.

(** X16. A line that is not a symbol and an integer, or that names a symbol
    of which the player to move holds no piece, changes nothing: the turn
    makes no read of the grid and returns the same game, with the same
    player to move. *)
Theorem unplayable_line_changes_nothing (g : Game)
  (selection : option (string * Z)) :
  pieces (player_at g (current_player g)) <> [] ->
  match selection with
  | None => True
  | Some (chosen, _) =>
      Forall (fun q => piece_symbol q <> chosen)
        (pieces (player_at g (current_player g)))
  end ->
  turn g selection = ([], Ok (g, InProgress)).
Proof.
  intros Hne Hsel.
  apply (turn_without_piece g selection (player_at g (current_player g)) Hne).
  unfold choose_piece. destruct selection as [[chosen column]|]; [|reflexivity].
  rewrite (pop_symbol_absent _ _ Hsel). reflexivity.
Qed.

Lemma unplayable_line_changes_nothing_witness :
  pieces (player_at sample_game (current_player sample_game)) <> []
  /\ Forall (fun q => piece_symbol q <> "O")
       (pieces (player_at sample_game (current_player sample_game)))
  /\ turn sample_game (Some ("O", 3)) = ([], Ok (sample_game, InProgress)).
Proof.
  assert (Hne : pieces (player_at sample_game (current_player sample_game))
                <> []) by (vm_compute; discriminate).
  assert (Hnone : Forall (fun q => piece_symbol q <> "O")
                    (pieces (player_at sample_game
                               (current_player sample_game)))).
  { vm_compute. repeat constructor; discriminate. }
  split; [exact Hne|]. split; [exact Hnone|].
  exact (unplayable_line_changes_nothing sample_game (Some ("O", 3)) Hne Hnone).
Defined.

(** ** The bomb and the teleport on the boards of a game *)

(** X17. A bomb inserted in a column with a blank slot, when no slot of the
    column beneath the lowest blank one holds a "B" (so on every board of a
    game): the board before gravity is the old board with the slots next to
    the landing slot, and that slot, blank; gravity then runs on it, and the
    insertion returns the settled board and [True]. *)
Theorem bomb_blast_around_landing_slot (b : Board) (column row : Z) :
  well_formed b -> 0 <= column - 1 < columns b ->
  lowest_blank b (column - 1) = Some row ->
  (forall row', row < row' < rows b -> cell b row' (column - 1) <> "B") ->
  exists b2 b3,
    BombPiece_insert_undecorated b column = Ok (b2, true)
    /\ well_formed b2 /\ rows b2 = rows b /\ columns b2 = columns b
    /\ (forall i j, in_grid b i j = true ->
          cell b2 i j
          = if adjacent row (column - 1) i j then blank else cell b i j)
    /\ gravity b2 = Ok b3
    /\ no_floating b3
    /\ BombPiece_insert b column = Ok (b3, true).
Proof.
  intros Hwf Hc Hlow Hfresh.
  destruct (bomb_clears_neighbourhood b column row Hwf Hc Hlow Hfresh)
    as (b2 & b3 & Hund & Hcells & Hg & Hins).
  destruct (BombPiece_insert_undecorated_returns b column Hwf)
    as (b2' & ok & Hret & Hwf2 & HR & HC).
  rewrite Hund in Hret. injection Hret as <- <-.
  destruct (gravity_settles b2 Hwf2) as (b3' & Hg' & _ & _ & _ & _ & Hnf).
  rewrite Hg in Hg'. injection Hg' as <-.
  exists b2, b3. repeat (split; [assumption|]). assumption.
Qed.

Lemma bomb_blast_around_landing_slot_witness :
  well_formed (board draw_game) /\ 0 <= 5 - 1 < columns (board draw_game)
  /\ lowest_blank (board draw_game) (5 - 1) = Some 5
  /\ (forall row', 5 < row' < rows (board draw_game) ->
        cell (board draw_game) row' (5 - 1) <> "B")
  /\ exists b2 b3,
       BombPiece_insert_undecorated (board draw_game) 5 = Ok (b2, true)
       /\ well_formed b2 /\ rows b2 = rows (board draw_game)
       /\ columns b2 = columns (board draw_game)
       /\ (forall i j, in_grid (board draw_game) i j = true ->
             cell b2 i j
             = if adjacent 5 (5 - 1) i j then blank
               else cell (board draw_game) i j)
       /\ gravity b2 = Ok b3
       /\ no_floating b3
       /\ BombPiece_insert (board draw_game) 5 = Ok (b3, true).
Proof.
  assert (Hsound : sound draw_game).
  { pose proof (play_sound 20 sample_game (map Some draw_lines)
                  (setup_sound 6 7 ("ann", "X") ("bob", "O"))) as H.
    assert (E : snd (play 20 sample_game (map Some draw_lines))
                = Ok (draw_game, InProgress)) by (vm_compute; reflexivity).
    rewrite E in H. exact (proj1 H). }
  destruct Hsound as (Hwf & Hnf & _).
  assert (HR : rows (board draw_game) = 6) by (vm_compute; reflexivity).
  assert (HC : columns (board draw_game) = 7) by (vm_compute; reflexivity).
  assert (Hc : 0 <= 5 - 1 < columns (board draw_game)) by (rewrite HC; lia).
  assert (Hlow : lowest_blank (board draw_game) (5 - 1) = Some 5)
    by (vm_compute; reflexivity).
  assert (Hfresh : forall row', 5 < row' < rows (board draw_game) ->
                     cell (board draw_game) row' (5 - 1) <> "B")
    by (intros row' Hrow'; rewrite HR in Hrow'; lia).
  split; [exact Hwf|]. split; [exact Hc|]. split; [exact Hlow|].
  split; [exact Hfresh|].
  exact (bomb_blast_around_landing_slot (board draw_game) 5 5 Hwf Hc Hlow
           Hfresh).
Defined.

(** X18. A teleport inserted in a column with a blank slot, on a board where
    nothing floats and no slot of the column beneath the lowest blank one
    holds a "T": when the slot mirrored from the landing slot is blank the
    insertion returns the board as it was; otherwise the symbol of the
    mirrored slot leaves it for the lowest slot then blank in the column of
    the teleport, and gravity runs on the result. The teleport itself is
    not on the board in either case. *)
Theorem teleport_moves_mirrored_symbol (b : Board) (column row : Z) :
  well_formed b -> no_floating b -> 0 <= column - 1 < columns b ->
  lowest_blank b (column - 1) = Some row ->
  (forall row', row < row' < rows b -> cell b row' (column - 1) <> "T") ->
  let mirrored_row := mirrored (rows b) row in
  let mirrored_column := mirrored (columns b) (column - 1) in
  (cell b mirrored_row mirrored_column = blank ->
   TeleportPiece_insert b column = Ok (b, true))
  /\ (cell b mirrored_row mirrored_column <> blank ->
      exists row' b3,
        lowest_blank (put b mirrored_row mirrored_column blank) (column - 1)
        = Some row'
        /\ gravity (put (put b mirrored_row mirrored_column blank)
                      row' (column - 1) (cell b mirrored_row mirrored_column))
           = Ok b3
        /\ no_floating b3
        /\ TeleportPiece_insert b column = Ok (b3, true)).
Proof.
  intros Hwf Hnf Hc Hlow Hfresh mirrored_row mirrored_column.
  destruct (teleport_swaps_mirror b column row Hwf Hc Hlow Hfresh)
    as [_ Hins].
  pose proof (lowest_blank_Some _ _ _ Hlow) as (Hrow & Hblank & _).
  apply occupied_false in Hblank.
  assert (Hmir : in_grid b mirrored_row mirrored_column = true).
  { apply in_grid_bounds. unfold mirrored_row, mirrored_column, mirrored. lia. }
  split.
  - intros Hm. rewrite Hins. unfold swap_from. cbv zeta.
    fold mirrored_row mirrored_column. rewrite Hm, occupied_blank.
    rewrite gravity_settled by assumption. reflexivity.
  - intros Hm.
    assert (Hocc : occupied (cell b mirrored_row mirrored_column) = true).
    { destruct (occupied (cell b mirrored_row mirrored_column)) eqn:E;
        [reflexivity|]. apply occupied_false in E. contradiction. }
    set (b1 := put b mirrored_row mirrored_column blank).
    assert (Hwf1 : well_formed b1) by (apply put_well_formed; exact Hwf).
    assert (Hblank1 : cell b1 row (column - 1) = blank).
    { unfold b1. rewrite cell_put by (assumption || lia).
      destruct ((row =? mirrored_row) && (column - 1 =? mirrored_column));
        [reflexivity|exact Hblank]. }
    destruct (lowest_blank_exists b1 (column - 1) row) as [row' Hlow1];
      [unfold b1; rewrite put_rows; exact Hrow|exact Hblank1|].
    assert (Hwf2 : well_formed
                     (put b1 row' (column - 1)
                        (cell b mirrored_row mirrored_column)))
      by (apply put_well_formed; exact Hwf1).
    destruct (gravity_settles _ Hwf2) as (b3 & Hg & _ & _ & _ & _ & Hnf3).
    exists row', b3. split; [exact Hlow1|]. split; [exact Hg|].
    split; [exact Hnf3|].
    rewrite Hins. unfold swap_from. cbv zeta.
    fold mirrored_row mirrored_column. rewrite Hocc. fold b1.
    unfold place. rewrite Hlow1. cbn [fst]. rewrite Hg. reflexivity.
Qed.

Lemma teleport_moves_mirrored_symbol_witness :
  well_formed (board draw_game) /\ no_floating (board draw_game)
  /\ 0 <= 1 - 1 < columns (board draw_game)
  /\ lowest_blank (board draw_game) (1 - 1) = Some 4
  /\ (forall row', 4 < row' < rows (board draw_game) ->
        cell (board draw_game) row' (1 - 1) <> "T")
  /\ (cell (board draw_game) (mirrored (rows (board draw_game)) 4)
        (mirrored (columns (board draw_game)) (1 - 1)) = blank ->
      TeleportPiece_insert (board draw_game) 1 = Ok (board draw_game, true))
  /\ (cell (board draw_game) (mirrored (rows (board draw_game)) 4)
        (mirrored (columns (board draw_game)) (1 - 1)) <> blank ->
      exists row' b3,
        lowest_blank
          (put (board draw_game) (mirrored (rows (board draw_game)) 4)
             (mirrored (columns (board draw_game)) (1 - 1)) blank) (1 - 1)
        = Some row'
        /\ gravity
             (put (put (board draw_game)
                     (mirrored (rows (board draw_game)) 4)
                     (mirrored (columns (board draw_game)) (1 - 1)) blank)
                row' (1 - 1)
                (cell (board draw_game) (mirrored (rows (board draw_game)) 4)
                   (mirrored (columns (board draw_game)) (1 - 1))))
           = Ok b3
        /\ no_floating b3
        /\ TeleportPiece_insert (board draw_game) 1 = Ok (b3, true)).
Proof.
  assert (Hsound : sound draw_game).
  { pose proof (play_sound 20 sample_game (map Some draw_lines)
                  (setup_sound 6 7 ("ann", "X") ("bob", "O"))) as H.
    assert (E : snd (play 20 sample_game (map Some draw_lines))
                = Ok (draw_game, InProgress)) by (vm_compute; reflexivity).
    rewrite E in H. exact (proj1 H). }
  destruct Hsound as (Hwf & Hnf & _).
  assert (HR : rows (board draw_game) = 6) by (vm_compute; reflexivity).
  assert (HC : columns (board draw_game) = 7) by (vm_compute; reflexivity).
  assert (Hc : 0 <= 1 - 1 < columns (board draw_game)) by (rewrite HC; lia).
  assert (Hlow : lowest_blank (board draw_game) (1 - 1) = Some 4)
    by (vm_compute; reflexivity).
  assert (Hfresh : forall row', 4 < row' < rows (board draw_game) ->
                     cell (board draw_game) row' (1 - 1) <> "T").
  { intros row' Hrow'. rewrite HR in Hrow'. assert (row' = 5) as -> by lia.
    vm_compute. discriminate. }
  split; [exact Hwf|]. split; [exact Hnf|]. split; [exact Hc|].
  split; [exact Hlow|]. split; [exact Hfresh|].
  exact (teleport_moves_mirrored_symbol (board draw_game) 1 4 Hwf Hnf Hc Hlow
           Hfresh).
Defined.

(** ** The names and symbols [Game.setup] accepts *)





Lemma standard_turn_reads_on_board_witness :
  well_formed (board sample_game)
  /\ pieces (player_at sample_game (current_player sample_game)) <> []
  /\ reads_within 0 0 (put (board sample_game) 5 3 "X") (fun _ => True)
       (turn sample_game (Some ("X", 4))).
Proof.
  assert (Hne : pieces (player_at sample_game (current_player sample_game))
                <> []) by (vm_compute; discriminate).
  split; [exact sample_game_well_formed|]. split; [exact Hne|].
  apply (standard_turn_reads_on_board sample_game (Some ("X", 4))
           (fst (choose_piece
                   (player_at sample_game (current_player sample_game))
                   (Some ("X", 4))))
           "X" 4 (put (board sample_game) 5 3 "X") sample_game_well_formed Hne);
    vm_compute; reflexivity.
Defined.

(** ** The display of the board *)

Lemma string_length_append (s1 s2 : string) :
  String.length (s1 ++ s2) = (String.length s1 + String.length s2)%nat.
Proof. induction s1 as [|c s1 IH]; cbn; [reflexivity|]. rewrite IH. reflexivity. Qed.

Lemma string_append_assoc (s1 s2 s3 : string) :
  (s1 ++ s2) ++ s3 = s1 ++ s2 ++ s3.
Proof. induction s1 as [|c s1 IH]; cbn; [reflexivity|]. rewrite IH. reflexivity. Qed.

Lemma get_append_right (s1 s2 : string) (n : nat) :
  String.get (String.length s1 + n) (s1 ++ s2) = String.get n s2.
Proof. rewrite Nat.add_comm. symmetry. apply append_correct2. Qed.

Lemma get_append_left (s1 s2 : string) (n : nat) :
  (n < String.length s1)%nat -> String.get n (s1 ++ s2) = String.get n s1.
Proof. intros H. symmetry. apply append_correct1. exact H. Qed.

Lemma get_Some_lt (s : string) (n : nat) (c : ascii) :
  String.get n s = Some c -> (n < String.length s)%nat.
Proof.
  revert n. induction s as [|c' s IH]; intros n; cbn; [discriminate|].
  destruct n as [|n]; [lia|]. intros H. apply IH in H. lia.
Qed.

Lemma fold_left_cat {A} (f : A -> string) (l : list A) (acc : string) :
  fold_left (fun s x => s ++ f x) l acc = acc ++ cat (map f l).
Proof.
  revert acc. induction l as [|x l IH]; intros acc; cbn [fold_left map cat fold_right].
  - induction acc as [|c acc IHa]; cbn; [reflexivity|]. rewrite <- IHa. reflexivity.
  - rewrite IH. fold (cat (map f l)). apply string_append_assoc.
Qed.

Lemma cat_length (w : nat) (l : list string) :
  Forall (fun s => String.length s = w) l ->
  String.length (cat l) = (length l * w)%nat.
Proof.
  induction 1 as [|s l Hs _ IH]; [reflexivity|].
  cbn [cat fold_right length]. fold (cat l).
  rewrite string_length_append, Hs, IH. lia.
Qed.

(** In a run of strings of one width, the characters of the i-th one are
    found [i] widths further. *)
Lemma cat_get (w : nat) (l : list string) (tail : string) (i n : nat)
  (s : string) :
  Forall (fun s => String.length s = w) l -> l !! i = Some s -> (n < w)%nat ->
  String.get (i * w + n) (cat l ++ tail) = String.get n s.
Proof.
  intros Hl. revert i. induction Hl as [|x l Hx Hl IH]; intros i Hi Hn;
    [discriminate|].
  cbn [cat fold_right]. fold (cat l). rewrite string_append_assoc.
  destruct i as [|i].
  - injection Hi as ->. cbn [Nat.mul Nat.add].
    apply get_append_left. lia.
  - cbn [lookup list_lookup] in Hi.
    replace (S i * w + n)%nat with (String.length x + (i * w + n))%nat by lia.
    rewrite get_append_right. apply IH; assumption.
Qed.

Lemma horizontal_border_shape (b : Board) :
  horizontal_border b
  = "+" ++ cat (map (fun _ : Z => "---+") (py_range 0 (columns b))) ++ newline.
Proof.
  unfold horizontal_border. rewrite fold_left_cat. apply string_append_assoc.
Qed.

Lemma horizontal_border_length (b : Board) :
  String.length (horizontal_border b) = line_width b.
Proof.
  rewrite horizontal_border_shape. cbn [String.append String.length].
  rewrite string_length_append, (cat_length 4).
  - rewrite length_map, py_range_length. unfold line_width. cbn. lia.
  - apply Forall_map, Forall_forall. intros ? _. reflexivity.
Qed.

Lemma middle_line_shape (row : list string) :
  middle_line row
  = "|" ++ cat (map (fun space => " " ++ space ++ " |") row) ++ newline.
Proof.
  unfold middle_line. rewrite fold_left_cat. apply string_append_assoc.
Qed.

Lemma slot_width (row : list string) :
  Forall (fun s => String.length s = 1%nat) row ->
  Forall (fun s => String.length s = 4%nat)
    (map (fun space => " " ++ space ++ " |") row).
Proof.
  intros H. apply Forall_map. eapply Forall_impl; [exact H|].
  intros s Hs. cbn [String.append String.length].
  rewrite string_length_append, Hs. reflexivity.
Qed.

Lemma middle_line_length (b : Board) (row : list string) :
  length row = Z.to_nat (columns b) ->
  Forall (fun s => String.length s = 1%nat) row ->
  String.length (middle_line row) = line_width b.
Proof.
  intros Hlen Hrow. rewrite middle_line_shape.
  cbn [String.append String.length].
  rewrite string_length_append, (cat_length 4) by (apply slot_width; exact Hrow).
  rewrite length_map, Hlen. unfold line_width. cbn. lia.
Qed.

Lemma middle_line_get (row : list string) (j : nat) (slot : string) :
  Forall (fun s => String.length s = 1%nat) row -> row !! j = Some slot ->
  String.get (4 * j + 2) (middle_line row) = String.get 0 slot.
Proof.
  intros Hrow Hj. rewrite middle_line_shape.
  replace (4 * j + 2)%nat with (S (j * 4 + 1)) by lia.
  cbn [String.append String.get].
  rewrite (cat_get 4 _ _ j 1 (" " ++ slot ++ " |")).
  - cbn [String.append String.get]. apply get_append_left.
    rewrite Forall_lookup in Hrow. rewrite (Hrow _ _ Hj). lia.
  - apply slot_width. exact Hrow.
  - rewrite list_lookup_fmap, Hj. reflexivity.
  - lia.
Qed.

Lemma display_shape (b : Board) :
  display b
  = cat (map (fun row => horizontal_border b ++ middle_line row) (grid b))
    ++ horizontal_border b.
Proof.
  unfold display. f_equal.
  assert (H : forall l acc,
    fold_left
      (fun shown row => (shown ++ horizontal_border b) ++ middle_line row) l acc
    = acc ++ cat (map (fun row => horizontal_border b ++ middle_line row) l)).
  { induction l as [|row l IH]; intros acc; cbn [fold_left map cat fold_right].
    - induction acc as [|c acc IHa]; cbn; [reflexivity|].
      rewrite <- IHa. reflexivity.
    - rewrite IH. fold (cat (map (fun row => horizontal_border b ++ middle_line row) l)).
      rewrite !string_append_assoc. reflexivity. }
  rewrite H. reflexivity.
Qed.

Lemma display_blocks (b : Board) :
  well_formed b ->
  Forall (Forall (fun s => String.length s = 1%nat)) (grid b) ->
  Forall (fun s => String.length s = (2 * line_width b)%nat)
    (map (fun row => horizontal_border b ++ middle_line row) (grid b)).
Proof.
  intros [_ Hrows] Hslots. apply Forall_map.
  rewrite Forall_forall in Hrows, Hslots. apply Forall_forall.
  intros row Hrow. rewrite string_length_append, horizontal_border_length.
  rewrite (middle_line_length b) by auto. lia.
Qed.

Lemma horizontal_border_last (b : Board) :
  String.get (line_width b - 1) (horizontal_border b) = String.get 0 newline.
Proof.
  rewrite horizontal_border_shape.
  replace (line_width b - 1)%nat
    with (S (String.length
               (cat (map (fun _ : Z => "---+") (py_range 0 (columns b)))) + 0)).
  - cbn [String.append String.get]. apply get_append_right.
  - rewrite (cat_length 4)
      by (apply Forall_map, Forall_forall; intros ? _; reflexivity).
    rewrite length_map, py_range_length. unfold line_width. lia.
Qed.

Lemma middle_line_last (b : Board) (row : list string) :
  length row = Z.to_nat (columns b) ->
  Forall (fun s => String.length s = 1%nat) row ->
  String.get (line_width b - 1) (middle_line row) = String.get 0 newline.
Proof.
  intros Hlen Hrow. rewrite middle_line_shape.
  replace (line_width b - 1)%nat
    with (S (String.length
               (cat (map (fun space => " " ++ space ++ " |") row)) + 0)).
  - cbn [String.append String.get]. apply get_append_right.
  - rewrite (cat_length 4) by (apply slot_width; exact Hrow).
    rewrite length_map, Hlen. unfold line_width. lia.
Qed.

(** X21. The display of a well formed board whose slots are one character
    each: after the line of the column numbers come [2 * rows + 1] lines of
    [4 * columns + 1] characters, each followed by a line feed, and the
    character of the slot at row [i] and column [j] is character
    [4 * j + 2] of line [2 * i + 1] of them. *)
Theorem Board_str_shows_slots (b : Board) :
  well_formed b ->
  Forall (Forall (fun s => String.length s = 1%nat)) (grid b) ->
  String.length (Board_str b)
  = (String.length (numbered_column b)
     + (2 * Z.to_nat (rows b) + 1) * line_width b)%nat
  /\ (forall l : nat,
        (l <= 2 * Z.to_nat (rows b))%nat ->
        String.get
          (String.length (numbered_column b)
           + (l * line_width b + (line_width b - 1)))
          (Board_str b)
        = String.get 0 newline)
  /\ forall i j,
       in_grid b i j = true ->
       String.get
         (String.length (numbered_column b)
          + ((2 * Z.to_nat i + 1) * line_width b + (4 * Z.to_nat j + 2)))
         (Board_str b)
       = String.get 0 (cell b i j).
Proof.
  intros Hwf Hslots. pose proof (display_blocks b Hwf Hslots) as Hblocks.
  assert (Hw : (0 < line_width b)%nat) by (unfold line_width; lia).
  unfold Board_str. rewrite display_shape. split; [|split].
  - rewrite !string_length_append, (cat_length _ _ Hblocks).
    rewrite horizontal_border_length, length_map.
    destruct Hwf as [Hlen _]. rewrite Hlen. lia.
  - intros l Hl. rewrite get_append_right.
    destruct (Nat.eq_dec l (2 * Z.to_nat (rows b))%nat) as [->|Hne].
    + replace (2 * Z.to_nat (rows b) * line_width b + (line_width b - 1))%nat
        with (String.length
                (cat (map (fun row => horizontal_border b ++ middle_line row)
                        (grid b)))
              + (line_width b - 1))%nat.
      * rewrite get_append_right. apply horizontal_border_last.
      * rewrite (cat_length _ _ Hblocks), length_map.
        destruct Hwf as [Hlen _]. rewrite Hlen. lia.
    + destruct (lookup_lt_is_Some_2 (grid b) (l / 2)%nat) as [row Hrow].
      { destruct Hwf as [Hlen _]. rewrite Hlen.
        apply Nat.Div0.div_lt_upper_bound. lia. }
      assert (Hr : Forall (fun s => String.length s = 1%nat) row).
      { rewrite Forall_lookup in Hslots. exact (Hslots _ _ Hrow). }
      assert (Hlenrow : length row = Z.to_nat (columns b)).
      { destruct Hwf as [_ Hrows]. rewrite Forall_lookup in Hrows.
        exact (Hrows _ _ Hrow). }
      pose proof (Nat.div_mod_eq l 2) as Hdiv.
      pose proof (Nat.mod_upper_bound l 2 ltac:(lia)) as Hmod.
      replace (l * line_width b + (line_width b - 1))%nat
        with (l / 2 * (2 * line_width b)
              + (l mod 2 * line_width b + (line_width b - 1)))%nat by nia.
      rewrite (cat_get _ _ _ _ _ (horizontal_border b ++ middle_line row)
                 Hblocks).
      * destruct (l mod 2)%nat as [|[|k]] eqn:E; [| |lia].
        -- cbn [Nat.mul Nat.add]. rewrite get_append_left
             by (rewrite horizontal_border_length; lia).
           apply horizontal_border_last.
        -- replace (1 * line_width b + (line_width b - 1))%nat
             with (String.length (horizontal_border b) + (line_width b - 1))%nat
             by (rewrite horizontal_border_length; lia).
           rewrite get_append_right. apply middle_line_last; assumption.
      * rewrite list_lookup_fmap, Hrow. reflexivity.
      * nia.
  - intros i j Hin. rewrite get_append_right.
    destruct (on_board_lookup b i j Hwf Hin) as (row & Hrow & Hlenrow & Hslot).
    replace ((2 * Z.to_nat i + 1) * line_width b + (4 * Z.to_nat j + 2))%nat
      with (Z.to_nat i * (2 * line_width b)
            + (line_width b + (4 * Z.to_nat j + 2)))%nat by lia.
    rewrite (cat_get _ _ _ _ _ (horizontal_border b ++ middle_line row) Hblocks).
    + rewrite <- (horizontal_border_length b) at 1. rewrite get_append_right.
      assert (Hr : Forall (fun s => String.length s = 1%nat) row).
      { rewrite Forall_lookup in Hslots. exact (Hslots _ _ Hrow). }
      apply (middle_line_get row _ _ Hr Hslot).
    + rewrite list_lookup_fmap, Hrow. reflexivity.
    + apply in_grid_bounds in Hin. unfold line_width. lia.
Qed.

Lemma Board_str_shows_slots_witness :
  well_formed cross_turn_board
  /\ Forall (Forall (fun s => String.length s = 1%nat)) (grid cross_turn_board)
  /\ String.length (Board_str cross_turn_board)
     = (String.length (numbered_column cross_turn_board)
        + (2 * Z.to_nat (rows cross_turn_board) + 1)
          * line_width cross_turn_board)%nat
  /\ (forall l : nat,
        (l <= 2 * Z.to_nat (rows cross_turn_board))%nat ->
        String.get
          (String.length (numbered_column cross_turn_board)
           + (l * line_width cross_turn_board
              + (line_width cross_turn_board - 1)))
          (Board_str cross_turn_board)
        = String.get 0 newline)
  /\ forall i j,
       in_grid cross_turn_board i j = true ->
       String.get
         (String.length (numbered_column cross_turn_board)
          + ((2 * Z.to_nat i + 1) * line_width cross_turn_board
             + (4 * Z.to_nat j + 2)))
         (Board_str cross_turn_board)
       = String.get 0 (cell cross_turn_board i j).
Proof.
  assert (Hwf : well_formed cross_turn_board)
    by (split; [reflexivity|repeat constructor]).
  assert (Hslots : Forall (Forall (fun s => String.length s = 1%nat))
                     (grid cross_turn_board)) by (repeat constructor).
  split; [exact Hwf|]. split; [exact Hslots|].
  exact (Board_str_shows_slots cross_turn_board Hwf Hslots).
Defined.

(** ** The line of the column numbers *)

Lemma py_range_cons (m n : Z) :
  m < n -> py_range m n = m :: py_range (m + 1) n.
Proof.
  intros H. unfold py_range.
  replace (Z.to_nat (n - m)) with (S (Z.to_nat (n - (m + 1)))) by lia.
  cbn [seq map]. f_equal; [lia|].
  rewrite <- seq_shift, map_map. apply map_ext. intros k. lia.
Qed.

Lemma center_digit (k : Z) :
  1 <= k <= 9 ->
  exists d,
    str_int k = String d EmptyString /\ is_space d = false
    /\ center (str_int k) 3 = String " " (String d " ").
Proof.
  intros Hk. exists (ascii_of_nat (48 + Z.to_nat k)).
  assert (E : k = 1 \/ k = 2 \/ k = 3 \/ k = 4 \/ k = 5 \/ k = 6 \/ k = 7
              \/ k = 8 \/ k = 9) by lia.
  repeat (destruct E as [-> | E]; [repeat split; vm_compute; reflexivity|]).
  subst k. repeat split; vm_compute; reflexivity.
Qed.

Lemma number_columns_keeps (column_nums : list Z) (width : Z) (acc : string)
  (n : nat) (c : ascii) :
  String.get n acc = Some c ->
  String.get n (number_columns column_nums width acc) = Some c.
Proof.
  revert acc. induction column_nums as [|k rest IH]; intros acc H;
    [exact H|].
  cbn [number_columns]. cbv zeta. apply IH.
  pose proof (get_Some_lt _ _ _ H) as Hlt.
  destruct (k <? width).
  - rewrite !get_append_left; [exact H|exact Hlt|].
    rewrite string_length_append. lia.
  - rewrite get_append_left; [exact H|exact Hlt].
Qed.

Lemma number_columns_digit (width k : Z) :
  1 <= k <= width -> k <= 9 ->
  forall (len : nat) (m : Z) (acc : string),
    Z.to_nat (width + 1 - m) = len -> 1 <= m <= k ->
    String.length acc = Z.to_nat (4 * (m - 1) + 1) ->
    String.get (Z.to_nat (4 * (k - 1) + 2))
      (number_columns (py_range m (width + 1)) width acc)
    = String.get 0 (str_int k).
Proof.
  intros Hk H9. induction len as [|len IH]; intros m acc Hlen Hm Hacc; [lia|].
  rewrite py_range_cons by lia. cbn [number_columns]. cbv zeta.
  destruct (center_digit m) as (d & Hstr & _ & Hcen); [lia|].
  rewrite Hcen. destruct (Z.eq_dec m k) as [->|Hne].
  - rewrite Hstr. cbn [String.get]. apply number_columns_keeps.
    assert (Hhere : String.get (Z.to_nat (4 * (k - 1) + 2))
                      (acc ++ String " " (String d " ")) = Some d).
    { replace (Z.to_nat (4 * (k - 1) + 2))
        with (String.length acc + 1)%nat by lia.
      rewrite get_append_right. reflexivity. }
    destruct (k <? width); [|exact Hhere].
    rewrite get_append_left; [exact Hhere|].
    apply (get_Some_lt _ _ _ Hhere).
  - replace (m <? width) with true by lia.
    apply IH; [lia|lia|].
    rewrite !string_length_append, Hacc. cbn [String.length]. lia.
Qed.

Lemma rstrip_get (s : string) (n : nat) (c : ascii) :
  String.get n s = Some c -> is_space c = false ->
  String.get n (rstrip s) = Some c.
Proof.
  revert n. induction s as [|c' s IH]; intros n H Hc; [discriminate|].
  cbn [rstrip]. destruct n as [|n]; cbn [String.get] in H.
  - injection H as ->. destruct (rstrip s); [rewrite Hc|]; reflexivity.
  - pose proof (IH n H Hc) as H'.
    destruct (rstrip s) as [|c'' s'']; [discriminate|exact H'].
Qed.

(** X22. In the first line of the display, the number of a column up to the
    ninth is one digit, and it stands at character [4 * (k - 1) + 2]: the
    place that the slots of column [k] have in their lines. *)
Theorem Board_str_numbers_columns (b : Board) (k : Z) :
  1 <= k <= columns b -> k <= 9 ->
  String.length (str_int k) = 1%nat
  /\ String.get (Z.to_nat (4 * (k - 1) + 2)) (Board_str b)
     = String.get 0 (str_int k).
Proof.
  intros Hk H9.
  destruct (center_digit k) as (d & Hstr & Hsp & _); [lia|].
  split; [rewrite Hstr; reflexivity|].
  pose proof (number_columns_digit (columns b) k Hk H9 _ 1 " " eq_refl
                ltac:(lia) eq_refl) as Hraw.
  rewrite Hstr in Hraw |- *. cbn [String.get] in Hraw |- *.
  apply rstrip_get in Hraw; [|exact Hsp].
  unfold Board_str, numbered_column.
  rewrite !get_append_left; [exact Hraw| |].
  - apply (get_Some_lt _ _ _ Hraw).
  - rewrite string_length_append. apply get_Some_lt in Hraw. lia.
Qed.

Lemma Board_str_numbers_columns_witness :
  1 <= 7 <= columns cross_turn_board /\ 7 <= 9
  /\ String.length (str_int 7) = 1%nat
  /\ String.get (Z.to_nat (4 * (7 - 1) + 2)) (Board_str cross_turn_board)
     = String.get 0 (str_int 7).
Proof.
  assert (Hk : 1 <= 7 <= columns cross_turn_board) by (cbn; lia).
  assert (H9 : 7 <= 9) by lia.
  split; [exact Hk|]. split; [exact H9|].
  exact (Board_str_numbers_columns cross_turn_board 7 Hk H9).
Defined.

Example Board_str_sample :
  Board_str (mkBoard 2 3 [[" "; " "; " "]; ["X"; " "; "O"]])
  = "  1   2   3" ++ newline
    ++ "+---+---+---+" ++ newline
    ++ "|   |   |   |" ++ newline
    ++ "+---+---+---+" ++ newline
    ++ "| X |   | O |" ++ newline
    ++ "+---+---+---+" ++ newline.
Proof. vm_compute. reflexivity. Qed.

(** ** The hand of a player *)

Lemma held_cons (s : string) (q : Piece) (ps : list Piece) :
  held s (q :: ps)
  = (if String.eqb (piece_symbol q) s then 1 else 0) + held s ps.
Proof.
  unfold held. cbn [List.filter].
  destruct (String.eqb (piece_symbol q) s); cbn [length]; lia.
Qed.

Lemma held_nonneg (s : string) (ps : list Piece) : 0 <= held s ps.
Proof. unfold held. lia. Qed.

(** The counting loop adds to each entry the number of pieces with its
    symbol, and makes an entry for each symbol it meets. *)
Lemma fold_count_piece (ps : list Piece) (counter : gmap string Z)
  (s : string) :
  fold_left count_piece ps counter !! s
  = match counter !! s with
    | Some n => Some (n + held s ps)
    | None => if held s ps =? 0 then None else Some (held s ps)
    end.
Proof.
  revert counter. induction ps as [|q ps IH]; intros counter.
  - cbn [fold_left]. unfold held. cbn.
    destruct (counter !! s) as [n|]; [f_equal; lia|reflexivity].
  - cbn [fold_left]. rewrite IH, held_cons. unfold count_piece. cbv zeta.
    pose proof (held_nonneg s ps) as Hpos.
    destruct (String.eqb_spec (piece_symbol q) s) as [->|Hne].
    + destruct (counter !! s) as [n|] eqn:E.
      * rewrite lookup_insert_eq. f_equal; lia.
      * rewrite lookup_insert_eq.
        replace (1 + held s ps =? 0) with false by lia. f_equal; lia.
    + assert (Hother : forall v,
                <[piece_symbol q := v]> counter !! s = counter !! s)
        by (intros v; apply lookup_insert_ne; exact Hne).
      destruct (counter !! piece_symbol q); rewrite Hother;
        destruct (counter !! s); reflexivity.
Qed.

Lemma count_pieces_lookup (ps : list Piece) (s : string) :
  count_pieces ps !! s
  = if held s ps =? 0 then None else Some (held s ps).
Proof. unfold count_pieces. rewrite fold_count_piece, lookup_empty. reflexivity. Qed.

Lemma held_positive (s : string) (ps : list Piece) :
  held s ps <> 0 <-> exists q, In q ps /\ piece_symbol q = s.
Proof.
  induction ps as [|q ps IH].
  - split; [intros H; exfalso; apply H; reflexivity|intros (q & [] & _)].
  - rewrite held_cons. pose proof (held_nonneg s ps) as Hpos.
    destruct (String.eqb_spec (piece_symbol q) s) as [E|E]; split.
    + intros _. exists q. split; [left; reflexivity|exact E].
    + intros _. lia.
    + intros H. destruct IH as [IH _].
      destruct IH as (q' & Hq' & Hs); [lia|].
      exists q'. split; [right; exact Hq'|exact Hs].
    + intros (q' & [<- | Hq'] & Hs); [contradiction|].
      assert (held s ps <> 0) by (apply IH; eauto). lia.
Qed.

Lemma string_le_total : Total string_le.
Proof. intros a b. apply String.leb_total. Qed.

(** X23. The hand that [Player.__str__] shows: after the name and
    "'s pieces -> " come, separated by ", ", one entry "symbol: count" for
    each symbol of which the player holds a piece, each symbol once, in
    increasing order, with the number of pieces of the collection that have
    that symbol. *)
Theorem Player_str_lists_hand (p : Player) :
  let keys := sorted_keys (count_pieces (pieces p)) in
  Player_str p
  = name p ++ "'s pieces -> "
    ++ String.concat ", "
         (map (fun key => key ++ ": " ++ str_int (held key (pieces p))) keys)
  /\ NoDup keys /\ Sorted string_le keys
  /\ forall s, In s keys <-> exists q, In q (pieces p) /\ piece_symbol q = s.
Proof.
  intros keys.
  assert (Hperm : keys ≡ₚ map fst (map_to_list (count_pieces (pieces p))))
    by apply merge_sort_Permutation.
  assert (Hkey : forall s, In s keys <-> held s (pieces p) <> 0).
  { intros s. rewrite <- list_elem_of_In, Hperm.
    change (map fst (map_to_list (count_pieces (pieces p))))
      with ((map_to_list (count_pieces (pieces p))).*1).
    rewrite list_elem_of_fmap. split.
    - intros ([k n] & -> & Hin). apply elem_of_map_to_list in Hin.
      cbn [fst]. rewrite count_pieces_lookup in Hin.
      destruct (Z.eqb_spec (held k (pieces p)) 0); [discriminate|assumption].
    - intros Hne. exists (s, held s (pieces p)). split; [reflexivity|].
      apply elem_of_map_to_list. rewrite count_pieces_lookup.
      destruct (Z.eqb_spec (held s (pieces p)) 0); [contradiction|reflexivity]. }
  split; [|split; [|split]].
  - unfold Player_str. cbv zeta. fold keys. do 3 f_equal.
    apply map_ext_in. intros key Hin. apply Hkey in Hin. do 3 f_equal.
    apply lookup_total_correct. rewrite count_pieces_lookup.
    destruct (Z.eqb_spec (held key (pieces p)) 0); [contradiction|reflexivity].
  - rewrite Hperm. apply NoDup_fst_map_to_list.
  - apply Sorted_merge_sort. exact string_le_total.
  - intros s. rewrite Hkey. apply held_positive.
Qed.

Example Player_str_sample :
  Player_str (player1 (setup 6 7 ("ann", "X") ("bob", "O")))
  = "ann's pieces -> B: 2, T: 4, X: 21".
Proof. vm_compute. reflexivity. Qed.
